(** * OpenSouth scrapers: a shallow embedding of [opensouth/scrapers/scrapers.py]

    The Python module fetches civic documents over HTTP, extracts records
    from the pages and stores raw files plus JSON indexes.  The embedding
    keeps the data of the program as the program has it:

    - a Python [str] is a sequence of Unicode code points ([list N]);
    - [bytes] is [list byte];
    - a [dict] is an insertion-ordered association list;
    - what the process does to the network, the clock, the log and the
      browser is recorded, in the order in which it happens, in the trace
      of an explicit [World] that every effectful function threads; the
      other field of the world is the output volume, with its files, its
      directories and what it refuses;
    - an exception is a value of [Exc], and the state reached when it was
      raised is kept (Python does not roll side effects back). *)

From Stdlib Require Import NArith ZArith List Ascii String Lia Bool.
From Stdlib.Strings Require Import Byte.
From Stdlib Require DecimalString.
From stdpp Require Import base option list gmap.
Import ListNotations.

Local Open Scope N_scope.
Local Open Scope list_scope.

(* ===================================================================== *)
(** ** Python strings                                                      *)
(* ===================================================================== *)

(** A [str] is a sequence of code points. *)
Abbreviation pystr := (list N).

(** An ASCII literal of the source, as code points. *)
Definition lit (s : string) : pystr :=
  List.map N_of_ascii (list_ascii_of_string s).

(** A code point is a Unicode scalar value when it is below 0x110000 and
    is not a surrogate; only such text can be written to a UTF-8 file. *)
Definition is_scalar (c : N) : bool :=
  (c <? 0xD800) || ((0xDFFF <? c) && (c <? 0x110000)).

Definition is_ascii (c : N) : bool := c <? 128.

Definition str_eqb (a b : pystr) : bool := bool_decide (a = b).

(** [s.startswith(p)] *)
Fixpoint startswith (p s : pystr) : bool :=
  match p, s with
  | [], _ => true
  | _ :: _, [] => false
  | a :: p', b :: s' => (a =? b) && startswith p' s'
  end.

(** [p in s] on strings: substring containment. *)
Fixpoint contains (p s : pystr) : bool :=
  startswith p s ||
  match s with
  | [] => false
  | _ :: s' => contains p s'
  end.

(** [s.strip("-")]: drop the leading and the trailing hyphens. *)
Definition HYPHEN : N := 45.

Fixpoint lstrip (ch : N) (s : pystr) : pystr :=
  match s with
  | c :: s' => if c =? ch then lstrip ch s' else s
  | [] => []
  end.

Definition rstrip (ch : N) (s : pystr) : pystr := rev (lstrip ch (rev s)).

Definition strip (ch : N) (s : pystr) : pystr := rstrip ch (lstrip ch s).

(** [str(n)] for an [int]. *)
Definition str_of_int (z : Z) : pystr :=
  lit (DecimalString.NilZero.string_of_int (Z.to_int z)).

(** [sep.join(parts)] *)
Fixpoint join (sep : pystr) (parts : list pystr) : pystr :=
  match parts with
  | [] => []
  | [p] => p
  | p :: rest => p ++ sep ++ join sep rest
  end.

(* ===================================================================== *)
(** ** Regular expressions of the module                                   *)
(* ===================================================================== *)

(** [re.sub(CLASS+, repl, s)] for a character class [cls]: every maximal
    run of characters of the class is replaced by one [repl].  [inrun]
    records that the previous character already belonged to the run. *)
Fixpoint re_sub_runs (cls : N -> bool) (repl : pystr) (inrun : bool)
    (s : pystr) : pystr :=
  match s with
  | [] => []
  | c :: s' =>
      if cls c
      then (if inrun then [] else repl) ++ re_sub_runs cls repl true s'
      else c :: re_sub_runs cls repl false s'
  end.

Definition re_sub_plus (cls : N -> bool) (repl s : pystr) : pystr :=
  re_sub_runs cls repl false s.

(** [re.search(CLASS{4}, s)]: the leftmost window of four consecutive
    characters of the class, as [group(1)]. *)
Fixpoint re_search_4 (cls : N -> bool) (s : pystr) : option pystr :=
  match s with
  | [] => None
  | a :: s' =>
      match s' with
      | b :: c :: d :: _ =>
          if cls a && cls b && cls c && cls d
          then Some [a; b; c; d]
          else re_search_4 cls s'
      | _ => None
      end
  end.

(* ===================================================================== *)
(** ** Paths and the output file system                                    *)
(* ===================================================================== *)

(** A [pathlib.Path] is its sequence of components. *)
Abbreviation path := (list (list N)).

(** [Path(s)] for a relative path string: split at ['/'], empty
    components dropped. *)
Definition SLASH : N := 47.

Fixpoint split_slash (cur : pystr) (s : pystr) : list pystr :=
  match s with
  | [] => [rev cur]
  | c :: s' =>
      if c =? SLASH then rev cur :: split_slash [] s'
      else split_slash (c :: cur) s'
  end.

Definition Path (s : pystr) : path :=
  List.filter (fun p => negb (bool_decide (p = []))) (split_slash [] s).

(** [a / b] *)
Definition path_join (a b : path) : path := a ++ b.

(** [str(p)] (POSIX flavour) *)
Definition path_str (p : path) : pystr := join [SLASH] p.

(** [p.parent] *)
Definition parent (p : path) : path := removelast p.

(** The output volume: its regular files with their bytes, its
    directories, and the entries it does not let the process create or
    open for writing ([refuses]: a name over the limit of the volume, a
    place where the process has no permission). *)
Record FS := mkFS {
  files : gmap (list (list N)) (list byte);
  dirs : gset (list (list N));
  refuses : list (list N) -> bool
}.

(** All the ancestors of [p] and [p] itself, outermost first (the root
    [[]] is left out: it always exists). *)
Fixpoint prefixes_from (base : path) (p : path) : list path :=
  match p with
  | [] => []
  | c :: rest => (base ++ [c]) :: prefixes_from (base ++ [c]) rest
  end.

Definition prefixes (p : path) : list path := prefixes_from [] p.

(* ===================================================================== *)
(** ** Exceptions, the world and the effect monad                          *)
(* ===================================================================== *)

(** The exceptions the module raises or lets through. *)
Inductive Exc :=
| RuntimeError (msg : pystr)
| RequestException (msg : pystr)   (* raised by [session.get] itself *)
| HTTPError (status : N)           (* raised by [raise_for_status] *)
| RenderError (msg : pystr)        (* raised by [r.html.render] *)
| TypeError                        (* subscript of [None] *)
| AttributeError                   (* attribute of [None] *)
| KeyError (key : pystr)           (* missing attribute of a tag *)
| OSError (p : path)               (* [p] has the wrong kind or is refused *)
| UnicodeEncodeError.              (* text that UTF-8 cannot encode *)

(** What [requests] hands back for a GET that did not raise. *)
Record Response := mkResponse {
  status_code : N;
  text : pystr;
  content : list byte
}.

(** A record handed to the logger: the level, the format string and its
    arguments (the logging module formats them lazily). *)
Inductive Level := INFO | WARNING.
Inductive LogArg := LStr (s : pystr) | LInt (z : Z) | LExc (e : Exc).
Record LogRecord := mkLog { level : Level; fmt : pystr; args : list LogArg }.

(** What the process does to the outside, apart from writing files. *)
Inductive Event :=
| EGet (url : pystr)                 (* [sess.get(url, timeout=30)] *)
| ESleep (seconds : N)               (* [time.sleep(seconds)] *)
| ELog (r : LogRecord)               (* [logger.warning], [logger.info] *)
| ERender (url : pystr) (wait timeout : N).
                                     (* [r.html.render(sleep=, timeout=)] *)

(** The state every effectful function threads: what the process has
    done so far, in the order in which it did it, and the output tree. *)
Record World := mkWorld {
  trace : list Event;
  fs : FS
}.

(** The URLs requested, the durations slept and the records logged, each
    in order. *)
Definition gets_of (es : list Event) : list pystr :=
  flat_map (fun e => match e with EGet u => [u] | _ => [] end) es.

Definition sleeps_of (es : list Event) : list N :=
  flat_map (fun e => match e with ESleep d => [d] | _ => [] end) es.

Definition logs_of (es : list Event) : list LogRecord :=
  flat_map (fun e => match e with ELog r => [r] | _ => [] end) es.

Definition requests (w : World) : list pystr := gets_of (trace w).
Definition sleeps (w : World) : list N := sleeps_of (trace w).
Definition logs (w : World) : list LogRecord := logs_of (trace w).

(** The world [w] after the events [es]. *)
Definition did (w : World) (es : list Event) : World :=
  mkWorld (trace w ++ es) (fs w).

Definition M (A : Type) : Type := World -> (Exc + A) * World.

Definition ret {A} (a : A) : M A := fun w => (inr a, w).

Definition raise {A} (e : Exc) : M A := fun w => (inl e, w).

Definition bind {A B} (c : M A) (k : A -> M B) : M B :=
  fun w =>
    match c w with
    | (inr a, w1) => k a w1
    | (inl e, w1) => (inl e, w1)
    end.

(** [try: body / except Exception as err: handler(err)] *)
Definition try_except {A} (body : M A) (handler : Exc -> M A) : M A :=
  fun w =>
    match body w with
    | (inr a, w1) => (inr a, w1)
    | (inl e, w1) => handler e w1
    end.

Declare Scope py_scope.
Delimit Scope py_scope with py.
Notation "x <- c ;; k" := (bind c (fun x => k))
  (at level 100, c at next level, right associativity) : py_scope.
Notation "c ;;; k" := (bind c (fun _ => k))
  (at level 100, right associativity) : py_scope.
Local Open Scope py_scope.

(** [for x in xs: acc = body(x, acc)]: the loops of the module append to
    a list created before the loop; [acc] is that list. *)
Fixpoint for_loop {X S} (body : X -> S -> M S) (xs : list X) (acc : S)
    : M S :=
  match xs with
  | [] => ret acc
  | x :: xs' => acc' <- body x acc ;; for_loop body xs' acc'
  end.

(** An effect without result. *)
Definition emit (e : Event) : M unit := fun w => (inr tt, did w [e]).

(** [time.sleep(d)] *)
Definition sleep (d : N) : M unit := emit (ESleep d).

(** [logger.warning(fmt, *args)] and [logger.info(fmt, *args)] *)
Definition log (lv : Level) (f : pystr) (a : list LogArg) : M unit :=
  emit (ELog (mkLog lv f a)).

(** [resp.raise_for_status()]: client and server error statuses raise. *)
Definition raise_for_status (r : Response) : M unit :=
  if (400 <=? status_code r) && (status_code r <? 600)
  then raise (HTTPError (status_code r))
  else ret tt.

(** ** File operations of [pathlib] used by the module *)

Definition get_fs : M FS := fun w => (inr (fs w), w).

Definition put_fs (f : FS) : M unit :=
  fun w => (inr tt, mkWorld (trace w) f).

(** The volume refuses to make the directory [p]: it is not there yet
    and may not be created. *)
Definition mkdir_refused (f : FS) (p : path) : bool :=
  negb (bool_decide (p ∈ dirs f)) && refuses f p.

(** [p.mkdir(parents=True, exist_ok=True)]: every missing ancestor and
    [p] become directories, outermost first; a regular file in the way,
    or a directory the volume refuses to make, is an error, and the
    directories made before it stay.  The result is the tree reached,
    with the error if there is one. *)
Fixpoint mkdir_prefixes (ps : list path) (f : FS) : Exc * FS + FS :=
  match ps with
  | [] => inr f
  | p :: rest =>
      match files f !! p with
      | Some _ => inl (OSError p, f)
      | None =>
          if mkdir_refused f p then inl (OSError p, f)
          else mkdir_prefixes rest
                 (mkFS (files f) ({[p]} ∪ dirs f) (refuses f))
      end
  end.

Definition mkdir_parents (p : path) : M unit :=
  f <- get_fs ;;
  match mkdir_prefixes (prefixes p) f with
  | inl (e, f') => put_fs f' ;;; raise e
  | inr f' => put_fs f'
  end.

(** The file [p] cannot be opened for writing: it is a directory, or the
    volume refuses it. *)
Definition open_refused (f : FS) (p : path) : bool :=
  bool_decide (p ∈ dirs f) || refuses f p.

(** Opening [p] for writing creates or truncates the regular file [p];
    a directory at [p], or a file the volume refuses, is an error. *)
Definition open_w (p : path) : M unit :=
  f <- get_fs ;;
  if open_refused f p then raise (OSError p)
  else put_fs (mkFS (<[p := []]> (files f)) (dirs f) (refuses f)).

(** Appending bytes to the open file [p]. *)
Definition append_bytes (p : path) (b : list byte) : M unit :=
  f <- get_fs ;;
  put_fs (mkFS (<[p := default [] (files f !! p) ++ b]> (files f)) (dirs f)
               (refuses f)).

(** [p.write_bytes(b)] *)
Definition write_bytes (p : path) (b : list byte) : M unit :=
  open_w p ;;; append_bytes p b.

(* ===================================================================== *)
(** ** UTF-8, the encoding of the index files                              *)
(* ===================================================================== *)

Definition byte_of_N (n : N) : byte := default x00 (Byte.of_N n).

(** The strict UTF-8 encoding of one code point; surrogates and values
    beyond U+10FFFF cannot be encoded. *)
Definition utf8_encode_char (c : N) : option (list byte) :=
  if c <? 0x80 then Some [byte_of_N c]
  else if c <? 0x800 then
    Some [byte_of_N (N.lor 0xC0 (N.shiftr c 6));
          byte_of_N (N.lor 0x80 (N.land c 0x3F))]
  else if c <? 0x10000 then
    if (0xD800 <=? c) && (c <=? 0xDFFF) then None
    else
      Some [byte_of_N (N.lor 0xE0 (N.shiftr c 12));
            byte_of_N (N.lor 0x80 (N.land (N.shiftr c 6) 0x3F));
            byte_of_N (N.lor 0x80 (N.land c 0x3F))]
  else if c <? 0x110000 then
    Some [byte_of_N (N.lor 0xF0 (N.shiftr c 18));
          byte_of_N (N.lor 0x80 (N.land (N.shiftr c 12) 0x3F));
          byte_of_N (N.lor 0x80 (N.land (N.shiftr c 6) 0x3F));
          byte_of_N (N.lor 0x80 (N.land c 0x3F))]
  else None.

(** [s.encode("utf-8")] *)
Fixpoint utf8_encode (s : pystr) : option (list byte) :=
  match s with
  | [] => Some []
  | c :: s' =>
      match utf8_encode_char c, utf8_encode s' with
      | Some b, Some bs => Some (b ++ bs)
      | _, _ => None
      end
  end.

Definition is_cont (b : N) : bool := (0x80 <=? b) && (b <? 0xC0).

(** [b.decode("utf-8")]: strict, so overlong forms, surrogates and
    truncated sequences are rejected. *)
Fixpoint utf8_decode (bs : list byte) : option pystr :=
  match bs with
  | [] => Some []
  | x0 :: r1 =>
      let b0 := Byte.to_N x0 in
      if b0 <? 0x80 then option_map (cons b0) (utf8_decode r1)
      else
        match r1 with
        | [] => None
        | x1 :: r2 =>
            let b1 := Byte.to_N x1 in
            if negb (is_cont b1) then None
            else if (0xC2 <=? b0) && (b0 <? 0xE0) then
              option_map
                (cons (N.lor (N.shiftl (N.land b0 0x1F) 6) (N.land b1 0x3F)))
                (utf8_decode r2)
            else
              match r2 with
              | [] => None
              | x2 :: r3 =>
                  let b2 := Byte.to_N x2 in
                  if negb (is_cont b2) then None
                  else if (0xE0 <=? b0) && (b0 <? 0xF0) then
                    let c := N.lor (N.shiftl (N.land b0 0x0F) 12)
                               (N.lor (N.shiftl (N.land b1 0x3F) 6)
                                      (N.land b2 0x3F)) in
                    if (c <? 0x800) || ((0xD800 <=? c) && (c <=? 0xDFFF))
                    then None
                    else option_map (cons c) (utf8_decode r3)
                  else
                    match r3 with
                    | [] => None
                    | x3 :: r4 =>
                        let b3 := Byte.to_N x3 in
                        if negb (is_cont b3) then None
                        else if (0xF0 <=? b0) && (b0 <? 0xF5) then
                          let c := N.lor (N.shiftl (N.land b0 0x07) 18)
                                     (N.lor (N.shiftl (N.land b1 0x3F) 12)
                                        (N.lor (N.shiftl (N.land b2 0x3F) 6)
                                               (N.land b3 0x3F))) in
                          if (c <? 0x10000) || (0x10FFFF <? c) then None
                          else option_map (cons c) (utf8_decode r4)
                        else None
                    end
              end
        end
  end.

(** A literal of the source with non-ASCII characters: the bytes of the
    Rocq string are its UTF-8 encoding. *)
Definition ulit (s : string) : pystr :=
  default [] (utf8_decode (list_byte_of_string s)).

(* ===================================================================== *)
(** ** SHA-1, as [hashlib.sha1(data).hexdigest()] computes it             *)
(* ===================================================================== *)

Definition w32 (x : N) : N := x mod 2 ^ 32.

Definition rotl32 (k x : N) : N :=
  w32 (N.lor (N.shiftl x k) (N.shiftr x (32 - k))).

(** Big-endian 32-bit word of four bytes. *)
Definition be32 (b0 b1 b2 b3 : N) : N :=
  N.lor (N.shiftl b0 24) (N.lor (N.shiftl b1 16) (N.lor (N.shiftl b2 8) b3)).

Fixpoint words_of_bytes (bs : list N) : list N :=
  match bs with
  | b0 :: b1 :: b2 :: b3 :: rest => be32 b0 b1 b2 b3 :: words_of_bytes rest
  | _ => []
  end.

(** The 8-byte big-endian bit length that ends the padding. *)
Definition be64_bytes (n : N) : list N :=
  List.map (fun i => N.land (N.shiftr n (8 * i)) 0xFF) [7; 6; 5; 4; 3; 2; 1; 0].

(** Message padding: a 1 bit, zeros up to 56 mod 64, the bit length. *)
Definition sha1_pad (msg : list N) : list N :=
  let len := N.of_nat (length msg) in
  let zeros := (119 - len mod 64) mod 64 in
  msg ++ [0x80] ++ repeat 0 (N.to_nat zeros) ++ be64_bytes (8 * len).

(** The message schedule: [w] holds the words so far, newest first. *)
Fixpoint sha1_schedule (n : nat) (w : list N) : list N :=
  match n with
  | O => w
  | S n' =>
      let x := N.lxor (N.lxor (nth 2 w 0) (nth 7 w 0))
                      (N.lxor (nth 13 w 0) (nth 15 w 0)) in
      sha1_schedule n' (rotl32 1 x :: w)
  end.

Record sha1_state := mkH { ha : N; hb : N; hc : N; hd : N; he : N }.

Definition sha1_f (t : nat) (b c d : N) : N :=
  if (t <? 20)%nat then N.lor (N.land b c) (N.land (N.lxor b 0xFFFFFFFF) d)
  else if (t <? 40)%nat then N.lxor b (N.lxor c d)
  else if (t <? 60)%nat then
    N.lor (N.land b c) (N.lor (N.land b d) (N.land c d))
  else N.lxor b (N.lxor c d).

Definition sha1_k (t : nat) : N :=
  if (t <? 20)%nat then 0x5A827999
  else if (t <? 40)%nat then 0x6ED9EBA1
  else if (t <? 60)%nat then 0x8F1BBCDC
  else 0xCA62C1D6.

Definition sha1_round (s : sha1_state) (tw : nat * N) : sha1_state :=
  let '(t, w) := tw in
  let temp :=
    w32 (rotl32 5 (ha s) + sha1_f t (hb s) (hc s) (hd s) + he s
         + sha1_k t + w) in
  mkH temp (ha s) (rotl32 30 (hb s)) (hc s) (hd s).

(** One 512-bit block (sixteen words) folded into the chaining value. *)
Definition sha1_block (h : sha1_state) (blk : list N) : sha1_state :=
  let w := rev (sha1_schedule 64 (rev blk)) in
  let s := fold_left sha1_round (combine (seq 0 80) w) h in
  mkH (w32 (ha h + ha s)) (w32 (hb h + hb s)) (w32 (hc h + hc s))
      (w32 (hd h + hd s)) (w32 (he h + he s)).

(** The words of the padded message, sixteen at a time; [cur] collects
    the current block, newest word first. *)
Fixpoint sha1_blocks (h : sha1_state) (cur : list N) (ws : list N)
    : sha1_state :=
  match ws with
  | [] => h
  | w :: ws' =>
      if (length cur =? 15)%nat
      then sha1_blocks (sha1_block h (rev (w :: cur))) [] ws'
      else sha1_blocks h (w :: cur) ws'
  end.

Definition sha1_init : sha1_state :=
  mkH 0x67452301 0xEFCDAB89 0x98BADCFE 0x10325476 0xC3D2E1F0.

Definition hex_digit (n : N) : N :=
  if n <? 10 then 48 + n else 87 + n.

(** Eight lowercase hexadecimal digits of a 32-bit word. *)
Definition hex32 (x : N) : pystr :=
  List.map (fun i => hex_digit (N.land (N.shiftr x (4 * i)) 0xF))
           [7; 6; 5; 4; 3; 2; 1; 0].

(** [def sha1(data: bytes) -> str] *)
Definition sha1 (data : list byte) : pystr :=
  let h := sha1_blocks sha1_init []
             (words_of_bytes (sha1_pad (List.map Byte.to_N data))) in
  hex32 (ha h) ++ hex32 (hb h) ++ hex32 (hc h) ++ hex32 (hd h)
  ++ hex32 (he h).

(* ===================================================================== *)
(** ** Dictionaries and records                                            *)
(* ===================================================================== *)

(** An extracted record is a [dict] from field names to strings; Python
    dictionaries keep insertion order. *)
Abbreviation record := (list (list N * list N)).

(** [d[k] = v]: an existing key keeps its place and takes the new value,
    a new key goes last. *)
Fixpoint dict_set (k v : pystr) (d : record) : record :=
  match d with
  | [] => [(k, v)]
  | (k', v') :: d' =>
      if str_eqb k k' then (k', v) :: d'
      else (k', v') :: dict_set k v d'
  end.

(** [d.get(k)] *)
Fixpoint dict_get (k : pystr) (d : record) : option pystr :=
  match d with
  | [] => None
  | (k', v') :: d' => if str_eqb k k' then Some v' else dict_get k d'
  end.

(** [dict(pairs)]: the pairs are inserted from left to right. *)
Definition dict_of_pairs (ps : list (pystr * pystr)) : record :=
  fold_left (fun d kv => dict_set (fst kv) (snd kv) d) ps [].

(** [d.keys()] *)
Definition dict_keys (d : record) : list pystr := List.map fst d.

(* ===================================================================== *)
(** ** JSON, as [json.dump(data, fh, ensure_ascii=False, indent=2)]
       writes a list of records and [json.load] reads it back            *)
(* ===================================================================== *)

Definition QUOTE : N := 34.
Definition BACKSLASH : N := 92.

(** [ESCAPE_DCT] of [json.encoder]: with [ensure_ascii=False] only the
    quote, the backslash and the control characters are escaped. *)
Definition json_escape_char (c : N) : pystr :=
  if c =? QUOTE then [BACKSLASH; QUOTE]
  else if c =? BACKSLASH then [BACKSLASH; BACKSLASH]
  else if c =? 8 then [BACKSLASH; 98]
  else if c =? 12 then [BACKSLASH; 102]
  else if c =? 10 then [BACKSLASH; 110]
  else if c =? 13 then [BACKSLASH; 114]
  else if c =? 9 then [BACKSLASH; 116]
  else if c <? 32 then
    [BACKSLASH; 117; 48; 48; hex_digit (c / 16); hex_digit (c mod 16)]
  else [c].

(** [encode_basestring(s)] *)
Definition encode_basestring (s : pystr) : pystr :=
  [QUOTE] ++ flat_map json_escape_char s ++ [QUOTE].

Definition NEWLINE : N := 10.
Definition SPACE : N := 32.

(** ['\n' + ' ' * 2 * level] *)
Definition newline_indent (lvl : nat) : pystr :=
  NEWLINE :: repeat SPACE (2 * lvl).

(** The chunks [_iterencode_dict] yields for the items of a record;
    [first] is the flag of the source. *)
Fixpoint iterencode_items (lvl : nat) (first : bool) (d : record)
    : list pystr :=
  match d with
  | [] => []
  | (k, v) :: d' =>
      (if first then [] else [[44] ++ newline_indent lvl])
      ++ [encode_basestring k; [58; SPACE]; encode_basestring v]
      ++ iterencode_items lvl false d'
  end.

(** [_iterencode_dict(dct, level)] *)
Definition iterencode_dict (lvl : nat) (d : record) : list pystr :=
  match d with
  | [] => [[123; 125]]
  | _ =>
      [[123]; newline_indent (S lvl)]
      ++ iterencode_items (S lvl) true d
      ++ [newline_indent lvl; [125]]
  end.

(** The chunks [_iterencode_list] yields for the elements: [buf] is the
    pending opening bracket or separator. *)
Fixpoint iterencode_elems (lvl : nat) (buf : pystr) (rs : list record)
    : list pystr :=
  match rs with
  | [] => []
  | r :: rs' =>
      [buf] ++ iterencode_dict lvl r
      ++ iterencode_elems lvl ([44] ++ newline_indent lvl) rs'
  end.

(** [_iterencode_list(lst, 0)], the top level of an index. *)
Definition iterencode (rs : list record) : list pystr :=
  match rs with
  | [] => [[91; 93]]
  | _ =>
      iterencode_elems 1 ([91] ++ newline_indent 1) rs
      ++ [newline_indent 0; [93]]
  end.

(** [json.dumps(rs, ensure_ascii=False, indent=2)]: the chunks joined. *)
Definition json_dumps (rs : list record) : pystr := concat (iterencode rs).

(** *** Reading *)

Definition is_ws (c : N) : bool :=
  (c =? 32) || (c =? 9) || (c =? 10) || (c =? 13).

Fixpoint skip_ws (s : pystr) : pystr :=
  match s with
  | c :: s' => if is_ws c then skip_ws s' else s
  | [] => []
  end.

Definition hex_val (c : N) : option N :=
  if (48 <=? c) && (c <=? 57) then Some (c - 48)
  else if (97 <=? c) && (c <=? 102) then Some (c - 87)
  else if (65 <=? c) && (c <=? 70) then Some (c - 55)
  else None.

Definition hex4 (a b c d : N) : option N :=
  match hex_val a, hex_val b, hex_val c, hex_val d with
  | Some x, Some y, Some z, Some t => Some (((x * 16 + y) * 16 + z) * 16 + t)
  | _, _, _, _ => None
  end.

Definition simple_escape (e : N) : option N :=
  if e =? QUOTE then Some QUOTE
  else if e =? BACKSLASH then Some BACKSLASH
  else if e =? 47 then Some 47
  else if e =? 98 then Some 8
  else if e =? 102 then Some 12
  else if e =? 110 then Some 10
  else if e =? 114 then Some 13
  else if e =? 116 then Some 9
  else None.

(** [scanstring] (strict): the text after an opening quote, up to the
    closing one; returns the string and what follows it.  [acc] is the
    string read so far, newest character first. *)
Fixpoint scanstring (s : pystr) (acc : pystr) : option (pystr * pystr) :=
  match s with
  | [] => None
  | c :: s1 =>
      if c =? QUOTE then Some (rev acc, s1)
      else if c <? 32 then None
      else if c =? BACKSLASH then
        match s1 with
        | [] => None
        | e :: s2 =>
            if e =? 117 then
              match s2 with
              | h1 :: h2 :: h3 :: h4 :: s3 =>
                  match hex4 h1 h2 h3 h4 with
                  | None => None
                  | Some u =>
                      if (0xD800 <=? u) && (u <=? 0xDBFF) then
                        match s3 with
                        | b :: m :: l1 :: l2 :: l3 :: l4 :: s4 =>
                            if (b =? BACKSLASH) && (m =? 117) then
                              match hex4 l1 l2 l3 l4 with
                              | None => None
                              | Some u2 =>
                                  if (0xDC00 <=? u2) && (u2 <=? 0xDFFF)
                                  then
                                    scanstring s4
                                      ((0x10000 + (u - 0xD800) * 0x400
                                        + (u2 - 0xDC00)) :: acc)
                                  else scanstring s3 (u :: acc)
                              end
                            else scanstring s3 (u :: acc)
                        | _ => scanstring s3 (u :: acc)
                        end
                      else scanstring s3 (u :: acc)
                  end
              | _ => None
              end
            else
              match simple_escape e with
              | Some x => scanstring s2 (x :: acc)
              | None => None
              end
        end
      else scanstring s1 (c :: acc)
  end.

(** The members of an object, from the opening quote of a key on. *)
Fixpoint parse_pairs (fuel : nat) (s : pystr) (acc : record)
    : option (record * pystr) :=
  match fuel with
  | O => None
  | S fuel' =>
      match s with
      | q :: s1 =>
          if negb (q =? QUOTE) then None else
          match scanstring s1 [] with
          | None => None
          | Some (k, s2) =>
              match skip_ws s2 with
              | col :: s3 =>
                  if negb (col =? 58) then None else
                  match skip_ws s3 with
                  | q2 :: s4 =>
                      if negb (q2 =? QUOTE) then None else
                      match scanstring s4 [] with
                      | None => None
                      | Some (v, s5) =>
                          match skip_ws s5 with
                          | c :: s6 =>
                              if c =? 125 then Some (dict_set k v acc, s6)
                              else if c =? 44 then
                                parse_pairs fuel' (skip_ws s6)
                                            (dict_set k v acc)
                              else None
                          | [] => None
                          end
                      end
                  | [] => None
                  end
              | [] => None
              end
          end
      | [] => None
      end
  end.

(** An object, from its opening brace on. *)
Definition parse_object (fuel : nat) (s : pystr) : option (record * pystr) :=
  match s with
  | c :: s1 =>
      if negb (c =? 123) then None else
      match skip_ws s1 with
      | c2 :: s2 =>
          if c2 =? 125 then Some ([], s2)
          else parse_pairs fuel (c2 :: s2) []
      | [] => None
      end
  | [] => None
  end.

(** The elements of an array, from the first character of an element. *)
Fixpoint parse_elems (fuel : nat) (s : pystr) (acc : list record)
    : option (list record * pystr) :=
  match fuel with
  | O => None
  | S fuel' =>
      match parse_object fuel' s with
      | None => None
      | Some (r, s1) =>
          match skip_ws s1 with
          | c :: s2 =>
              if c =? 93 then Some (rev (r :: acc), s2)
              else if c =? 44 then parse_elems fuel' (skip_ws s2) (r :: acc)
              else None
          | [] => None
          end
      end
  end.

(** [json.loads(s)] for an index: an array of objects whose values are
    strings.  Any other text, valid JSON or not, gives [None]. *)
Definition json_loads (s : pystr) : option (list record) :=
  match skip_ws s with
  | c :: s1 =>
      if negb (c =? 91) then None else
      match skip_ws s1 with
      | c2 :: s2 =>
          match
            (if c2 =? 93 then Some ([], s2)
             else parse_elems (S (length s)) (c2 :: s2) [])
          with
          | Some (rs, rest) =>
              match skip_ws rest with
              | [] => Some rs
              | _ :: _ => None
              end
          | None => None
          end
      | [] => None
      end
  | [] => None
  end.

(** [json.load(open(p, encoding="utf-8"))] on the bytes of a file. *)
Definition json_load_bytes (b : list byte) : option (list record) :=
  match utf8_decode b with
  | Some s => json_loads s
  | None => None
  end.

(* ===================================================================== *)
(** ** What the HTML libraries hand to the module                          *)
(* ===================================================================== *)

(** A tag as the module reads it: its [href] (or [src]) attribute when it
    has one, and its text ([get_text(strip=True)]). *)
Record Tag := mkTag { tag_attr : option pystr; tag_text : pystr }.

(** A rendered [table]: the stripped texts of [thead th] and, per
    [tbody tr], of its [td]s. *)
Record Table := mkTable { thead : list pystr; tbody : list (list pystr) }.

(** A member card of the commune roster: [h3], [p.position], [img]. *)
Record RosterCard := mkRosterCard {
  rc_h3 : option pystr;
  rc_position : option pystr;
  rc_img : option Tag
}.

(** A [div.views-row] of the parliament listing: [get_text()] and the
    first [a]. *)
Record Card := mkCard { card_text : pystr; card_a : option Tag }.

(** [tag[name]]: subscript of a tag, or of [None]. *)
Definition subscript (name : pystr) (t : option Tag) : M pystr :=
  match t with
  | None => raise TypeError
  | Some t' =>
      match tag_attr t' with
      | None => raise (KeyError name)
      | Some v => ret v
      end
  end.

(** [tag.get_text(strip=True)] of a tag, or of [None]. *)
Definition get_text (t : option pystr) : M pystr :=
  match t with
  | None => raise AttributeError
  | Some s => ret s
  end.

(** ** Instances used to run the model on concrete inputs *)

(** Character tables restricted to ASCII: letters and digits are
    alphanumeric, the digits are decimal, [A-Z] are lowered. *)
Definition ascii_isdecimal (c : N) : bool := (48 <=? c) && (c <=? 57).

Definition ascii_isalnum (c : N) : bool :=
  ascii_isdecimal c || ((65 <=? c) && (c <=? 90))
  || ((97 <=? c) && (c <=? 122)).

Definition ascii_lower_char (c : N) : N :=
  if (65 <=? c) && (c <=? 90) then c + 32 else c.

Definition ascii_lower (s : pystr) : pystr := List.map ascii_lower_char s.

(** The same tables with the Latin-1 letters and the Arabic letters and
    digits added, as the Unicode database has them. *)
Definition sample_isdecimal (c : N) : bool :=
  ascii_isdecimal c || ((0x660 <=? c) && (c <=? 0x669)).

Definition sample_isalnum (c : N) : bool :=
  ascii_isalnum c || sample_isdecimal c
  || ((0xE0 <=? c) && (c <=? 0xF6)) || ((0x620 <=? c) && (c <=? 0x64A)).

(** The UTF-8 bytes of a text. *)
Definition text_bytes (s : pystr) : list byte := default [] (utf8_encode s).

(** A server that answers every request with status 200 and the URL as
    text and as content. *)
Definition echo_get (_ : nat) (url : pystr) : Exc + Response :=
  inr (mkResponse 200 url (text_bytes url)).

(** A server whose first [k] answers are connection errors. *)
Definition flaky_get (k : nat) (n : nat) (url : pystr) : Exc + Response :=
  if (n <? k)%nat then inl (RequestException (lit "connection reset"))
  else inr (mkResponse 200 url (text_bytes url)).

(** A server that answers 503 to everything. *)
Definition down_get (_ : nat) (url : pystr) : Exc + Response :=
  inr (mkResponse 503 [] []).


(** A server that answers 304 (not modified) with an empty body. *)
Definition not_modified_get (_ : nat) (url : pystr) : Exc + Response :=
  inr (mkResponse 304 [] []).

Definition empty_fs : FS := mkFS ∅ ∅ (fun _ => false).
Definition empty_world : World := mkWorld [] empty_fs.



(** Pages for the runs: a results page with one table of two columns and
    a ragged middle row, a page with two PDF links, a listing of three
    cards of which the second names the constituency. *)
Definition sample_tables (_ : Response) : Exc + list Table :=
  inr [mkTable [lit "commune"; lit "votes"]
         [[lit "Guelmim"; lit "120"]; [lit "ragged"];
          [lit "Asrir"; lit "75"]]].

Definition two_pdf_links (_ : pystr) : list Tag :=
  [mkTag (Some (lit "/docs/a.pdf")) (lit "A");
   mkTag (Some (lit "/docs/b.pdf")) (lit "B")].

Definition three_cards (_ : pystr) : list Card :=
  [mkCard (lit "Ali - Tan-Tan") (Some (mkTag (Some (lit "/ar/mp/1")) (lit "Ali")));
   mkCard (lit "Sara - Guelmim") (Some (mkTag (Some (lit "/ar/mp/2")) (lit "Sara")));
   mkCard (lit "Omar - Sidi Ifni") (Some (mkTag (Some (lit "/ar/mp/3")) (lit "Omar")))].

Definition no_roster (_ : pystr) : list RosterCard := [].
Definition no_links (_ : pystr) : list Tag := [].
Definition no_party (_ : pystr) : option pystr := None.

(** A record with non-ASCII text, and an output root. *)
Definition sample_records : list record :=
  [[(lit "name", ulit "Laâyoune"); (lit "constituency", ulit "كلميم")];
   [(lit "name", lit "tab" ++ [9] ++ lit "quote" ++ [34])]].

Definition data_root : path := [lit "data"].

(** A roster of two members, the second without position; a roster
    whose second card has no picture. *)
Definition two_roster_cards (_ : pystr) : list RosterCard :=
  [mkRosterCard (Some (lit "Ali")) (Some (lit "President"))
     (Some (mkTag (Some (lit "/img/ali.png")) []));
   mkRosterCard (Some (lit "Sara")) None
     (Some (mkTag (Some (lit "/img/sara.png")) []))].

Definition broken_roster (_ : pystr) : list RosterCard :=
  [mkRosterCard (Some (lit "Ali")) None
     (Some (mkTag (Some (lit "/img/ali.png")) []));
   mkRosterCard (Some (lit "Sara")) None None;
   mkRosterCard (Some (lit "Omar")) None
     (Some (mkTag (Some (lit "/img/omar.png")) []))].

(** A results page without any table. *)
Definition no_tables (_ : Response) : Exc + list Table := inr [].


(* ===================================================================== *)
(** ** The module                                                          *)
(* ===================================================================== *)

Section Scrapers.

(** The network: the answer to the [n]-th GET of the run, for its URL. *)
Variable http_get : nat -> pystr -> Exc + Response.

(** The Unicode database behind [\w], [\d] and [str.lower]. *)
Variable isalnum : N -> bool.
Variable isdecimal : N -> bool.
Variable py_lower : pystr -> pystr.

(** The HTML parsers, as functions of the page. *)
Variable render_find_tables : Response -> Exc + list Table.
Variable select_roster : pystr -> list RosterCard.
Variable select_pdf_links : pystr -> list Tag.
Variable select_article_pdf_links : pystr -> list Tag.
Variable select_views_rows : pystr -> list Card.
Variable select_party : pystr -> option pystr.

(** [\w]: alphanumeric or the underscore. *)
Definition is_word (c : N) : bool := isalnum c || (c =? 95).

(** [[^\w\-]] *)
Definition not_word_or_hyphen (c : N) : bool :=
  negb (is_word c || (c =? HYPHEN)).

Definition is_hyphen (c : N) : bool := c =? HYPHEN.

(** [def slugify(text: str) -> str] *)
Definition slugify (text : pystr) : pystr :=
  let text := re_sub_plus not_word_or_hyphen [HYPHEN] (py_lower text) in
  strip HYPHEN (re_sub_plus is_hyphen [HYPHEN] text).

(** [sess.get(url, timeout=30)] *)
Definition session_get (url : pystr) : M Response :=
  fun w => (http_get (length (requests w)) url, did w [EGet url]).

(** The format string of the retry warning: an en dash (U+2013) after a
    space, and a no-break space (U+00A0) on either side of [retry]. *)
Definition RETRY_FMT : pystr :=
  lit "%s " ++ [0x2013; 0xA0] ++ lit "retry" ++ [0xA0] ++ lit "%d/3".

(** The body of [for retry in range(3)] in [safe_request], for the
    remaining values of [retry]; the [raise] after the loop ends it. *)
Fixpoint safe_request_loop (url : pystr) (retries : list nat) : M Response :=
  match retries with
  | [] =>
      raise (RuntimeError
               (lit "Failed to fetch " ++ url ++ lit " after 3 attempts"))
  | retry :: rest =>
      r <- try_except
             (resp <- session_get url ;;
              raise_for_status resp ;;;
              ret (Some resp))
             (fun err =>
                log WARNING RETRY_FMT [LExc err; LInt (Z.of_nat retry + 1)] ;;;
                sleep (3 * (N.of_nat retry + 1)) ;;;
                ret None) ;;
      match r with
      | Some resp => ret resp
      | None => safe_request_loop url rest
      end
  end.

(** [def safe_request(url, session=None, **kw)] *)
Definition safe_request (url : pystr) : M Response :=
  safe_request_loop url (seq 0 3).

(** *** [BaseScraper] *)

(** [BaseScraper._save_binary(self, content, rel_path)] *)
Definition _save_binary (output_dir : path) (content : list byte)
    (rel_path : path) : M path :=
  let file_path := path_join output_dir rel_path in
  mkdir_parents (parent file_path) ;;;
  write_bytes file_path content ;;;
  ret file_path.

(** [fh.write(chunk)] on a file opened with [encoding="utf-8"] *)
Definition fh_write (p : path) (chunk : pystr) : M unit :=
  match utf8_encode chunk with
  | Some b => append_bytes p b
  | None => raise UnicodeEncodeError
  end.

(** [json.dump(data, fh, ensure_ascii=False, indent=2)]: one [write] per
    chunk of the encoder. *)
Definition json_dump (data : list record) (p : path) : M unit :=
  for_loop (fun chunk _ => fh_write p chunk) (iterencode data) tt.

(** [BaseScraper._save_json(self, data, rel_path)] *)
Definition _save_json (output_dir : path) (data : list record)
    (rel_path : path) : M path :=
  let file_path := path_join output_dir rel_path in
  mkdir_parents (parent file_path) ;;;
  open_w file_path ;;;
  json_dump data file_path ;;;
  ret file_path.

(** *** [ElectionsScraper] *)

(** The body of [for row in tbl.find("tbody tr")]. *)
Definition elections_row (url : pystr) (headers : list pystr)
    (cells : list pystr) (results : list record) : M (list record) :=
  if negb (length cells =? length headers)%nat then ret results
  else
    let item := dict_of_pairs (combine headers cells) in
    let item := dict_set (lit "source_url") url item in
    ret (results ++ [item]).

(** The body of [for tbl in tables]. *)
Definition elections_table (url : pystr) (tbl : Table)
    (results : list record) : M (list record) :=
  let headers := thead tbl in
  for_loop (elections_row url headers) (tbody tbl) results.

Definition elections_url (year : Z) (province : pystr) : pystr :=
  lit "https://www.elections.ma/elections/communales/resultats?province="
  ++ province ++ lit "&annee=" ++ str_of_int year.

(** The message of the error for a page without table: an en dash
    (U+2013) after a space, followed by a no-break space (U+00A0). *)
Definition NO_TABLE_MSG : pystr :=
  lit "No table found " ++ [0x2013; 0xA0] ++ lit "did the site change?".

(** [r.html.render(sleep=2, timeout=60)] and [r.html.find("table")]: the
    headless browser loads the page of [url] again and waits two seconds
    for its scripts; the tables are those of the rendered page. *)
Definition html_render_find (url : pystr) (r : Response) : M (list Table) :=
  emit (ERender url 2 60) ;;;
  match render_find_tables r with
  | inl e => raise e
  | inr tables => ret tables
  end.

(** [ElectionsScraper.run(self)] *)
Definition ElectionsScraper_run (output_dir : path) (year : Z)
    (province : pystr) : M unit :=
  log INFO (lit "Fetching election results for province = %s")
      [LStr province] ;;;
  let url := elections_url year province in
  r <- session_get url ;;
  tables <- html_render_find url r ;;
      match tables with
      | [] => raise (RuntimeError NO_TABLE_MSG)
      | _ =>
          results <- for_loop (elections_table url) tables [] ;;
          _save_json output_dir results
            (Path (lit "elections_" ++ str_of_int year ++ lit "_"
                   ++ slugify province ++ lit ".json")) ;;;
          log INFO (lit "Saved %d result rows")
              [LInt (Z.of_nat (length results))]
      end.

(** *** [CommuneScraper] *)

Definition COMMUNE_BASE : pystr := lit "https://communeguelmim.ma".
Definition ROSTER_SLUG : pystr := ulit "تشكيلة-المجلس".
Definition MINUTES_SLUG : pystr := ulit "المجلس-الجماعي/ملخص-مقررات-الدورات".
Definition BUDGETS_SLUG : pystr := ulit "الميزانية-المفتوحة/ميزانية-المواطن".

(** [CommuneScraper._url(self, slug)] *)
Definition _url (slug : pystr) : pystr := COMMUNE_BASE ++ lit "/ar/" ++ slug.

(** [a["href"] if a["href"].startswith("http") else f"{BASE}{a['href']}"] *)
Definition resolve_href (a : Tag) : M pystr :=
  h <- subscript (lit "href") (Some a) ;;
  if startswith (lit "http") h then ret h else ret (COMMUNE_BASE ++ h).

(** The body of the loop of [_scrape_roster]. *)
Definition roster_card (url : pystr) (card : RosterCard)
    (members : list record) : M (list record) :=
  name <- get_text (rc_h3 card) ;;
  let position := default [] (rc_position card) in
  img_url <- subscript (lit "src") (rc_img card) ;;
  ret (members ++
       [[(lit "name", name); (lit "position", position);
         (lit "photo_url", img_url); (lit "source_url", url)]]).

(** [CommuneScraper._scrape_roster(self)] *)
Definition _scrape_roster (output_dir : path) : M unit :=
  let url := _url ROSTER_SLUG in
  resp <- safe_request url ;;
  members <- for_loop (roster_card url) (select_roster (text resp)) [] ;;
  _save_json output_dir members (Path (lit "commune/roster.json")) ;;;
  log INFO (lit "Roster: %d members") [LInt (Z.of_nat (length members))].

(** The body of the loop of [_scrape_minutes]. *)
Definition minutes_link (output_dir : path) (a : Tag) (index : list record)
    : M (list record) :=
  pdf_url <- resolve_href a ;;
  let title := tag_text a in
  resp <- safe_request pdf_url ;;
  let pdf_bytes := content resp in
  let digest := sha1 pdf_bytes in
  let rel_path :=
    path_join (Path (lit "commune/minutes")) (Path (digest ++ lit ".pdf")) in
  _save_binary output_dir pdf_bytes rel_path ;;;
  ret (index ++
       [[(lit "title", title); (lit "source_url", pdf_url);
         (lit "sha1", digest); (lit "file", path_str rel_path)]]).

(** [CommuneScraper._scrape_minutes(self)] *)
Definition _scrape_minutes (output_dir : path) : M unit :=
  let url := _url MINUTES_SLUG in
  resp <- safe_request url ;;
  let links := select_pdf_links (text resp) in
  index <- for_loop (minutes_link output_dir) links [] ;;
  _save_json output_dir index (Path (lit "commune/minutes_index.json")) ;;;
  ret tt.

(** [year_match.group(1) if year_match else "unknown"] for
    [year_match = re.search(r"(\d{4})", pdf_url)] *)
Definition budget_year (pdf_url : pystr) : pystr :=
  match re_search_4 isdecimal pdf_url with
  | Some y => y
  | None => lit "unknown"
  end.

(** The body of the loop of [CommuneScraper._scrape_budgets]. *)
Definition budgets_link (output_dir : path) (a : Tag) (idx : list record)
    : M (list record) :=
  pdf_url <- resolve_href a ;;
  let year := budget_year pdf_url in
  resp <- safe_request pdf_url ;;
  let pdf_bytes := content resp in
  let digest := sha1 pdf_bytes in
  let rel_path :=
    path_join (Path (lit "commune/budgets")) (Path (digest ++ lit ".pdf")) in
  _save_binary output_dir pdf_bytes rel_path ;;;
  ret (idx ++
       [[(lit "year", year); (lit "source_url", pdf_url);
         (lit "sha1", digest); (lit "file", path_str rel_path)]]).

(** [CommuneScraper._scrape_budgets(self)] *)
Definition _scrape_budgets (output_dir : path) : M unit :=
  let url := _url BUDGETS_SLUG in
  resp <- safe_request url ;;
  let links := select_pdf_links (text resp) in
  idx <- for_loop (budgets_link output_dir) links [] ;;
  _save_json output_dir idx (Path (lit "commune/budgets_index.json")) ;;;
  log INFO (lit "Budgets: %d") [LInt (Z.of_nat (length idx))].

(** [CommuneScraper.run(self)] *)
Definition CommuneScraper_run (output_dir : path) : M unit :=
  _scrape_roster output_dir ;;;
  _scrape_minutes output_dir ;;;
  _scrape_budgets output_dir.

(** *** [RegionScraper] *)

Definition REGION_BASE : pystr := lit "https://rgon.ma".

(** The body of the loop of [RegionScraper._scrape_sessions]. *)
Definition sessions_link (output_dir : path) (a : Tag) (idx : list record)
    : M (list record) :=
  pdf_url <- subscript (lit "href") (Some a) ;;
  let title := tag_text a in
  resp <- safe_request pdf_url ;;
  let pdf_bytes := content resp in
  let digest := sha1 pdf_bytes in
  let rel_path :=
    path_join (Path (lit "region/sessions")) (Path (digest ++ lit ".pdf")) in
  _save_binary output_dir pdf_bytes rel_path ;;;
  ret (idx ++
       [[(lit "title", title); (lit "source_url", pdf_url);
         (lit "sha1", digest); (lit "file", path_str rel_path)]]).

(** [RegionScraper._scrape_sessions(self)] *)
Definition region_scrape_sessions (output_dir : path) : M unit :=
  let url :=
    REGION_BASE ++
    lit "/category/%D8%AF%D9%88%D8%B1%D8%A7%D8%AA-%D8%A7%D9%84%D9%85%D8%AC%D9%84%D8%B3" in
  resp <- safe_request url ;;
  let links := select_article_pdf_links (text resp) in
  idx <- for_loop (sessions_link output_dir) links [] ;;
  _save_json output_dir idx (Path (lit "region/sessions_index.json")) ;;;
  log INFO (lit "Regional sessions: %d") [LInt (Z.of_nat (length idx))].

(** The body of the loop of [RegionScraper._scrape_budgets]. *)
Definition region_budgets_link (output_dir : path) (a : Tag)
    (idx : list record) : M (list record) :=
  pdf_url <- subscript (lit "href") (Some a) ;;
  resp <- safe_request pdf_url ;;
  let pdf_bytes := content resp in
  let digest := sha1 pdf_bytes in
  let rel_path :=
    path_join (Path (lit "region/budgets")) (Path (digest ++ lit ".pdf")) in
  _save_binary output_dir pdf_bytes rel_path ;;;
  ret (idx ++
       [[(lit "source_url", pdf_url); (lit "sha1", digest);
         (lit "file", path_str rel_path)]]).

(** [RegionScraper._scrape_budgets(self)] *)
Definition region_scrape_budgets (output_dir : path) : M unit :=
  let url :=
    REGION_BASE ++
    lit "/category/%D9%85%D9%8A%D8%B2%D8%A7%D9%86%D9%8A%D8%A7%D8%AA" in
  resp <- safe_request url ;;
  let links := select_article_pdf_links (text resp) in
  idx <- for_loop (region_budgets_link output_dir) links [] ;;
  _save_json output_dir idx (Path (lit "region/budgets_index.json")) ;;;
  log INFO (lit "Regional budgets: %d") [LInt (Z.of_nat (length idx))].

(** [RegionScraper.run(self)] *)
Definition RegionScraper_run (output_dir : path) : M unit :=
  region_scrape_sessions output_dir ;;;
  region_scrape_budgets output_dir.

(** *** [ParliamentScraper] *)

Definition PARLIAMENT_BASE : pystr := lit "https://www.parlement.ma".

(** The body of [for c in cards] in [ParliamentScraper.run]. *)
Definition parliament_card (constituency : pystr) (c : Card)
    (idx : list record) : M (list record) :=
  if negb (contains constituency (card_text c)) then ret idx
  else
    let link := card_a c in
    h <- subscript (lit "href") link ;;
    let profile_url := PARLIAMENT_BASE ++ h in
    name <- get_text (option_map tag_text link) ;;
    resp <- safe_request profile_url ;;
    let party := default [] (select_party (text resp)) in
    ret (idx ++
         [[(lit "name", name); (lit "party", party);
           (lit "constituency", constituency);
           (lit "profile_url", profile_url)]]).

(** [ParliamentScraper.run(self)] *)
Definition ParliamentScraper_run (output_dir : path) (constituency : pystr)
    : M unit :=
  let url := PARLIAMENT_BASE ++ lit "/ar/members" in
  resp <- safe_request url ;;
  let cards := select_views_rows (text resp) in
  idx <- for_loop (parliament_card constituency) cards [] ;;
  _save_json output_dir idx (Path (lit "parliament/members.json")) ;;;
  log INFO (lit "MP profiles saved: %d") [LInt (Z.of_nat (length idx))].

(** ** Vocabulary of the statements *)

(** One attempt of [safe_request], as the [n]-th GET of the run: the GET
    and then [raise_for_status]. *)
Definition attempt (n : nat) (url : pystr) : Exc + Response :=
  match http_get n url with
  | inl e => inl e
  | inr r =>
      if (400 <=? status_code r) && (status_code r <? 600)
      then inl (HTTPError (status_code r))
      else inr r
  end.

Definition attempt_fails (n : nat) (url : pystr) : Prop :=
  exists e, attempt n url = inl e.

(** The backoff waits after the first [k] failed attempts: 3, 6, ... *)
Definition backoff (k : nat) : list N :=
  List.map (fun i => 3 * (N.of_nat i + 1)) (seq 0 k).

(** What [safe_request] does for attempts that fail with the errors
    [errs], the first of them being attempt number [retry + 1]: for each,
    the GET, then the warning, then the wait, in this order. *)
Fixpoint failed_rounds (url : pystr) (errs : list Exc) (retry : nat)
    : list Event :=
  match errs with
  | [] => []
  | e :: rest =>
      [EGet url;
       ELog (mkLog WARNING RETRY_FMT [LExc e; LInt (Z.of_nat retry + 1)]);
       ESleep (3 * (N.of_nat retry + 1))]
      ++ failed_rounds url rest (S retry)
  end.

(** The message of the terminal error of [safe_request]. *)
Definition exhausted_msg (url : pystr) : pystr :=
  lit "Failed to fetch " ++ url ++ lit " after 3 attempts".

(** The tables of the Unicode database agree with the ASCII ones on the
    ASCII range. *)
Definition isalnum_on_ascii : Prop :=
  forall c, c < 128 -> isalnum c = ascii_isalnum c.

Definition isdecimal_on_ascii : Prop :=
  forall c, c < 128 -> isdecimal c = ascii_isdecimal c.

(** A character that [str.lower] leaves alone. *)
Definition lower_fixed (c : N) : Prop := py_lower [c] = [c].

(** Lowercasing is stable: the characters of a lowered string are left
    alone by [str.lower], a string of such characters is its own
    lowering, and the hyphen is such a character. *)
Definition lower_stable : Prop :=
  (forall s, Forall lower_fixed (py_lower s)) /\
  (forall t, Forall lower_fixed t -> py_lower t = t) /\
  lower_fixed HYPHEN.

(** No two hyphens in a row. *)
Definition no_hyphen_run (t : pystr) : Prop :=
  ~ exists a b, t = a ++ [HYPHEN; HYPHEN] ++ b.

(** Neither the first nor the last character is a hyphen. *)
Definition no_edge_hyphen (t : pystr) : Prop :=
  head t <> Some HYPHEN /\ last t <> Some HYPHEN.

(** [y] is the leftmost window of four decimal digits of [s]. *)
Definition first_digit_window (s y : pystr) : Prop :=
  exists pre post,
    s = pre ++ y ++ post /\ length y = 4%nat /\
    Forall (fun c => isdecimal c = true) y /\
    forall pre' y' post',
      s = pre' ++ y' ++ post' -> length y' = 4%nat ->
      Forall (fun c => isdecimal c = true) y' ->
      (length pre <= length pre')%nat.

(** [s] has no window of four decimal digits. *)
Definition no_digit_window (s : pystr) : Prop :=
  forall pre y post,
    s = pre ++ y ++ post -> length y = 4%nat ->
    ~ Forall (fun c => isdecimal c = true) y.

(** The URL [_scrape_budgets] downloads for a link with [href = h]. *)
Definition commune_pdf_url (h : pystr) : pystr :=
  if startswith (lit "http") h then h else COMMUNE_BASE ++ h.

(** The world with another output tree. *)
Definition with_fs (w : World) (f : FS) : World := mkWorld (trace w) f.

(** A lowercase hexadecimal digit. *)
Definition is_hex_char (c : N) : bool :=
  ((48 <=? c) && (c <=? 57)) || ((97 <=? c) && (c <=? 102)).

(** The name under which a payload is stored in the directory [dir]. *)
Definition stored_name (dir : path) (b : list byte) : path :=
  path_join dir (Path (sha1 b ++ lit ".pdf")).

(** A sub-extraction of the module: fetch the listing at [url], select
    its links with [sel], run [body] on each, write the index [index_rel]
    and finish with [tail]. *)
Definition sub_extraction (url : pystr) (sel : pystr -> list Tag)
    (body : Tag -> list record -> M (list record)) (out index_rel : path)
    (tail : list record -> M unit) : M unit :=
  resp <- safe_request url ;;
  idx <- for_loop body (sel (text resp)) [] ;;
  _save_json out idx index_rel ;;;
  tail idx.

(** The record [r] names a stored document: its [sha1] is a digest, its
    [file] the path of that digest under [dir], and the file at that
    path under the output root holds bytes with that digest. *)
Definition stored_ok (out dir : path) (f : FS) (r : record) : Prop :=
  exists b b',
    dict_get (lit "sha1") r = Some (sha1 b) /\
    dict_get (lit "file") r = Some (path_str (stored_name dir b)) /\
    files f !! path_join out (stored_name dir b) = Some b' /\
    sha1 b' = sha1 b.

(** The body of a download loop, for documents stored in [dir] under the
    output root [out]: it takes the address of the link with [geturl],
    fetches it, stores the bytes under their digest and appends the
    record [mk] makes of the link, the address and the bytes. *)
Definition download_step (out dir : path) (geturl : Tag -> M pystr)
    (mk : Tag -> pystr -> list byte -> record)
    (linked : Tag -> record -> Prop)
    (body : Tag -> list record -> M (list record)) : Prop :=
  (forall a w, snd (geturl a w) = w) /\
  (forall a u b w, fst (geturl a w) = inr u -> linked a (mk a u b)) /\
  (forall a u b, dict_get (lit "sha1") (mk a u b) = Some (sha1 b)) /\
  (forall a u b,
     dict_get (lit "file") (mk a u b) = Some (path_str (stored_name dir b))) /\
  (forall a u b, List.NoDup (dict_keys (mk a u b))) /\
  (forall a idx w,
     body a idx w =
     bind (geturl a) (fun u =>
       bind (safe_request u) (fun resp =>
         bind (_save_binary out (content resp)
                 (stored_name dir (content resp))) (fun _ =>
           ret (idx ++ [mk a u (content resp)])))) w).


(** The test of the elections loop: as many cells as headers. *)
Definition row_matches (headers cells : list pystr) : bool :=
  (length cells =? length headers)%nat.

(** The record of a kept row: [dict(zip(headers, cells))] with
    [source_url] set. *)
Definition row_item (url : pystr) (headers cells : list pystr) : record :=
  dict_set (lit "source_url") url (dict_of_pairs (combine headers cells)).

(** The records of a table: one per row that has as many cells as there
    are headers, in the order of the rows. *)
Definition table_records (url : pystr) (tbl : Table) : list record :=
  List.map (row_item url (thead tbl))
           (List.filter (row_matches (thead tbl)) (tbody tbl)).

Definition election_results (url : pystr) (tables : list Table)
    : list record :=
  flat_map (table_records url) tables.

(** The name of the elections index. *)
Definition elections_index (year : Z) (province : pystr) : path :=
  Path (lit "elections_" ++ str_of_int year ++ lit "_"
        ++ slugify province ++ lit ".json").

(** The test of the parliament loop: the card's text contains the
    constituency. *)
Definition card_matches (constituency : pystr) (c : Card) : bool :=
  contains constituency (card_text c).

(** The record of a matching card describes that card. *)
Definition record_of_card (constituency : pystr) (c : Card) (r : record)
    : Prop :=
  dict_get (lit "constituency") r = Some constituency /\
  exists link h,
    card_a c = Some link /\ tag_attr link = Some h /\
    dict_get (lit "name") r = Some (tag_text link) /\
    dict_get (lit "profile_url") r = Some (PARLIAMENT_BASE ++ h).

(** The directory [q] is there or can be made in the tree [f]: it is
    not a regular file, and it exists or the volume does not refuse it. *)
Definition can_mkdir (f : FS) (q : path) : Prop :=
  files f !! q = None /\ (q ∈ dirs f \/ refuses f q = false).

(** The file [p] can be created or overwritten in the tree [f]: every
    ancestor of [p] is there or can be made, [p] is not a directory, and
    the volume does not refuse [p]. *)
Definition writable (f : FS) (p : path) : Prop :=
  p <> [] /\
  Forall (can_mkdir f) (prefixes (parent p)) /\
  (p ∉ dirs f) /\ refuses f p = false.

(** The tree after the file [p] was written with the bytes [b]. *)
Definition fs_written (f : FS) (p : path) (b : list byte) : FS :=
  mkFS (<[p := b]> (files f))
       (list_to_set (prefixes (parent p)) ∪ dirs f) (refuses f).

(** Every string of the records is text that UTF-8 can encode. *)
Definition encodable (s : pystr) : Prop :=
  Forall (fun c => is_scalar c = true) s.

Definition record_ok (r : record) : Prop :=
  List.NoDup (dict_keys r) /\
  Forall (fun kv => encodable (fst kv) /\ encodable (snd kv)) r.

(** [str.lower] on ASCII text is the ASCII lowering. *)
Definition lower_on_ascii : Prop :=
  forall s, forallb is_ascii s = true -> py_lower s = ascii_lower s.

(** The characters [a-z], [0-9], [_] and [-]. *)
Definition is_slug_char (c : N) : bool :=
  ((97 <=? c) && (c <=? 122)) || ascii_isdecimal c || (c =? 95)
  || (c =? HYPHEN).

(** The world [ElectionsScraper.run] has reached once the results page
    was requested: one log line, then one request, nothing written. *)
Definition elections_requested (year : Z) (province : pystr) (w : World)
    : World :=
  did w [ELog (mkLog INFO
                 (lit "Fetching election results for province = %s")
                 [LStr province]);
         EGet (elections_url year province)].

(** The same world once the page was handed to the renderer. *)
Definition elections_rendered (year : Z) (province : pystr) (w : World)
    : World :=
  did (elections_requested year province w)
      [ERender (elections_url year province) 2 60].

(** [w'] differs from [w] in the output tree at most. *)
Definition net_same (w w' : World) : Prop := trace w' = trace w.

(** The index file [index_rel] of the tree [f] reads back, as UTF-8
    JSON, as the records [idx]. *)
Definition index_reads_back (f : FS) (out index_rel : path)
    (idx : list record) : Prop :=
  exists bytes,
    files f !! path_join out index_rel = Some bytes /\
    json_load_bytes bytes = Some idx.

(** A sub-extraction that ends normally has fetched its listing and
    written an index that reads back as one record per link of the
    listing, in the order of the links ([linked] relates a link to its
    record), each naming a stored document; every file other than the
    index and the documents of [dir] is as it was. *)
Definition normal_end_reads_back (scrape : M unit) (url : pystr)
    (sel : pystr -> list Tag) (linked : Tag -> record -> Prop)
    (out dir index_rel : path) : Prop :=
  forall w w',
    scrape w = (inr tt, w') ->
    exists resp w1 idx,
      safe_request url w = (inr resp, w1) /\
      Forall2 linked (sel (text resp)) idx /\
      index_reads_back (fs w') out index_rel idx /\
      Forall (stored_ok out dir (fs w')) idx /\
      (forall q,
         q <> path_join out index_rel ->
         (forall b, q <> path_join out (stored_name dir b)) ->
         files (fs w') !! q = files (fs w) !! q).

(** The link [a] and the record [r] of a commune document: the record's
    [source_url] is the resolved [href]. *)
Definition commune_linked (a : Tag) (r : record) : Prop :=
  exists h, tag_attr a = Some h /\
            dict_get (lit "source_url") r = Some (commune_pdf_url h).

(** The same for a regional document, whose [href] is used as it is. *)
Definition region_linked (a : Tag) (r : record) : Prop :=
  exists h, tag_attr a = Some h /\ dict_get (lit "source_url") r = Some h.

(** What the roster loop raises on the card [c], if anything: no [h3],
    no [img], or an [img] without [src]. *)
Definition roster_error (c : RosterCard) : option Exc :=
  match rc_h3 c with
  | None => Some AttributeError
  | Some _ =>
      match rc_img c with
      | None => Some TypeError
      | Some img =>
          match tag_attr img with
          | None => Some (KeyError (lit "src"))
          | Some _ => None
          end
      end
  end.

(** The record [r] is the roster entry of the card [c] of the page
    [url]; a card without [p.position] has the empty position. *)
Definition roster_member (url : pystr) (c : RosterCard) (r : record)
    : Prop :=
  exists name img src,
    rc_h3 c = Some name /\ rc_img c = Some img /\ tag_attr img = Some src /\
    r = [(lit "name", name);
         (lit "position", default [] (rc_position c));
         (lit "photo_url", src); (lit "source_url", url)].

(** The record [r] of a matching card also carries the party read from
    the profile page, or the empty string. *)
Definition profile_of_card (constituency : pystr) (c : Card) (r : record)
    : Prop :=
  record_of_card constituency c r /\
  exists party, dict_get (lit "party") r = Some party /\
                dict_keys r = [lit "name"; lit "party"; lit "constituency";
                               lit "profile_url"].

(** The exceptions of the network or of the page: the retries of a URL
    were exhausted, a card had no link, a link had no [href]. *)
Definition fetch_error (e : Exc) : Prop :=
  (exists u, e = RuntimeError (exhausted_msg u)) \/
  e = TypeError \/ e = KeyError (lit "href").

(* ===================================================================== *)
(** * Properties                                                           *)
(* ===================================================================== *)

(** The proofs about pure functions do not involve the environment of the
    section; [clear_env] sets it aside, so that no decision procedure
    takes one of its functions for a hypothesis. *)
Ltac clear_env :=
  try clear http_get; try clear isalnum; try clear isdecimal;
  try clear py_lower; try clear render_find_tables; try clear select_roster;
  try clear select_pdf_links; try clear select_article_pdf_links;
  try clear select_views_rows; try clear select_party.

(** ** The retrying fetch *)

Lemma gets_of_app (a b : list Event) :
  gets_of (a ++ b) = gets_of a ++ gets_of b.
Proof using Type. apply flat_map_app. Qed.

Lemma sleeps_of_app (a b : list Event) :
  sleeps_of (a ++ b) = sleeps_of a ++ sleeps_of b.
Proof using Type. apply flat_map_app. Qed.

Lemma logs_of_app (a b : list Event) :
  logs_of (a ++ b) = logs_of a ++ logs_of b.
Proof using Type. apply flat_map_app. Qed.

Lemma requests_did (w : World) (es : list Event) :
  requests (did w es) = requests w ++ gets_of es.
Proof using Type. apply gets_of_app. Qed.

Lemma sleeps_did (w : World) (es : list Event) :
  sleeps (did w es) = sleeps w ++ sleeps_of es.
Proof using Type. apply sleeps_of_app. Qed.

Lemma logs_did (w : World) (es : list Event) :
  logs (did w es) = logs w ++ logs_of es.
Proof using Type. apply logs_of_app. Qed.

Lemma did_did (w : World) (a b : list Event) :
  did (did w a) b = did w (a ++ b).
Proof using Type. unfold did. cbn [trace fs]. rewrite app_assoc. reflexivity. Qed.

(** The projections of a world after known events. *)
Ltac world_simpl :=
  cbn [fst snd];
  rewrite ?requests_did, ?sleeps_did, ?logs_did;
  cbn [failed_rounds gets_of sleeps_of logs_of flat_map app fs did trace].

(** One iteration of the retry loop. *)
Lemma safe_request_loop_step (url : pystr) (retry : nat) (rest : list nat)
    (w : World) :
  safe_request_loop url (retry :: rest) w =
  match attempt (length (requests w)) url with
  | inr r => (inr r, did w [EGet url])
  | inl e => safe_request_loop url rest (did w (failed_rounds url [e] retry))
  end.
Proof.
  unfold attempt. cbn [safe_request_loop failed_rounds].
  unfold bind, try_except, session_get, raise_for_status, log, sleep, emit,
    ret, raise.
  destruct (http_get (length (requests w)) url) as [e|r]; cbn [fst snd].
  { rewrite !did_did. reflexivity. }
  destruct ((400 <=? status_code r) && (status_code r <? 600)).
  - rewrite !did_did. reflexivity.
  - reflexivity.
Qed.

Lemma safe_request_loop_nil (url : pystr) (w : World) :
  safe_request_loop url [] w = (inl (RuntimeError (exhausted_msg url)), w).
Proof. reflexivity. Qed.

Lemma length_requests_round (url : pystr) (w : World) (e : Exc) (retry : nat) :
  length (requests (did w (failed_rounds url [e] retry)))
  = (length (requests w) + 1)%nat.
Proof using Type. rewrite requests_did, length_app. reflexivity. Qed.

(** The three possible courses of a call that does not succeed at once,
    and the one that does. *)
Lemma safe_request_first (url : pystr) (w : World) (r : Response) :
  attempt (length (requests w)) url = inr r ->
  safe_request url w = (inr r, did w [EGet url]).
Proof.
  intros H. unfold safe_request. cbn [seq].
  rewrite safe_request_loop_step, H. reflexivity.
Qed.

Lemma safe_request_second (url : pystr) (w : World) (e0 : Exc) (r : Response) :
  attempt (length (requests w)) url = inl e0 ->
  attempt (length (requests w) + 1) url = inr r ->
  safe_request url w
  = (inr r, did w (failed_rounds url [e0] 0 ++ [EGet url])).
Proof.
  intros H0 H1. unfold safe_request. cbn [seq].
  rewrite safe_request_loop_step, H0, safe_request_loop_step.
  rewrite length_requests_round, H1, did_did. reflexivity.
Qed.

Lemma safe_request_third (url : pystr) (w : World) (e0 e1 : Exc)
    (r : Response) :
  attempt (length (requests w)) url = inl e0 ->
  attempt (length (requests w) + 1) url = inl e1 ->
  attempt (length (requests w) + 2) url = inr r ->
  safe_request url w
  = (inr r, did w (failed_rounds url [e0; e1] 0 ++ [EGet url])).
Proof.
  intros H0 H1 H2. unfold safe_request. cbn [seq].
  rewrite safe_request_loop_step, H0, safe_request_loop_step.
  rewrite length_requests_round, H1, safe_request_loop_step.
  rewrite !length_requests_round.
  replace (length (requests w) + 1 + 1)%nat with (length (requests w) + 2)%nat
    by lia.
  rewrite H2, !did_did. reflexivity.
Qed.

Lemma safe_request_exhausted (url : pystr) (w : World) (e0 e1 e2 : Exc) :
  attempt (length (requests w)) url = inl e0 ->
  attempt (length (requests w) + 1) url = inl e1 ->
  attempt (length (requests w) + 2) url = inl e2 ->
  safe_request url w
  = (inl (RuntimeError (exhausted_msg url)),
     did w (failed_rounds url [e0; e1; e2] 0)).
Proof.
  intros H0 H1 H2. unfold safe_request. cbn [seq].
  rewrite safe_request_loop_step, H0, safe_request_loop_step.
  rewrite length_requests_round, H1, safe_request_loop_step.
  rewrite !length_requests_round.
  replace (length (requests w) + 1 + 1)%nat with (length (requests w) + 2)%nat
    by lia.
  rewrite H2, safe_request_loop_nil, !did_did. reflexivity.
Qed.

(** [safe_request] only talks to the network, the clock and the log. *)
Lemma safe_request_loop_fs (url : pystr) (retries : list nat) (w : World) :
  fs (snd (safe_request_loop url retries w)) = fs w.
Proof.
  revert w. induction retries as [|retry rest IH]; intros w; [reflexivity|].
  rewrite safe_request_loop_step.
  destruct (attempt (length (requests w)) url); [|reflexivity].
  rewrite IH. reflexivity.
Qed.

Lemma safe_request_fs (url : pystr) (w : World) :
  fs (snd (safe_request url w)) = fs w.
Proof. apply safe_request_loop_fs. Qed.

Lemma attempt_inr (n : nat) (url : pystr) (r : Response) :
  attempt n url = inr r <->
  http_get n url = inr r /\ ~ (400 <= status_code r < 600).
Proof.
  unfold attempt. destruct (http_get n url) as [e|r'].
  { split; [discriminate|intros [H _]; discriminate]. }
  destruct ((400 <=? status_code r') && (status_code r' <? 600)) eqn:E.
  - split; [discriminate|]. intros [H Hn]. injection H as ->.
    exfalso. apply Hn. apply andb_true_iff in E as [E1 E2].
    apply N.leb_le in E1. apply N.ltb_lt in E2. lia.
  - split.
    + intros H. injection H as ->. split; [reflexivity|]. intros [H1 H2].
      assert (E' : (400 <=? status_code r) && (status_code r <? 600) = true)
        by (apply andb_true_iff; split;
            [apply N.leb_le|apply N.ltb_lt]; lia).
      congruence.
    + intros [H _]. injection H as ->. reflexivity.
Qed.

(** C1. For every URL, [safe_request] issues between one and three GETs,
    all for that URL.  An attempt fails when the GET raises or answers
    with a status from 400 to 599 (any other status, a 304 for one, is a
    success).  When the attempts before the [k]-th fail and the [k]-th
    succeeds (k = 0, 1, 2), it returns that response, and what it did is,
    in this order: for each failed attempt its GET, a warning and the
    wait of 3 times the attempt number, and then the GET that succeeds;
    so every wait comes before the next attempt, and two failures and a
    success give the waits 3 and 6.  When the three attempts fail, it
    fails with the error whose message names the URL, after the three
    rounds of GET, warning and wait. *)
Theorem safe_request_bounded_retries (url : pystr) (w : World) :
  let n := length (requests w) in
  let out := safe_request url w in
  (exists k, (1 <= k <= 3)%nat /\
             requests (snd out) = requests w ++ repeat url k) /\
  (forall i r, attempt i url = inr r <->
               http_get i url = inr r /\ ~ (400 <= status_code r < 600)) /\
  (forall k r, (k < 3)%nat ->
     (forall i, (i < k)%nat -> attempt_fails (n + i) url) ->
     attempt (n + k) url = inr r ->
     fst out = inr r /\
     (exists errs,
        length errs = k /\
        (forall i e, errs !! i = Some e -> attempt (n + i) url = inl e) /\
        trace (snd out)
        = trace w ++ failed_rounds url errs 0 ++ [EGet url]) /\
     sleeps (snd out) = sleeps w ++ backoff k /\
     requests (snd out) = requests w ++ repeat url (S k)) /\
  ((forall i, (i < 3)%nat -> attempt_fails (n + i) url) ->
     fst out = inl (RuntimeError (exhausted_msg url)) /\
     (exists pre post, exhausted_msg url = pre ++ url ++ post) /\
     (exists errs,
        length errs = 3%nat /\
        (forall i e, errs !! i = Some e -> attempt (n + i) url = inl e) /\
        trace (snd out) = trace w ++ failed_rounds url errs 0) /\
     requests (snd out) = requests w ++ repeat url 3).
Proof.
  cbv zeta. split; [|split; [intros i r; apply attempt_inr|]].
  { destruct (attempt (length (requests w)) url) as [e0|r0] eqn:H0.
    2:{ rewrite (safe_request_first _ _ _ H0). exists 1%nat.
        split; [lia|]. world_simpl. reflexivity. }
    destruct (attempt (length (requests w) + 1) url) as [e1|r1] eqn:H1.
    2:{ rewrite (safe_request_second _ _ _ _ H0 H1). exists 2%nat.
        split; [lia|]. world_simpl. reflexivity. }
    destruct (attempt (length (requests w) + 2) url) as [e2|r2] eqn:H2.
    - rewrite (safe_request_exhausted _ _ _ _ _ H0 H1 H2). exists 3%nat.
      split; [lia|]. world_simpl. reflexivity.
    - rewrite (safe_request_third _ _ _ _ _ H0 H1 H2). exists 3%nat.
      split; [lia|]. world_simpl. reflexivity. }
  split.
  - intros k r Hk Hf Hr. destruct k as [|[|[|k]]]; [| | |lia].
    + rewrite Nat.add_0_r in Hr. rewrite (safe_request_first _ _ _ Hr).
      split; [reflexivity|]. split.
      { exists []. split; [reflexivity|]. split; [|reflexivity].
        intros i e Hi. destruct i; discriminate. }
      world_simpl. rewrite app_nil_r.
      split; [symmetry; apply app_nil_r|reflexivity].
    + destruct (Hf 0%nat ltac:(lia)) as [e0 H0]. rewrite Nat.add_0_r in H0.
      rewrite (safe_request_second _ _ _ _ H0 Hr).
      split; [reflexivity|]. split.
      { exists [e0]. split; [reflexivity|]. split; [|reflexivity].
        intros i e Hi. destruct i as [|i]; [|destruct i; discriminate].
        injection Hi as <-. rewrite Nat.add_0_r. exact H0. }
      world_simpl. auto.
    + destruct (Hf 0%nat ltac:(lia)) as [e0 H0]. rewrite Nat.add_0_r in H0.
      destruct (Hf 1%nat ltac:(lia)) as [e1 H1].
      rewrite (safe_request_third _ _ _ _ _ H0 H1 Hr).
      split; [reflexivity|]. split.
      { exists [e0; e1]. split; [reflexivity|]. split; [|reflexivity].
        intros i e Hi.
        destruct i as [|[|i]]; [| |destruct i; discriminate];
          injection Hi as <-; [rewrite Nat.add_0_r; exact H0|exact H1]. }
      world_simpl. auto.
  - intros Hf.
    destruct (Hf 0%nat ltac:(lia)) as [e0 H0]. rewrite Nat.add_0_r in H0.
    destruct (Hf 1%nat ltac:(lia)) as [e1 H1].
    destruct (Hf 2%nat ltac:(lia)) as [e2 H2].
    rewrite (safe_request_exhausted _ _ _ _ _ H0 H1 H2).
    split; [reflexivity|]. split.
    { exists (lit "Failed to fetch "), (lit " after 3 attempts").
      reflexivity. }
    split.
    { exists [e0; e1; e2]. split; [reflexivity|]. split; [|reflexivity].
      intros i e Hi.
      destruct i as [|[|[|i]]]; [| | |destruct i; discriminate];
        injection Hi as <-;
        [rewrite Nat.add_0_r; exact H0|exact H1|exact H2]. }
    world_simpl. reflexivity.
Qed.

(** C10. When the three attempts fail, [safe_request] has slept three
    times, 3, 6 and 9 time units, the last wait coming after the final
    failed attempt, and only then raises the terminal error. *)
Theorem safe_request_waits_after_last_failure (url : pystr) (w : World) :
  (forall i, (i < 3)%nat -> attempt_fails (length (requests w) + i) url) ->
  fst (safe_request url w) = inl (RuntimeError (exhausted_msg url)) /\
  sleeps (snd (safe_request url w)) = sleeps w ++ [3; 6; 9] /\
  requests (snd (safe_request url w)) = requests w ++ [url; url; url].
Proof.
  intros Hf.
  destruct (Hf 0%nat ltac:(lia)) as [e0 H0]. rewrite Nat.add_0_r in H0.
  destruct (Hf 1%nat ltac:(lia)) as [e1 H1].
  destruct (Hf 2%nat ltac:(lia)) as [e2 H2].
  rewrite (safe_request_exhausted _ _ _ _ _ H0 H1 H2). world_simpl. auto.
Qed.

(** ** Slugs *)

Lemma re_sub_runs_Forall (P : N -> Prop) (cls : N -> bool) (repl : pystr)
    (b : bool) (s : pystr) :
  Forall P repl ->
  Forall (fun c => cls c = false -> P c) s ->
  Forall P (re_sub_runs cls repl b s).
Proof.
  intros Hr Hs. revert b. induction Hs as [|c s Hc Hs IH]; intros b; cbn.
  - constructor.
  - destruct (cls c) eqn:E.
    + apply Forall_app. split; [destruct b; [constructor|exact Hr]|apply IH].
    + constructor; [auto|apply IH].
Qed.

(** A string without characters of the class is left as it is. *)
Lemma re_sub_runs_none (cls : N -> bool) (repl : pystr) (b : bool)
    (s : pystr) :
  Forall (fun c => cls c = false) s -> re_sub_runs cls repl b s = s.
Proof.
  intros Hs. revert b. induction Hs as [|c s Hc Hs IH]; intros b; cbn.
  - reflexivity.
  - rewrite Hc, IH. reflexivity.
Qed.

Lemma is_hyphen_true (c : N) : is_hyphen c = true <-> c = HYPHEN.
Proof. unfold is_hyphen. apply N.eqb_eq. Qed.

Lemma no_hyphen_run_nil : no_hyphen_run [].
Proof. intros (a & b & H). destruct a; discriminate. Qed.

Lemma no_hyphen_run_cons (c : N) (t : pystr) :
  no_hyphen_run (c :: t) <->
  no_hyphen_run t /\ ~ (c = HYPHEN /\ head t = Some HYPHEN).
Proof.
  unfold no_hyphen_run. split.
  - intros H. split.
    + intros (a & b & ->). apply H. exists (c :: a), b. reflexivity.
    + intros [-> Hh]. destruct t as [|d t]; [discriminate|].
      cbn in Hh. inversion Hh; subst. apply H. exists [], t. reflexivity.
  - intros [H1 H2] (a & b & E). destruct a as [|a0 a].
    + cbn in E. inversion E; subst. apply H2. split; reflexivity.
    + cbn in E. inversion E; subst. apply H1. exists a, b. reflexivity.
Qed.

(** Collapsing hyphens leaves no run, and after a hyphen the output does
    not start with one. *)
Lemma collapse_no_run (b : bool) (s : pystr) :
  no_hyphen_run (re_sub_runs is_hyphen [HYPHEN] b s) /\
  (b = true -> head (re_sub_runs is_hyphen [HYPHEN] b s) <> Some HYPHEN).
Proof.
  revert b. induction s as [|c s IH]; intros b; cbn.
  - split; [apply no_hyphen_run_nil|discriminate].
  - destruct (is_hyphen c) eqn:E.
    + destruct b; cbn.
      * apply IH.
      * split; [|discriminate]. apply no_hyphen_run_cons. split.
        -- apply IH.
        -- intros [_ Hh]. destruct (IH true) as [_ Hn]. apply Hn; auto.
    + split.
      * apply no_hyphen_run_cons. split; [apply IH|].
        intros [-> _]. unfold is_hyphen in E. rewrite N.eqb_refl in E.
        discriminate.
      * intros _ Hh. cbn in Hh. inversion Hh; subst.
        unfold is_hyphen in E. rewrite N.eqb_refl in E. discriminate.
Qed.

(** A string without a run of hyphens is left as it is. *)
Lemma collapse_id (s : pystr) :
  no_hyphen_run s ->
  re_sub_runs is_hyphen [HYPHEN] false s = s /\
  (head s <> Some HYPHEN -> re_sub_runs is_hyphen [HYPHEN] true s = s).
Proof.
  induction s as [|c s IH]; intros H; cbn; [auto|].
  apply no_hyphen_run_cons in H as [Hs Hc]. destruct (IH Hs) as [IH1 IH2].
  destruct (is_hyphen c) eqn:E.
  - apply is_hyphen_true in E. subst c. split.
    + cbn. rewrite IH2; [reflexivity|]. intros Hh. apply Hc. auto.
    + intros Hh. cbn in Hh. congruence.
  - rewrite IH1. auto.
Qed.

Lemma lstrip_suffix (ch : N) (s : pystr) :
  exists p, s = p ++ lstrip ch s /\ Forall (fun c => c = ch) p.
Proof.
  induction s as [|c s IH]; cbn.
  - exists []. split; [reflexivity|constructor].
  - destruct (N.eqb_spec c ch) as [->|Hne].
    + destruct IH as (p & Hp & Hf). exists (ch :: p). split.
      * cbn. congruence.
      * constructor; auto.
    + exists []. split; [reflexivity|constructor].
Qed.

Lemma lstrip_head (ch : N) (s : pystr) : head (lstrip ch s) <> Some ch.
Proof.
  induction s as [|c s IH]; cbn; [discriminate|].
  destruct (N.eqb_spec c ch) as [->|Hne]; [exact IH|].
  cbn. congruence.
Qed.

Lemma lstrip_id (ch : N) (s : pystr) :
  head s <> Some ch -> lstrip ch s = s.
Proof.
  destruct s as [|c s]; cbn; [reflexivity|]. intros H.
  destruct (N.eqb_spec c ch) as [->|Hne]; [congruence|reflexivity].
Qed.

Lemma rstrip_prefix (ch : N) (s : pystr) :
  exists q, s = rstrip ch s ++ q /\ Forall (fun c => c = ch) q.
Proof.
  unfold rstrip. destruct (lstrip_suffix ch (rev s)) as (p & Hp & Hf).
  exists (rev p). split.
  - rewrite <- rev_app_distr, <- Hp, rev_involutive. reflexivity.
  - apply List.Forall_forall. intros x Hx. apply in_rev in Hx.
    rewrite List.Forall_forall in Hf. auto.
Qed.

Lemma last_rev_head {A} (l : list A) : last (rev l) = head l.
Proof.
  destruct l as [|a l]; [reflexivity|]. cbn. apply last_snoc.
Qed.

Lemma head_rev_last {A} (l : list A) : head (rev l) = last l.
Proof. rewrite <- (rev_involutive l) at 2. symmetry. apply last_rev_head. Qed.

Lemma rstrip_last (ch : N) (s : pystr) : last (rstrip ch s) <> Some ch.
Proof. unfold rstrip. rewrite last_rev_head. apply lstrip_head. Qed.

Lemma rstrip_id (ch : N) (s : pystr) :
  last s <> Some ch -> rstrip ch s = s.
Proof.
  intros H. unfold rstrip. rewrite lstrip_id; [apply rev_involutive|].
  rewrite head_rev_last. exact H.
Qed.

Lemma rstrip_head (ch : N) (s : pystr) :
  head s <> Some ch -> head (rstrip ch s) <> Some ch.
Proof.
  intros H. destruct (rstrip_prefix ch s) as (q & Hq & Hf).
  destruct (rstrip ch s) as [|c r] eqn:E; [discriminate|].
  rewrite Hq in H. exact H.
Qed.

(** [strip] keeps a block of the string: what it drops are hyphens at
    both ends. *)
Lemma strip_infix (ch : N) (s : pystr) :
  exists p q, s = p ++ strip ch s ++ q.
Proof.
  unfold strip. destruct (lstrip_suffix ch s) as (p & Hp & _).
  destruct (rstrip_prefix ch (lstrip ch s)) as (q & Hq & _).
  exists p, q. rewrite <- Hq. exact Hp.
Qed.

Lemma strip_no_edge (s : pystr) : no_edge_hyphen (strip HYPHEN s).
Proof.
  unfold strip, no_edge_hyphen. split.
  - apply rstrip_head, lstrip_head.
  - apply rstrip_last.
Qed.

Lemma strip_id (s : pystr) : no_edge_hyphen s -> strip HYPHEN s = s.
Proof.
  intros [Hh Hl]. unfold strip. rewrite lstrip_id by exact Hh.
  apply rstrip_id. exact Hl.
Qed.

Lemma strip_Forall (P : N -> Prop) (ch : N) (s : pystr) :
  Forall P s -> Forall P (strip ch s).
Proof.
  intros H. destruct (strip_infix ch s) as (p & q & E). rewrite E in H.
  apply Forall_app in H as [_ H]. apply Forall_app in H as [H _]. exact H.
Qed.

Lemma strip_no_run (ch : N) (s : pystr) :
  no_hyphen_run s -> no_hyphen_run (strip ch s).
Proof.
  intros H (a & b & E). destruct (strip_infix ch s) as (p & q & Es).
  apply H. exists (p ++ a), (b ++ q). rewrite Es, E.
  rewrite <- !app_assoc. reflexivity.
Qed.

(** The shape of every slug: only word characters and hyphens, no run
    of hyphens, no hyphen at either end. *)
Lemma slugify_shape (s : pystr) :
  Forall (fun c => not_word_or_hyphen c = false) (slugify s) /\
  no_hyphen_run (slugify s) /\
  no_edge_hyphen (slugify s).
Proof.
  unfold slugify, re_sub_plus. split; [|split].
  - apply strip_Forall. apply re_sub_runs_Forall.
    + constructor; [|constructor]. unfold not_word_or_hyphen.
      rewrite N.eqb_refl, orb_true_r. reflexivity.
    + apply List.Forall_forall. intros c Hc _.
      assert (H : Forall (fun c => not_word_or_hyphen c = false)
                    (re_sub_runs not_word_or_hyphen [HYPHEN] false
                       (py_lower s))).
      { apply re_sub_runs_Forall.
        - constructor; [|constructor]. unfold not_word_or_hyphen.
          rewrite N.eqb_refl, orb_true_r. reflexivity.
        - apply List.Forall_forall. auto. }
      rewrite List.Forall_forall in H. apply H. exact Hc.
  - apply strip_no_run. apply collapse_no_run.
  - apply strip_no_edge.
Qed.

(** The characters of a slug come from the lowered text, or are
    hyphens. *)
Lemma slugify_chars (P : N -> Prop) (s : pystr) :
  P HYPHEN -> Forall P (py_lower s) -> Forall P (slugify s).
Proof.
  intros Hh Hs. unfold slugify, re_sub_plus.
  apply strip_Forall. apply re_sub_runs_Forall.
  - constructor; [exact Hh|constructor].
  - apply List.Forall_forall. intros c Hc _. revert c Hc. apply List.Forall_forall.
    apply re_sub_runs_Forall.
    + constructor; [exact Hh|constructor].
    + apply List.Forall_forall. intros c Hc _. revert c Hc.
      apply List.Forall_forall. exact Hs.
Qed.

(** C9. [slugify] is idempotent, given that the lowercasing of the
    Unicode database is stable (a lowered string lowers to itself). *)
Theorem slugify_idempotent (s : pystr) :
  lower_stable -> slugify (slugify s) = slugify s.
Proof.
  intros (H1 & H2 & H3).
  destruct (slugify_shape s) as (Hw & Hr & He).
  assert (Hf : Forall lower_fixed (slugify s))
    by (apply slugify_chars; [exact H3|apply H1]).
  unfold slugify at 1. rewrite (H2 _ Hf).
  unfold re_sub_plus. rewrite (re_sub_runs_none _ _ _ _ Hw).
  destruct (collapse_id _ Hr) as [-> _].
  apply strip_id. exact He.
Qed.

(** C8. [slugify] keeps the non-ASCII word characters of its input: the
    province name [Laâyoune] gives the slug [laâyoune], which is not
    ASCII-only (the docstring promises ASCII only). *)
Theorem slugify_keeps_non_ascii_letters :
  isalnum_on_ascii ->
  isalnum 0xE2 = true ->
  py_lower (ulit "Laâyoune") = ulit "laâyoune" ->
  slugify (ulit "Laâyoune") = ulit "laâyoune" /\
  forallb is_ascii (slugify (ulit "Laâyoune")) = false.
Proof.
  intros Ha He Hl.
  assert (E : slugify (ulit "Laâyoune") = ulit "laâyoune").
  { unfold slugify. rewrite Hl.
    assert (Hw : Forall (fun c => not_word_or_hyphen c = false)
                   (ulit "laâyoune")).
    { change (ulit "laâyoune") with [108; 97; 226; 121; 111; 117; 110; 101].
      unfold not_word_or_hyphen, is_word.
      repeat constructor;
        first [ rewrite He; reflexivity
              | rewrite Ha by (apply N.ltb_lt; reflexivity); reflexivity ]. }
    unfold re_sub_plus. rewrite (re_sub_runs_none _ _ _ _ Hw).
    reflexivity. }
  rewrite E. split; reflexivity.
Qed.

(** ** The year of a budget document *)

Lemma re_search_4_short (cls : N -> bool) (s : pystr) :
  (length s < 4)%nat -> re_search_4 cls s = None.
Proof.
  destruct s as [|a [|b [|c [|d r]]]]; cbn; intros H; try reflexivity. lia.
Qed.

Lemma re_search_4_first (s : pystr) :
  match re_search_4 isdecimal s with
  | Some y => first_digit_window s y
  | None => no_digit_window s
  end.
Proof.
  induction s as [|a s IH].
  - cbn. intros pre y post E Hl _. apply (f_equal (@length N)) in E.
    rewrite !length_app in E. cbn in E. lia.
  - cbn [re_search_4]. destruct s as [|b [|c [|d r]]].
    1-3: intros pre y post E Hl _; apply (f_equal (@length N)) in E;
         rewrite !length_app in E; cbn in E; lia.
    destruct (isdecimal a && isdecimal b && isdecimal c && isdecimal d)
      eqn:Hd.
    + apply andb_prop in Hd as [Hd H4]. apply andb_prop in Hd as [Hd H3].
      apply andb_prop in Hd as [H1 H2].
      exists [], r. repeat split; auto; cbn; lia.
    + destruct (re_search_4 isdecimal (b :: c :: d :: r)) as [y|] eqn:Hs.
      * destruct IH as (pre & post & E & Hl & Hy & Hmin).
        exists (a :: pre), post. split; [cbn; congruence|].
        split; [exact Hl|]. split; [exact Hy|].
        intros pre' y' post' E' Hl' Hy'. destruct pre' as [|a' pre'].
        -- exfalso. destruct y' as [|y1 [|y2 [|y3 [|y4 [|]]]]];
             try discriminate.
           cbn in E'. inversion E'; subst.
           inversion Hy' as [|? ? P1 Q1]; subst.
           inversion Q1 as [|? ? P2 Q2]; subst.
           inversion Q2 as [|? ? P3 Q3]; subst.
           inversion Q3 as [|? ? P4 Q4]; subst.
           rewrite P1, P2, P3, P4 in Hd. discriminate.
        -- cbn in E'. inversion E'; subst. cbn.
           specialize (Hmin pre' y' post' H1 Hl' Hy'). lia.
      * intros pre y post E Hl Hy. destruct pre as [|a' pre].
        -- destruct y as [|y1 [|y2 [|y3 [|y4 [|]]]]]; try discriminate.
           cbn in E. inversion E; subst.
           inversion Hy as [|? ? P1 Q1]; subst.
           inversion Q1 as [|? ? P2 Q2]; subst.
           inversion Q2 as [|? ? P3 Q3]; subst.
           inversion Q3 as [|? ? P4 Q4]; subst.
           rewrite P1, P2, P3, P4 in Hd. discriminate.
        -- cbn in E. inversion E; subst. exact (IH pre y post H1 Hl Hy).
Qed.

(** ** The effect monad *)

Lemma bind_inr {A B} (c : M A) (k : A -> M B) (w w' : World) (b : B) :
  bind c k w = (inr b, w') ->
  exists a w1, c w = (inr a, w1) /\ k a w1 = (inr b, w').
Proof.
  unfold bind. destruct (c w) as [[e|a] w1]; intros H.
  - discriminate.
  - exists a, w1. auto.
Qed.

Lemma bind_ok {A B} (c : M A) (k : A -> M B) (w w1 : World) (a : A) :
  c w = (inr a, w1) -> bind c k w = k a w1.
Proof. unfold bind. intros ->. reflexivity. Qed.

Lemma bind_err {A B} (c : M A) (k : A -> M B) (w w1 : World) (e : Exc) :
  c w = (inl e, w1) -> bind c k w = (inl e, w1).
Proof. unfold bind. intros ->. reflexivity. Qed.

Lemma for_loop_app {X S} (body : X -> S -> M S) (xs ys : list X) (acc : S)
    (w : World) :
  for_loop body (xs ++ ys) acc w =
  bind (for_loop body xs acc) (for_loop body ys) w.
Proof.
  revert acc w. induction xs as [|x xs IH]; intros acc w.
  - reflexivity.
  - cbn [for_loop app]. unfold bind in *.
    destruct (body x acc w) as [[e|acc1] w1]; [reflexivity|apply IH].
Qed.

(** A loop whose body appends to the accumulator: when the loop ends
    normally, the accumulator has grown by what each element added, in
    the order of the elements. *)
Lemma for_loop_success {X R} (body : X -> list R -> M (list R))
    (Q : X -> list R -> Prop) :
  (forall x acc w acc' w',
     body x acc w = (inr acc', w') -> exists l, acc' = acc ++ l /\ Q x l) ->
  forall xs acc w acc' w',
    for_loop body xs acc w = (inr acc', w') ->
    exists ls, acc' = acc ++ concat ls /\ Forall2 Q xs ls.
Proof.
  intros Hb xs. induction xs as [|x xs IH]; intros acc w acc' w' H.
  - cbn in H. inversion H; subst. exists []. cbn. rewrite app_nil_r.
    split; [reflexivity|constructor].
  - cbn in H. apply bind_inr in H as (acc1 & w1 & H1 & H2).
    apply Hb in H1 as (l & -> & Hq).
    apply IH in H2 as (ls & -> & Hls).
    exists (l :: ls). cbn. rewrite app_assoc. split; [reflexivity|].
    constructor; assumption.
Qed.

Lemma resolve_href_some (a : Tag) (h : pystr) (w : World) :
  tag_attr a = Some h -> resolve_href a w = (inr (commune_pdf_url h), w).
Proof.
  intros H. unfold resolve_href, subscript, commune_pdf_url, bind.
  rewrite H. unfold ret. cbv beta iota.
  destruct (startswith (lit "http") h); reflexivity.
Qed.

Lemma resolve_href_none (a : Tag) (w : World) :
  tag_attr a = None -> resolve_href a w = (inl (KeyError (lit "href")), w).
Proof.
  intros H. unfold resolve_href, subscript, bind. rewrite H. reflexivity.
Qed.

(** What one iteration of the budgets loop appends when it succeeds. *)
Lemma budgets_link_success (out : path) (a : Tag) (idx idx' : list record)
    (w w' : World) :
  budgets_link out a idx w = (inr idx', w') ->
  exists h r,
    tag_attr a = Some h /\ idx' = idx ++ [r] /\
    dict_get (lit "year") r = Some (budget_year (commune_pdf_url h)) /\
    dict_get (lit "source_url") r = Some (commune_pdf_url h).
Proof.
  intros H. unfold budgets_link in H.
  destruct (tag_attr a) as [h|] eqn:Ha.
  2:{ rewrite (bind_err _ _ _ _ _ (resolve_href_none _ _ Ha)) in H.
      discriminate. }
  rewrite (bind_ok _ _ _ _ _ (resolve_href_some _ _ _ Ha)) in H.
  apply bind_inr in H as (resp & w1 & _ & H).
  apply bind_inr in H as (p & w2 & _ & H).
  inversion H; subst. exists h. eexists. repeat split; reflexivity.
Qed.

(** C5. Every record the commune budgets loop appends has as [year] the
    value computed from the URL it downloads; that value is the leftmost
    window of four decimal digits of the URL when there is one, and the
    literal [unknown] when the URL has no such window; the link
    [/ar/budget-2019-final.pdf] gives [2019]. *)
Theorem budgets_year_field (out : path) :
  (forall links idx0 idx w w',
     for_loop (budgets_link out) links idx0 w = (inr idx, w') ->
     exists new,
       idx = idx0 ++ new /\
       Forall2
         (fun a r =>
            exists h, tag_attr a = Some h /\
              dict_get (lit "source_url") r = Some (commune_pdf_url h) /\
              dict_get (lit "year") r
              = Some (budget_year (commune_pdf_url h)))
         links new) /\
  (forall url,
     (exists y, first_digit_window url y /\ budget_year url = y) \/
     (no_digit_window url /\ budget_year url = lit "unknown")) /\
  (isdecimal_on_ascii ->
   commune_pdf_url (lit "/ar/budget-2019-final.pdf")
   = COMMUNE_BASE ++ lit "/ar/budget-2019-final.pdf" /\
   budget_year (commune_pdf_url (lit "/ar/budget-2019-final.pdf"))
   = lit "2019").
Proof.
  split; [|split].
  - intros links idx0 idx w w' H.
    apply (for_loop_success (budgets_link out)
             (fun a l => exists r, l = [r] /\
                exists h, tag_attr a = Some h /\
                  dict_get (lit "source_url") r = Some (commune_pdf_url h) /\
                  dict_get (lit "year") r
                  = Some (budget_year (commune_pdf_url h)))) in H.
    + destruct H as (ls & -> & Hls). exists (concat ls).
      split; [reflexivity|].
      clear -Hls. induction Hls as [|a l links ls (r & -> & Hr) _ IH]; cbn.
      * constructor.
      * constructor; assumption.
    + intros a acc w0 acc' w0' Hb.
      apply budgets_link_success in Hb as (h & r & Ha & -> & Hy & Hu).
      exists [r]. split; [reflexivity|]. exists r. split; [reflexivity|].
      exists h. auto.
  - intros url. unfold budget_year.
    pose proof (re_search_4_first url) as H.
    destruct (re_search_4 isdecimal url) as [y|].
    + left. exists y. auto.
    + right. auto.
  - intros Hd. split; [reflexivity|].
    unfold budget_year.
    change (commune_pdf_url (lit "/ar/budget-2019-final.pdf"))
      with (lit "https://communeguelmim.ma/ar/budget-2019-final.pdf").
    assert (E : forall s,
               forallb is_ascii s = true ->
               re_search_4 isdecimal s = re_search_4 ascii_isdecimal s).
    { induction s as [|a s IH]; [reflexivity|].
      intros Hs. cbn in Hs. apply andb_prop in Hs as [Ha Hs].
      cbn [re_search_4]. destruct s as [|b [|c [|d r]]]; try reflexivity.
      rewrite (IH Hs). cbn in Hs.
      apply andb_prop in Hs as [Hb Hs]. apply andb_prop in Hs as [Hc Hs].
      apply andb_prop in Hs as [Hd' Hs].
      unfold is_ascii in *. apply N.ltb_lt in Ha, Hb, Hc, Hd'.
      rewrite !Hd by assumption. reflexivity. }
    rewrite E by reflexivity. reflexivity.
Qed.

(** ** The output tree *)

Lemma mkdir_prefixes_inr (ps : list path) (f f' : FS) :
  mkdir_prefixes ps f = inr f' ->
  Forall (can_mkdir f) ps /\
  f' = mkFS (files f) (list_to_set ps ∪ dirs f) (refuses f).
Proof.
  revert f. induction ps as [|p ps IH]; intros f H; cbn in H.
  - injection H as <-. split; [constructor|]. destruct f as [fl ds rf]. cbn.
    f_equal. set_solver.
  - destruct (files f !! p) eqn:E; [discriminate|].
    destruct (mkdir_refused f p) eqn:R; [discriminate|].
    assert (Hp : can_mkdir f p).
    { split; [exact E|]. unfold mkdir_refused in R.
      destruct (decide (p ∈ dirs f)) as [Hin|Hin]; [left; exact Hin|].
      rewrite bool_decide_eq_false_2 in R by exact Hin. right. exact R. }
    apply IH in H as [Hf ->]. cbn in *. split.
    + constructor; [exact Hp|].
      eapply List.Forall_impl; [|exact Hf]. intros q [Hq1 Hq2].
      split; [exact Hq1|]. cbn in Hq2. destruct Hq2 as [Hq2|Hq2]; [|auto].
      apply elem_of_union in Hq2 as [Hq2|Hq2]; [|auto].
      apply elem_of_singleton in Hq2. subst q. apply Hp.
    + f_equal. set_solver.
Qed.

Lemma mkdir_prefixes_ok (ps : list path) (f : FS) :
  Forall (can_mkdir f) ps ->
  mkdir_prefixes ps f
  = inr (mkFS (files f) (list_to_set ps ∪ dirs f) (refuses f)).
Proof.
  revert f. induction ps as [|p ps IH]; intros f H; cbn.
  - destruct f as [fl ds rf]. cbn. do 2 f_equal. set_solver.
  - inversion H as [|? ? [Hp Hr] Hps]; subst. rewrite Hp.
    assert (R : mkdir_refused f p = false).
    { unfold mkdir_refused. destruct Hr as [Hr|Hr].
      - rewrite bool_decide_eq_true_2 by exact Hr. reflexivity.
      - rewrite Hr. apply andb_false_r. }
    rewrite R. rewrite IH.
    + cbn. do 2 f_equal. set_solver.
    + eapply List.Forall_impl; [|exact Hps]. intros q [Hq1 Hq2].
      split; [exact Hq1|]. cbn. destruct Hq2 as [Hq2|Hq2]; [|auto].
      left. set_solver.
Qed.

(** A failure of [mkdir] is an [OSError] on one of the directories; it
    changes no file. *)
Lemma mkdir_prefixes_inl (ps : list path) (f f' : FS) (e : Exc) :
  mkdir_prefixes ps f = inl (e, f') ->
  files f' = files f /\ refuses f' = refuses f /\
  exists q, e = OSError q /\ In q ps /\ ~ can_mkdir f' q /\
            (is_Some (files f !! q) \/ refuses f q = true).
Proof.
  revert f. induction ps as [|p ps IH]; intros f H; cbn in H.
  - discriminate.
  - destruct (files f !! p) eqn:E.
    { injection H as <- <-. split; [reflexivity|]. split; [reflexivity|].
      exists p. split; [reflexivity|]. split; [left; reflexivity|].
      split; [|left; eauto]. intros [Hn _]. congruence. }
    destruct (mkdir_refused f p) eqn:R.
    { injection H as <- <-. split; [reflexivity|]. split; [reflexivity|].
      exists p. split; [reflexivity|]. split; [left; reflexivity|].
      unfold mkdir_refused in R. apply andb_true_iff in R as [R1 R2].
      apply negb_true_iff, bool_decide_eq_false in R1.
      split; [|right; exact R2]. intros [_ [Hd|Hd]]; congruence. }
    apply IH in H as (Hf & Hr & q & -> & Hq & Hn & Hw). cbn in *.
    split; [exact Hf|]. split; [exact Hr|].
    exists q. split; [reflexivity|]. split; [right; exact Hq|].
    split; [exact Hn|exact Hw].
Qed.

Lemma mkdir_parents_run (p : path) (w : World) :
  mkdir_parents p w =
  match mkdir_prefixes (prefixes p) (fs w) with
  | inl (e, f') => (inl e, with_fs w f')
  | inr f' => (inr tt, with_fs w f')
  end.
Proof.
  unfold mkdir_parents, bind, get_fs.
  destruct (mkdir_prefixes (prefixes p) (fs w)) as [[e f']|f'];
    reflexivity.
Qed.

Lemma write_bytes_run (p : path) (b : list byte) (w : World) :
  write_bytes p b w =
  if open_refused (fs w) p then (inl (OSError p), w)
  else (inr tt,
        with_fs w (mkFS (<[p := b]> (files (fs w))) (dirs (fs w))
                        (refuses (fs w)))).
Proof.
  unfold write_bytes, open_w, append_bytes, bind, get_fs, put_fs, raise.
  cbn. destruct (open_refused (fs w) p); [reflexivity|]. cbn.
  unfold with_fs. rewrite lookup_insert_eq, insert_insert_eq. reflexivity.
Qed.

(** Every course of [_save_binary]. *)
Lemma _save_binary_run (out : path) (b : list byte) (rel : path) (w : World) :
  _save_binary out b rel w =
  let p := path_join out rel in
  match mkdir_prefixes (prefixes (parent p)) (fs w) with
  | inl (e, f1) => (inl e, with_fs w f1)
  | inr f1 =>
      if open_refused f1 p then (inl (OSError p), with_fs w f1)
      else (inr p,
            with_fs w (mkFS (<[p := b]> (files f1)) (dirs f1) (refuses f1)))
  end.
Proof.
  unfold _save_binary. cbv zeta. unfold bind at 1.
  rewrite mkdir_parents_run.
  destruct (mkdir_prefixes _ (fs w)) as [[e f1]|f1]; [reflexivity|].
  unfold bind. rewrite write_bytes_run. cbn [fs with_fs].
  destruct (open_refused f1 (path_join out rel)); reflexivity.
Qed.

Lemma prefixes_from_length (base p q : path) :
  In q (prefixes_from base p) -> (length q <= length base + length p)%nat.
Proof.
  revert base. induction p as [|c p IH]; intros base H; cbn in H.
  - contradiction.
  - destruct H as [<-|H].
    + rewrite length_app. cbn. lia.
    + apply IH in H. rewrite length_app in H. cbn in *. lia.
Qed.

(** A path is not among the ancestors created for its parent. *)
Lemma not_in_prefixes_parent (p : path) :
  p <> [] -> ~ In p (prefixes (parent p)).
Proof.
  intros Hne H. apply prefixes_from_length in H. cbn in H.
  unfold parent in H. destruct (exists_last Hne) as (q & c & ->).
  rewrite removelast_last, length_app in H. cbn in H. lia.
Qed.

(** The digest is forty lowercase hexadecimal digits. *)
Lemma hex_digit_hex (n : N) : n < 16 -> is_hex_char (hex_digit n) = true.
Proof.
  intros H. unfold hex_digit, is_hex_char.
  destruct (N.ltb_spec n 10).
  - apply orb_true_iff. left. apply andb_true_iff.
    split; apply N.leb_le; lia.
  - apply orb_true_iff. right. apply andb_true_iff.
    split; apply N.leb_le; lia.
Qed.

Lemma hex32_hex (x : N) :
  length (hex32 x) = 8%nat /\ forallb is_hex_char (hex32 x) = true.
Proof.
  split; [reflexivity|]. unfold hex32. cbn [List.map forallb].
  assert (H : forall y, N.land y 0xF < 16).
  { intros y. change 0xF with (N.ones 4). rewrite N.land_ones.
    apply N.mod_lt. discriminate. }
  rewrite !hex_digit_hex by apply H. reflexivity.
Qed.

Lemma sha1_hex (b : list byte) :
  length (sha1 b) = 40%nat /\ forallb is_hex_char (sha1 b) = true.
Proof.
  unfold sha1. cbv zeta. split.
  - rewrite !length_app. repeat rewrite (proj1 (hex32_hex _)). reflexivity.
  - rewrite !forallb_app. repeat rewrite (proj2 (hex32_hex _)). reflexivity.
Qed.

Lemma split_slash_no_slash (cur s : pystr) :
  forallb (fun c => negb (c =? SLASH)) s = true ->
  split_slash cur s = [rev cur ++ s].
Proof.
  revert cur. induction s as [|c s IH]; intros cur H; cbn.
  - rewrite app_nil_r. reflexivity.
  - cbn in H. apply andb_prop in H as [Hc Hs].
    apply negb_true_iff in Hc. rewrite Hc, IH by exact Hs.
    cbn. rewrite <- app_assoc. reflexivity.
Qed.

(** The file name of a stored document is a single path component. *)
Lemma Path_digest_name (b : list byte) :
  Path (sha1 b ++ lit ".pdf") = [sha1 b ++ lit ".pdf"].
Proof.
  unfold Path. rewrite split_slash_no_slash.
  - cbn [rev app List.filter]. destruct (sha1_hex b) as [Hl _].
    destruct (sha1 b); [discriminate|]. reflexivity.
  - rewrite forallb_app. apply andb_true_iff. split; [|reflexivity].
    destruct (sha1_hex b) as [_ Hh]. rewrite forallb_forall in *.
    intros c Hc. specialize (Hh c Hc). unfold is_hex_char in Hh.
    apply negb_true_iff. apply N.eqb_neq. unfold SLASH. intros ->.
    discriminate.
Qed.

Lemma stored_name_length (dir : path) (b : list byte) :
  length (stored_name dir b) = S (length dir).
Proof.
  unfold stored_name, path_join. rewrite Path_digest_name, length_app.
  cbn. lia.
Qed.

(** Storing again what was just stored changes nothing. *)
Lemma _save_binary_again (out : path) (b : list byte) (rel : path)
    (w w1 : World) (p : path) :
  path_join out rel <> [] ->
  _save_binary out b rel w = (inr p, w1) ->
  _save_binary out b rel w1 = (inr p, w1) /\
  files (fs w1) !! p = Some b.
Proof.
  intros Hne H. rewrite _save_binary_run in H. cbv zeta in H.
  destruct (mkdir_prefixes _ (fs w)) as [[e f1]|f1] eqn:Hm; [discriminate|].
  destruct (open_refused f1 (path_join out rel)) eqn:Hd; [discriminate|].
  inversion H; subst p w1. clear H.
  apply mkdir_prefixes_inr in Hm as [Hf ->]. cbn [files dirs refuses] in *.
  split; [|cbn; apply lookup_insert_eq].
  rewrite _save_binary_run. cbv zeta. cbn [fs with_fs files dirs refuses].
  rewrite mkdir_prefixes_ok.
  - cbn [files dirs refuses]. unfold open_refused in *.
    cbn [files dirs refuses] in *.
    replace (list_to_set (prefixes (parent (path_join out rel)))
             ∪ (list_to_set (prefixes (parent (path_join out rel)))
                ∪ dirs (fs w)))
      with (list_to_set (prefixes (parent (path_join out rel)))
            ∪ dirs (fs w) : gset (list (list N))) by set_solver.
    rewrite Hd. unfold with_fs. cbn. rewrite insert_insert_eq. reflexivity.
  - apply List.Forall_forall. intros q Hq. split.
    + cbn [files]. rewrite lookup_insert_ne.
      * rewrite List.Forall_forall in Hf. apply Hf, Hq.
      * intros <-. apply (not_in_prefixes_parent _ Hne). exact Hq.
    + left. cbn [dirs]. apply elem_of_union_l, elem_of_list_to_set.
      apply list_elem_of_In. exact Hq.
Qed.

(** C4. The digest depends on the bytes alone (equal payloads give the
    same forty hexadecimal digits), and storing a payload a second time
    under its content-addressed name returns the same path and leaves
    the output tree exactly as the first store left it. *)
Theorem content_addressed_store_idempotent (out dir : path)
    (b1 b2 : list byte) (w w1 : World) (p : path) :
  b1 = b2 ->
  sha1 b1 = sha1 b2 /\
  length (sha1 b1) = 40%nat /\ forallb is_hex_char (sha1 b1) = true /\
  (_save_binary out b1 (stored_name dir b1) w = (inr p, w1) ->
   _save_binary out b2 (stored_name dir b2) w1 = (inr p, w1) /\
   files (fs w1) !! p = Some b1 /\
   p = path_join out (stored_name dir b1)).
Proof.
  intros <-. split; [reflexivity|].
  destruct (sha1_hex b1) as [Hl Hh]. split; [exact Hl|]. split; [exact Hh|].
  intros H.
  assert (Hne : path_join out (stored_name dir b1) <> []).
  { intros E. apply (f_equal (@length _)) in E. unfold path_join in E.
    rewrite length_app, stored_name_length in E. cbn in E. lia. }
  destruct (_save_binary_again _ _ _ _ _ _ Hne H) as [H2 H3].
  split; [exact H2|]. split; [exact H3|].
  rewrite _save_binary_run in H. cbv zeta in H.
  destruct (mkdir_prefixes _ (fs w)) as [[e f1]|f1]; [discriminate|].
  destruct (open_refused _ _); [discriminate|]. inversion H. reflexivity.
Qed.




Lemma subscript_world (name : pystr) (t : option Tag) (w : World) :
  snd (subscript name t w) = w.
Proof.
  unfold subscript. destruct t as [t|]; [|reflexivity].
  destruct (tag_attr t); reflexivity.
Qed.

Lemma resolve_href_world (a : Tag) (w : World) :
  snd (resolve_href a w) = w.
Proof.
  destruct (tag_attr a) as [h|] eqn:E.
  - rewrite (resolve_href_some _ _ _ E). reflexivity.
  - rewrite (resolve_href_none _ _ E). reflexivity.
Qed.









(** ** Dictionaries *)

Lemma str_eqb_eq (a b : pystr) : str_eqb a b = true <-> a = b.
Proof. unfold str_eqb. apply bool_decide_eq_true. Qed.

Lemma str_eqb_refl (a : pystr) : str_eqb a a = true.
Proof. apply str_eqb_eq. reflexivity. Qed.

Lemma str_eqb_neq (a b : pystr) : a <> b -> str_eqb a b = false.
Proof. unfold str_eqb. apply bool_decide_eq_false. Qed.

Lemma dict_get_set_eq (k v : pystr) (d : record) :
  dict_get k (dict_set k v d) = Some v.
Proof.
  induction d as [|[k' v'] d IH]; cbn.
  - rewrite str_eqb_refl. reflexivity.
  - destruct (str_eqb k k') eqn:E; cbn; rewrite E; [reflexivity|exact IH].
Qed.

Lemma dict_get_set_ne (k k0 v : pystr) (d : record) :
  k0 <> k -> dict_get k0 (dict_set k v d) = dict_get k0 d.
Proof.
  intros Hne. induction d as [|[k' v'] d IH]; cbn.
  - rewrite str_eqb_neq by exact Hne. reflexivity.
  - destruct (str_eqb k k') eqn:E; cbn.
    + apply str_eqb_eq in E. subst k'.
      rewrite str_eqb_neq by exact Hne. reflexivity.
    + rewrite IH. reflexivity.
Qed.

Lemma dict_keys_set (k v : pystr) (d : record) (k0 : pystr) :
  In k0 (dict_keys (dict_set k v d)) <-> k0 = k \/ In k0 (dict_keys d).
Proof.
  clear_env.
  induction d as [|[k' v'] d IH]; cbn.
  - intuition.
  - destruct (str_eqb k k') eqn:E; cbn.
    + apply str_eqb_eq in E. subst k'. intuition.
    + rewrite IH. intuition.
Qed.

(** Setting a key keeps the keys distinct. *)
Lemma dict_set_NoDup (k v : pystr) (d : record) :
  List.NoDup (dict_keys d) -> List.NoDup (dict_keys (dict_set k v d)).
Proof.
  clear_env.
  induction d as [|[k' v'] d IH]; cbn; intros H.
  - constructor; [intros []|constructor].
  - inversion H as [|? ? Hn Hd]; subst.
    destruct (str_eqb k k') eqn:E; cbn.
    + constructor; assumption.
    + constructor; [|apply IH; exact Hd].
      intros Hin. apply dict_keys_set in Hin as [->|Hin].
      * rewrite str_eqb_refl in E. discriminate.
      * contradiction.
Qed.

Lemma dict_fold_keys (ps : list (pystr * pystr)) (acc : record) (k : pystr) :
  In k (dict_keys
          (fold_left (fun d kv => dict_set (fst kv) (snd kv) d) ps acc)) <->
  In k (List.map fst ps) \/ In k (dict_keys acc).
Proof.
  clear_env.
  revert acc. induction ps as [|[k1 v1] ps IH]; intros acc; cbn.
  - intuition.
  - rewrite IH, dict_keys_set. cbn. intuition.
Qed.

Lemma dict_fold_NoDup (ps : list (pystr * pystr)) (acc : record) :
  List.NoDup (dict_keys acc) ->
  List.NoDup
    (dict_keys (fold_left (fun d kv => dict_set (fst kv) (snd kv) d) ps acc)).
Proof.
  clear_env.
  revert acc. induction ps as [|[k1 v1] ps IH]; intros acc H; cbn.
  - exact H.
  - apply IH, dict_set_NoDup, H.
Qed.

Lemma dict_fold_get_other (ps : list (pystr * pystr)) (acc : record)
    (k : pystr) :
  ~ In k (List.map fst ps) ->
  dict_get k (fold_left (fun d kv => dict_set (fst kv) (snd kv) d) ps acc)
  = dict_get k acc.
Proof.
  clear_env.
  revert acc. induction ps as [|[k1 v1] ps IH]; intros acc H; cbn.
  - reflexivity.
  - cbn in H. rewrite IH by tauto. apply dict_get_set_ne. intros ->. tauto.
Qed.

(** The value of a header in [dict(zip(headers, cells))] is the cell at
    its last position. *)
Lemma dict_zip_get (headers cells : list pystr) (acc : record) (i : nat)
    (h c : pystr) :
  headers !! i = Some h -> cells !! i = Some c ->
  ~ In h (drop (S i) headers) ->
  dict_get h
    (fold_left (fun d kv => dict_set (fst kv) (snd kv) d)
       (combine headers cells) acc)
  = Some c.
Proof.
  clear_env.
  revert cells acc i. induction headers as [|h0 hs IH];
    intros cells acc i Hh Hc Hn.
  - discriminate.
  - destruct cells as [|c0 cs]; [discriminate|]. destruct i as [|i]; cbn.
    + cbn in Hh, Hc. inversion Hh; inversion Hc; subst.
      rewrite dict_fold_get_other.
      * apply dict_get_set_eq.
      * cbn in Hn. rewrite drop_0 in Hn. intros Hin. apply Hn.
        clear -Hin. revert cs Hin. induction hs as [|h1 hs IH]; intros cs Hin.
        -- destruct Hin.
        -- destruct cs as [|c1 cs]; [destruct Hin|]. cbn in Hin.
           destruct Hin as [<-|Hin]; [left; reflexivity|right; eauto].
    + cbn in Hh, Hc, Hn. eapply IH; eassumption.
Qed.

Lemma map_fst_combine (headers cells : list pystr) :
  length cells = length headers ->
  List.map fst (combine headers cells) = headers.
Proof.
  revert cells. induction headers as [|h hs IH]; intros [|c cs] H;
    cbn in *; try discriminate; [reflexivity|].
  rewrite IH by lia. reflexivity.
Qed.

(** ** The election results *)

Lemma elections_rows_run (url : pystr) (headers : list pystr)
    (rows : list (list pystr)) (acc : list record) (w : World) :
  for_loop (elections_row url headers) rows acc w =
  (inr (acc ++ List.map (row_item url headers)
                  (List.filter (row_matches headers) rows)), w).
Proof.
  revert acc. induction rows as [|cells rows IH]; intros acc; cbn.
  - rewrite app_nil_r. reflexivity.
  - unfold bind, elections_row at 1, row_matches.
    destruct (length cells =? length headers)%nat; cbn.
    + rewrite IH. rewrite <- app_assoc. reflexivity.
    + apply IH.
Qed.

Lemma elections_tables_run (url : pystr) (tables : list Table)
    (acc : list record) (w : World) :
  for_loop (elections_table url) tables acc w =
  (inr (acc ++ election_results url tables), w).
Proof.
  revert acc. induction tables as [|tbl tables IH]; intros acc; cbn.
  - rewrite app_nil_r. reflexivity.
  - unfold bind, elections_table at 1. rewrite elections_rows_run.
    rewrite IH. rewrite <- app_assoc. reflexivity.
Qed.

(** The run, once the page is fetched and has tables: the records of
    the tables are what goes to the index. *)
Lemma ElectionsScraper_run_tables (out : path) (year : Z) (province : pystr)
    (w : World) (r : Response) (tables : list Table) :
  let url := elections_url year province in
  http_get (length (requests w)) url = inr r ->
  render_find_tables r = inr tables ->
  tables <> [] ->
  ElectionsScraper_run out year province w =
  bind (_save_json out (election_results url tables)
          (elections_index year province))
       (fun _ => log INFO (lit "Saved %d result rows")
                   [LInt (Z.of_nat (length (election_results url tables)))])
       (elections_rendered year province w).
Proof.
  intros url Hg Hr Ht. unfold ElectionsScraper_run.
  unfold bind at 1. unfold log at 1, emit at 1. cbv beta iota zeta.
  unfold bind at 1. unfold session_get.
  rewrite requests_did. cbn [gets_of flat_map]. rewrite app_nil_r.
  fold url. rewrite Hg. cbv beta iota.
  unfold bind at 1. unfold html_render_find, bind at 1, emit at 1.
  cbv beta iota. rewrite Hr. unfold ret at 1. cbv beta iota.
  destruct tables as [|t ts]; [congruence|].
  unfold bind at 1. rewrite elections_tables_run. cbv beta iota.
  unfold elections_rendered, elections_requested. rewrite !did_did.
  reflexivity.
Qed.

(** C2. The elections loop never fails and yields, table after table,
    exactly one record per body row that has as many cells as the table
    has headers, in the order of the rows; the keys of such a record are
    the header names and [source_url], each header holding the cell at
    its position; a row with another number of cells gives no record and
    no error, and the rows after it are processed as if it were absent;
    these records are what the run hands to the index. *)
Theorem elections_one_record_per_matching_row (url : pystr) :
  (forall tables acc w,
     for_loop (elections_table url) tables acc w
     = (inr (acc ++ election_results url tables), w)) /\
  (forall tbl,
     length (table_records url tbl)
     = length (List.filter (row_matches (thead tbl)) (tbody tbl))) /\
  (forall tbl,
     Forall (fun cells => length cells = length (thead tbl)) (tbody tbl) ->
     table_records url tbl = List.map (row_item url (thead tbl)) (tbody tbl))
  /\
  (forall headers cells k,
     length cells = length headers ->
     In k (dict_keys (row_item url headers cells)) <->
     In k headers \/ k = lit "source_url") /\
  (forall headers cells,
     dict_get (lit "source_url") (row_item url headers cells) = Some url) /\
  (forall headers cells i h c,
     headers !! i = Some h -> cells !! i = Some c ->
     ~ In h (drop (S i) headers) -> h <> lit "source_url" ->
     dict_get h (row_item url headers cells) = Some c) /\
  (forall headers rows1 bad rows2,
     length bad <> length headers ->
     table_records url (mkTable headers (rows1 ++ bad :: rows2))
     = table_records url (mkTable headers rows1)
       ++ table_records url (mkTable headers rows2)) /\
  (forall out year province w r tables,
     url = elections_url year province ->
     http_get (length (requests w)) url = inr r ->
     render_find_tables r = inr tables ->
     tables <> [] ->
     ElectionsScraper_run out year province w =
     bind (_save_json out (election_results url tables)
             (elections_index year province))
          (fun _ => log INFO (lit "Saved %d result rows")
                      [LInt (Z.of_nat
                               (length (election_results url tables)))])
          (elections_rendered year province w)).
Proof.
  split; [exact (elections_tables_run url)|].
  split; [intros tbl; unfold table_records; apply length_map|].
  split.
  { intros tbl H. unfold table_records. f_equal.
    induction H as [|cells rows Hc _ IH]; [reflexivity|]. cbn.
    unfold row_matches at 1. rewrite Hc, Nat.eqb_refl. f_equal. exact IH. }
  split.
  { intros headers cells k Hl. unfold row_item, dict_of_pairs.
    rewrite dict_keys_set, dict_fold_keys, map_fst_combine by exact Hl.
    cbn. clear_env. tauto. }
  split; [intros; apply dict_get_set_eq|].
  split.
  { intros headers cells i h c Hh Hc Hn Hs. unfold row_item, dict_of_pairs.
    rewrite dict_get_set_ne by exact Hs. eapply dict_zip_get; eassumption. }
  split.
  { intros headers rows1 bad rows2 Hb. unfold table_records. cbn [thead tbody].
    rewrite List.filter_app. cbn [List.filter]. unfold row_matches at 2.
    apply Nat.eqb_neq in Hb. rewrite Hb. rewrite <- List.map_app.
    rewrite <- List.filter_app. reflexivity. }
  intros out year province w r tables -> Hg Hr Ht.
  exact (ElectionsScraper_run_tables out year province w r tables Hg Hr Ht).
Qed.

(** ** The parliament members *)

Lemma parliament_card_skip (cons : pystr) (c : Card) (idx : list record)
    (w : World) :
  card_matches cons c = false -> parliament_card cons c idx w = (inr idx, w).
Proof.
  unfold card_matches, parliament_card. intros ->. reflexivity.
Qed.

Lemma parliament_card_success (cons : pystr) (c : Card)
    (idx idx' : list record) (w w' : World) :
  card_matches cons c = true ->
  parliament_card cons c idx w = (inr idx', w') ->
  exists r, idx' = idx ++ [r] /\ record_of_card cons c r.
Proof.
  unfold card_matches, parliament_card. intros -> H. cbn [negb] in H.
  destruct (card_a c) as [link|] eqn:El; [|discriminate].
  unfold subscript in H. destruct (tag_attr link) as [h|] eqn:Eh;
    [|discriminate].
  unfold bind at 1 in H. unfold ret at 1 in H. cbv beta iota in H.
  cbn [option_map get_text] in H.
  unfold bind at 1 in H. unfold ret at 1 in H. cbv beta iota in H.
  apply bind_inr in H as (resp & w1 & _ & H).
  unfold ret in H. injection H as <- <-.
  eexists. split; [reflexivity|]. split; [reflexivity|].
  exists link, h. split; [exact El|]. split; [exact Eh|].
  split; reflexivity.
Qed.

Lemma parliament_loop_success (cons : pystr) (cards : list Card)
    (idx0 idx : list record) (w w' : World) :
  for_loop (parliament_card cons) cards idx0 w = (inr idx, w') ->
  exists new,
    idx = idx0 ++ new /\
    Forall2 (record_of_card cons)
            (List.filter (card_matches cons) cards) new.
Proof.
  revert idx0 w. induction cards as [|c cards IH]; intros idx0 w H.
  - cbn in H. inversion H; subst. exists []. rewrite app_nil_r.
    split; [reflexivity|constructor].
  - cbn [for_loop] in H. apply bind_inr in H as (idx1 & w1 & H1 & H2).
    apply IH in H2 as (new & -> & Hn). cbn [List.filter].
    destruct (card_matches cons c) eqn:Em.
    + apply parliament_card_success in H1 as (r & -> & Hr); [|exact Em].
      exists (r :: new). rewrite <- app_assoc. split; [reflexivity|].
      constructor; assumption.
    + rewrite parliament_card_skip in H1 by exact Em. inversion H1; subst.
      exists new. auto.
Qed.

Lemma parliament_loop_no_match (cons : pystr) (cards : list Card)
    (idx : list record) (w : World) :
  forallb (fun c => negb (card_matches cons c)) cards = true ->
  for_loop (parliament_card cons) cards idx w = (inr idx, w).
Proof.
  induction cards as [|c cards IH]; intros H; [reflexivity|].
  cbn in H. apply andb_prop in H as [Hc Hs]. apply negb_true_iff in Hc.
  cbn [for_loop]. unfold bind. rewrite parliament_card_skip by exact Hc.
  apply IH, Hs.
Qed.

(** ** UTF-8 *)

(** Linear arithmetic with division and remainder by constants. *)
Ltac dlia := clear_env; zify; Z.to_euclidean_division_equations; lia.

(** Bitwise or of a multiple of [2^k] and a number below [2^k] is their
    sum. *)
Lemma lor_add (k h x : N) :
  h mod 2 ^ k = 0 -> x < 2 ^ k -> N.lor h x = h + x.
Proof using Type.
  intros Hh Hx.
  assert (Hl : N.land h x = 0).
  { apply N.bits_inj_0. intros n. rewrite N.land_spec.
    destruct (N.lt_ge_cases n k) as [Hn|Hn].
    - apply N.Div0.div_exact in Hh. rewrite Hh, N.mul_comm.
      rewrite N.mul_pow2_bits_low by exact Hn. reflexivity.
    - destruct (N.eq_0_gt_0_cases x) as [->|Hpos].
      + rewrite N.bits_0. apply andb_false_r.
      + rewrite (N.bits_above_log2 x n); [apply andb_false_r|].
        apply N.log2_lt_pow2; [exact Hpos|].
        eapply N.lt_le_trans; [exact Hx|].
        apply N.pow_le_mono_r; [discriminate|exact Hn]. }
  rewrite <- (N.lxor_lor _ _ Hl). symmetry. apply N.add_nocarry_lxor, Hl.
Qed.

Lemma to_N_byte_of_N (n : N) : n < 256 -> Byte.to_N (byte_of_N n) = n.
Proof using Type.
  intros H. unfold byte_of_N. pose proof (to_of_N_option_map n) as E.
  destruct (N.leb_spec n 255); [|lia].
  destruct (Byte.of_N n); cbn in *; congruence.
Qed.

Lemma land_mask (k x : N) : N.land x (N.ones k) = x mod 2 ^ k.
Proof. apply N.land_ones. Qed.

(** The encodings, in arithmetic form. *)
Lemma utf8_encode_char_1 (c : N) :
  c < 0x80 -> utf8_encode_char c = Some [byte_of_N c].
Proof using Type.
  intros H. unfold utf8_encode_char.
  destruct (N.ltb_spec c 0x80); [reflexivity|lia].
Qed.

Lemma utf8_encode_char_2 (c : N) :
  0x80 <= c < 0x800 ->
  utf8_encode_char c
  = Some [byte_of_N (192 + c / 64); byte_of_N (128 + c mod 64)].
Proof using Type.
  intros H. unfold utf8_encode_char.
  destruct (N.ltb_spec c 0x80); [lia|].
  destruct (N.ltb_spec c 0x800); [|lia].
  rewrite N.shiftr_div_pow2. change 0x3F with (N.ones 6).
  rewrite land_mask. change (2 ^ 6) with 64.
  rewrite (lor_add 6) by (change (2 ^ 6) with 64; first [reflexivity|dlia]).
  rewrite (lor_add 6) by (change (2 ^ 6) with 64; first [reflexivity|dlia]).
  reflexivity.
Qed.

Lemma utf8_encode_char_3 (c : N) :
  0x800 <= c < 0x10000 -> ~ (0xD800 <= c <= 0xDFFF) ->
  utf8_encode_char c
  = Some [byte_of_N (224 + c / 4096); byte_of_N (128 + (c / 64) mod 64);
          byte_of_N (128 + c mod 64)].
Proof using Type.
  intros H Hs. unfold utf8_encode_char.
  destruct (N.ltb_spec c 0x80); [lia|].
  destruct (N.ltb_spec c 0x800); [lia|].
  destruct (N.ltb_spec c 0x10000); [|lia].
  destruct (N.leb_spec 0xD800 c); destruct (N.leb_spec c 0xDFFF);
    cbn [andb]; try lia.
  all: rewrite !N.shiftr_div_pow2; change 0x3F with (N.ones 6);
    rewrite !land_mask; change (2 ^ 6) with 64; change (2 ^ 12) with 4096.
  all: rewrite (lor_add 6 0x80)
         by (change (2 ^ 6) with 64; first [reflexivity|dlia]).
  all: rewrite (lor_add 6 0x80)
         by (change (2 ^ 6) with 64; first [reflexivity|dlia]).
  all: rewrite (lor_add 4 0xE0)
         by (change (2 ^ 4) with 16; first [reflexivity|dlia]).
  all: reflexivity.
Qed.

Lemma utf8_encode_char_4 (c : N) :
  0x10000 <= c < 0x110000 ->
  utf8_encode_char c
  = Some [byte_of_N (240 + c / 262144); byte_of_N (128 + (c / 4096) mod 64);
          byte_of_N (128 + (c / 64) mod 64); byte_of_N (128 + c mod 64)].
Proof using Type.
  intros H. unfold utf8_encode_char.
  destruct (N.ltb_spec c 0x80); [lia|].
  destruct (N.ltb_spec c 0x800); [lia|].
  destruct (N.ltb_spec c 0x10000); [lia|].
  destruct (N.ltb_spec c 0x110000); [|lia].
  rewrite !N.shiftr_div_pow2. change 0x3F with (N.ones 6).
  rewrite !land_mask. change (2 ^ 6) with 64. change (2 ^ 12) with 4096.
  change (2 ^ 18) with 262144.
  rewrite !(lor_add 6 0x80)
    by (change (2 ^ 6) with 64; first [reflexivity|dlia]).
  rewrite (lor_add 3 0xF0) by (change (2 ^ 3) with 8; first [reflexivity|dlia]).
  reflexivity.
Qed.

Ltac test_true := 
  first [ apply N.ltb_lt | apply N.leb_le ]; dlia.
Ltac test_false :=
  first [ apply N.ltb_ge | apply N.leb_gt ]; dlia.

Lemma utf8_decode_1 (c : N) (rest : list byte) :
  c < 0x80 ->
  utf8_decode (byte_of_N c :: rest) = option_map (cons c) (utf8_decode rest).
Proof using Type.
  intros H. cbn [utf8_decode]. rewrite to_N_byte_of_N by lia.
  replace (c <? 0x80) with true by (symmetry; test_true). reflexivity.
Qed.

Lemma is_cont_tail (r : N) : r < 64 -> is_cont (128 + r) = true.
Proof using Type.
  intros H. unfold is_cont.
  replace (0x80 <=? 128 + r) with true by (symmetry; test_true).
  replace (128 + r <? 0xC0) with true by (symmetry; test_true).
  reflexivity.
Qed.

Lemma land_tail (r : N) : r < 64 -> N.land (128 + r) 0x3F = r.
Proof using Type.
  intros H. change 0x3F with (N.ones 6). rewrite land_mask.
  change (2 ^ 6) with 64. dlia.
Qed.

Lemma utf8_decode_2 (q r : N) (rest : list byte) :
  2 <= q < 32 -> r < 64 ->
  utf8_decode (byte_of_N (192 + q) :: byte_of_N (128 + r) :: rest)
  = option_map (cons (64 * q + r)) (utf8_decode rest).
Proof using Type.
  intros Hq Hr. cbn [utf8_decode]. rewrite !to_N_byte_of_N by lia.
  replace (192 + q <? 0x80) with false by (symmetry; test_false).
  rewrite is_cont_tail by exact Hr. cbn [negb].
  replace (0xC2 <=? 192 + q) with true by (symmetry; test_true).
  replace (192 + q <? 0xE0) with true by (symmetry; test_true).
  cbn [andb]. rewrite land_tail by exact Hr.
  change 0x1F with (N.ones 5). rewrite land_mask. change (2 ^ 5) with 32.
  replace ((192 + q) mod 32) with q by dlia.
  rewrite N.shiftl_mul_pow2. change (2 ^ 6) with 64.
  rewrite (lor_add 6) by (change (2 ^ 6) with 64; dlia).
  rewrite (N.mul_comm q 64). reflexivity.
Qed.

Lemma utf8_decode_3 (q1 q2 r : N) (rest : list byte) :
  q1 < 16 -> q2 < 64 -> r < 64 ->
  0x800 <= 4096 * q1 + 64 * q2 + r ->
  ~ (0xD800 <= 4096 * q1 + 64 * q2 + r <= 0xDFFF) ->
  utf8_decode
    (byte_of_N (224 + q1) :: byte_of_N (128 + q2) :: byte_of_N (128 + r)
     :: rest)
  = option_map (cons (4096 * q1 + 64 * q2 + r)) (utf8_decode rest).
Proof using Type.
  intros H1 H2 Hr Hlo Hs. cbn [utf8_decode]. rewrite !to_N_byte_of_N by lia.
  replace (224 + q1 <? 0x80) with false by (symmetry; test_false).
  rewrite !is_cont_tail by assumption. cbn [negb].
  replace (0xC2 <=? 224 + q1) with true by (symmetry; test_true).
  replace (224 + q1 <? 0xE0) with false by (symmetry; test_false).
  replace (0xE0 <=? 224 + q1) with true by (symmetry; test_true).
  replace (224 + q1 <? 0xF0) with true by (symmetry; test_true).
  cbn [andb]. rewrite !land_tail by assumption.
  change 0x0F with (N.ones 4). rewrite land_mask. change (2 ^ 4) with 16.
  replace ((224 + q1) mod 16) with q1 by dlia.
  rewrite !N.shiftl_mul_pow2. change (2 ^ 6) with 64.
  change (2 ^ 12) with 4096.
  rewrite (lor_add 6 (q2 * 64)) by (change (2 ^ 6) with 64; dlia).
  rewrite (lor_add 12) by (change (2 ^ 12) with 4096; dlia).
  replace (q1 * 4096 + (q2 * 64 + r)) with (4096 * q1 + 64 * q2 + r) by lia.
  replace (4096 * q1 + 64 * q2 + r <? 0x800) with false
    by (symmetry; test_false).
  cbn [orb].
  destruct (N.leb_spec 0xD800 (4096 * q1 + 64 * q2 + r));
    destruct (N.leb_spec (4096 * q1 + 64 * q2 + r) 0xDFFF);
    cbn [andb]; try reflexivity.
  exfalso. apply Hs. lia.
Qed.

Lemma utf8_decode_4 (q0 q1 q2 r : N) (rest : list byte) :
  q0 < 5 -> q1 < 64 -> q2 < 64 -> r < 64 ->
  0x10000 <= 262144 * q0 + 4096 * q1 + 64 * q2 + r < 0x110000 ->
  utf8_decode
    (byte_of_N (240 + q0) :: byte_of_N (128 + q1) :: byte_of_N (128 + q2)
     :: byte_of_N (128 + r) :: rest)
  = option_map (cons (262144 * q0 + 4096 * q1 + 64 * q2 + r))
               (utf8_decode rest).
Proof using Type.
  intros H0 H1 H2 Hr Hc. cbn [utf8_decode]. rewrite !to_N_byte_of_N by lia.
  replace (240 + q0 <? 0x80) with false by (symmetry; test_false).
  rewrite !is_cont_tail by assumption. cbn [negb].
  replace (0xC2 <=? 240 + q0) with true by (symmetry; test_true).
  replace (240 + q0 <? 0xE0) with false by (symmetry; test_false).
  replace (0xE0 <=? 240 + q0) with true by (symmetry; test_true).
  replace (240 + q0 <? 0xF0) with false by (symmetry; test_false).
  replace (0xF0 <=? 240 + q0) with true by (symmetry; test_true).
  replace (240 + q0 <? 0xF5) with true by (symmetry; test_true).
  cbn [andb]. rewrite !land_tail by assumption.
  change 0x07 with (N.ones 3). rewrite land_mask. change (2 ^ 3) with 8.
  replace ((240 + q0) mod 8) with q0 by dlia.
  rewrite !N.shiftl_mul_pow2. change (2 ^ 6) with 64.
  change (2 ^ 12) with 4096. change (2 ^ 18) with 262144.
  rewrite (lor_add 6 (q2 * 64)) by (change (2 ^ 6) with 64; dlia).
  rewrite (lor_add 12 (q1 * 4096))
    by (change (2 ^ 12) with 4096; dlia).
  rewrite (lor_add 18) by (change (2 ^ 18) with 262144; dlia).
  replace (q0 * 262144 + (q1 * 4096 + (q2 * 64 + r)))
    with (262144 * q0 + 4096 * q1 + 64 * q2 + r) by lia.
  replace (262144 * q0 + 4096 * q1 + 64 * q2 + r <? 0x10000) with false
    by (symmetry; test_false).
  replace (0x10FFFF <? 262144 * q0 + 4096 * q1 + 64 * q2 + r) with false
    by (symmetry; test_false).
  reflexivity.
Qed.

(** Decoding undoes the encoding of a character, whatever follows. *)
Lemma utf8_decode_encode_char (c : N) (b rest : list byte) :
  utf8_encode_char c = Some b ->
  utf8_decode (b ++ rest) = option_map (cons c) (utf8_decode rest).
Proof using Type.
  intros H.
  destruct (N.lt_ge_cases c 0x80) as [H1|H1].
  { rewrite utf8_encode_char_1 in H by exact H1. injection H as <-.
    apply utf8_decode_1, H1. }
  destruct (N.lt_ge_cases c 0x800) as [H2|H2].
  { rewrite utf8_encode_char_2 in H by lia. injection H as <-.
    cbn [app]. rewrite utf8_decode_2 by dlia. do 2 f_equal. dlia. }
  destruct (N.lt_ge_cases c 0x10000) as [H3|H3].
  { destruct (N.le_gt_cases 0xD800 c) as [Ha|Ha];
      [destruct (N.le_gt_cases c 0xDFFF) as [Hb|Hb]|].
    - exfalso. unfold utf8_encode_char in H.
      destruct (N.ltb_spec c 0x80); [lia|].
      destruct (N.ltb_spec c 0x800); [lia|].
      destruct (N.ltb_spec c 0x10000); [|lia].
      destruct (N.leb_spec 0xD800 c); [|lia].
      destruct (N.leb_spec c 0xDFFF); [|lia]. discriminate.
    - rewrite utf8_encode_char_3 in H by lia. injection H as <-.
      cbn [app]. rewrite utf8_decode_3 by dlia. do 2 f_equal. dlia.
    - rewrite utf8_encode_char_3 in H by lia. injection H as <-.
      cbn [app]. rewrite utf8_decode_3 by dlia. do 2 f_equal. dlia. }
  destruct (N.lt_ge_cases c 0x110000) as [H4|H4].
  { rewrite utf8_encode_char_4 in H by lia. injection H as <-.
    cbn [app]. rewrite utf8_decode_4 by dlia. do 2 f_equal. dlia. }
  exfalso. unfold utf8_encode_char in H.
  destruct (N.ltb_spec c 0x80); [lia|].
  destruct (N.ltb_spec c 0x800); [lia|].
  destruct (N.ltb_spec c 0x10000); [lia|].
  destruct (N.ltb_spec c 0x110000); [lia|]. discriminate.
Qed.

Lemma utf8_encode_char_scalar (c : N) :
  is_scalar c = true -> exists b, utf8_encode_char c = Some b.
Proof using Type.
  unfold is_scalar. intros H.
  destruct (N.lt_ge_cases c 0x80) as [H1|H1];
    [eexists; apply utf8_encode_char_1, H1|].
  destruct (N.lt_ge_cases c 0x800) as [H2|H2];
    [eexists; apply utf8_encode_char_2; lia|].
  apply orb_true_iff in H as [H|H].
  - apply N.ltb_lt in H. eexists. apply utf8_encode_char_3; lia.
  - apply andb_true_iff in H as [Ha Hb].
    apply N.ltb_lt in Ha, Hb.
    destruct (N.lt_ge_cases c 0x10000) as [H3|H3].
    + eexists. apply utf8_encode_char_3; lia.
    + eexists. apply utf8_encode_char_4; lia.
Qed.

Lemma utf8_encode_app (a b : pystr) :
  utf8_encode (a ++ b) =
  match utf8_encode a, utf8_encode b with
  | Some x, Some y => Some (x ++ y)
  | _, _ => None
  end.
Proof using Type.
  induction a as [|c a IH]; cbn.
  - destruct (utf8_encode b); reflexivity.
  - rewrite IH. destruct (utf8_encode_char c) as [bc|]; [|reflexivity].
    destruct (utf8_encode a) as [x|]; [|reflexivity].
    destruct (utf8_encode b) as [y|]; [|reflexivity].
    rewrite app_assoc. reflexivity.
Qed.

Lemma utf8_encode_scalar (s : pystr) :
  encodable s -> exists b, utf8_encode s = Some b.
Proof using Type.
  induction 1 as [|c s Hc _ (b & Hb)]; cbn.
  - eexists. reflexivity.
  - destruct (utf8_encode_char_scalar c Hc) as (bc & ->). rewrite Hb.
    eexists. reflexivity.
Qed.

(** Decoding the encoding of a text gives the text back. *)
Lemma utf8_decode_encode (s : pystr) (b : list byte) :
  utf8_encode s = Some b -> utf8_decode b = Some s.
Proof using Type.
  revert b. induction s as [|c s IH]; intros b H; cbn in H.
  - injection H as <-. reflexivity.
  - destruct (utf8_encode_char c) as [bc|] eqn:Ec; [|discriminate].
    destruct (utf8_encode s) as [bs|] eqn:Es; [|discriminate].
    injection H as <-. rewrite (utf8_decode_encode_char c bc bs Ec).
    rewrite (IH bs eq_refl). reflexivity.
Qed.

(** ** Writing an index *)

Lemma with_fs_same (w : World) : with_fs w (fs w) = w.
Proof. destruct w. reflexivity. Qed.

Lemma fh_write_loop (p : path) (chunks : list pystr) (bytes cur : list byte)
    (w : World) :
  utf8_encode (concat chunks) = Some bytes ->
  files (fs w) !! p = Some cur ->
  for_loop (fun chunk _ => fh_write p chunk) chunks tt w =
  (inr tt,
   with_fs w (mkFS (<[p := cur ++ bytes]> (files (fs w))) (dirs (fs w))
                   (refuses (fs w)))).
Proof.
  revert bytes cur w. induction chunks as [|ch chunks IH];
    intros bytes cur w He Hc.
  - cbn in He. injection He as <-. cbn. rewrite app_nil_r.
    rewrite insert_id by exact Hc. destruct w as [? [? ? ?]]. reflexivity.
  - cbn [concat] in He. rewrite utf8_encode_app in He.
    destruct (utf8_encode ch) as [b1|] eqn:E1; [|discriminate].
    destruct (utf8_encode (concat chunks)) as [b2|] eqn:E2; [|discriminate].
    injection He as <-. cbn [for_loop]. unfold bind, fh_write.
    rewrite E1. unfold append_bytes, bind, get_fs, put_fs. cbn.
    rewrite Hc. cbn.
    rewrite (IH b2 (cur ++ b1)); [|reflexivity|cbn; apply lookup_insert_eq].
    cbn. unfold with_fs. cbn. rewrite insert_insert_eq, app_assoc.
    reflexivity.
Qed.

Lemma open_refused_after_mkdir (f : FS) (p : path) :
  p <> [] -> p ∉ dirs f -> refuses f p = false ->
  open_refused
    (mkFS (files f) (list_to_set (prefixes (parent p)) ∪ dirs f) (refuses f))
    p = false.
Proof.
  intros Hne Hnd Hr. unfold open_refused. cbn [dirs refuses]. rewrite Hr.
  rewrite bool_decide_eq_false_2; [reflexivity|].
  intros Hin. apply elem_of_union in Hin as [Hin|Hin]; [|contradiction].
  apply elem_of_list_to_set in Hin. apply list_elem_of_In in Hin.
  exact (not_in_prefixes_parent p Hne Hin).
Qed.

(** [_save_json] on a writable path, for records that can be encoded:
    the file holds the UTF-8 encoding of the JSON text. *)
Lemma _save_json_ok (out : path) (data : list record) (rel : path)
    (w : World) (bytes : list byte) :
  writable (fs w) (path_join out rel) ->
  utf8_encode (json_dumps data) = Some bytes ->
  _save_json out data rel w =
  (inr (path_join out rel),
   with_fs w (fs_written (fs w) (path_join out rel) bytes)).
Proof.
  intros (Hne & Hpre & Hnd & Hrf) He. unfold _save_json. cbv zeta.
  set (p := path_join out rel) in *.
  unfold bind at 1. rewrite mkdir_parents_run.
  rewrite mkdir_prefixes_ok by exact Hpre.
  unfold bind at 1. unfold open_w, bind at 1, get_fs. cbn [fs with_fs].
  rewrite (open_refused_after_mkdir _ _ Hne Hnd Hrf).
  unfold put_fs at 1. cbn [fs trace files dirs refuses].
  unfold bind at 1. unfold json_dump.
  rewrite (fh_write_loop p _ bytes []); [|exact He|cbn; apply lookup_insert_eq].
  cbn. unfold with_fs, fs_written. cbn. rewrite insert_insert_eq.
  reflexivity.
Qed.

(** ** Reading an index back *)

(** The scanner undoes the escaping of one character. *)
Lemma scanstring_escape_char (c : N) (tl acc : pystr) :
  scanstring (json_escape_char c ++ tl) acc = scanstring tl (c :: acc).
Proof.
  destruct (N.lt_ge_cases c 32) as [Hlt|Hge].
  - rewrite <- (N2Nat.id c). set (n := N.to_nat c).
    assert (Hn : (n < 32)%nat) by lia. clearbody n. clear Hlt.
    do 32 (destruct n as [|n]; [reflexivity|]). lia.
  - unfold json_escape_char.
    destruct (N.eqb_spec c QUOTE) as [->|Hq]; [reflexivity|].
    destruct (N.eqb_spec c BACKSLASH) as [->|Hb]; [reflexivity|].
    destruct (N.eqb_spec c 8); [lia|]. destruct (N.eqb_spec c 12); [lia|].
    destruct (N.eqb_spec c 10); [lia|]. destruct (N.eqb_spec c 13); [lia|].
    destruct (N.eqb_spec c 9); [lia|]. destruct (N.ltb_spec c 32); [lia|].
    cbn [app scanstring].
    destruct (N.eqb_spec c QUOTE); [contradiction|].
    destruct (N.ltb_spec c 32); [lia|].
    destruct (N.eqb_spec c BACKSLASH); [contradiction|]. reflexivity.
Qed.

Lemma scanstring_escaped (s rest acc : pystr) :
  scanstring (flat_map json_escape_char s ++ QUOTE :: rest) acc
  = Some (rev acc ++ s, rest).
Proof.
  revert acc. induction s as [|c s IH]; intros acc.
  - cbn [flat_map app scanstring]. rewrite N.eqb_refl, app_nil_r.
    reflexivity.
  - cbn [flat_map]. rewrite <- app_assoc, scanstring_escape_char, IH.
    cbn [rev]. rewrite <- app_assoc. reflexivity.
Qed.

(** Reading an encoded string. *)
Lemma encode_basestring_cons (s rest : pystr) :
  encode_basestring s ++ rest
  = QUOTE :: (flat_map json_escape_char s ++ QUOTE :: rest).
Proof.
  unfold encode_basestring. cbn [app]. rewrite <- app_assoc. reflexivity.
Qed.

Lemma skip_ws_nonws (c : N) (x : pystr) :
  is_ws c = false -> skip_ws (c :: x) = c :: x.
Proof. intros H. cbn [skip_ws]. rewrite H. reflexivity. Qed.

Lemma skip_ws_repeat_space (n : nat) (x : pystr) :
  skip_ws (repeat SPACE n ++ x) = skip_ws x.
Proof. induction n as [|n IH]; [reflexivity|exact IH]. Qed.

Lemma skip_ws_newline_indent (lvl : nat) (x : pystr) :
  skip_ws (newline_indent lvl ++ x) = skip_ws x.
Proof.
  unfold newline_indent. cbn [app skip_ws].
  change (is_ws NEWLINE) with true. cbv iota. apply skip_ws_repeat_space.
Qed.

Lemma skip_ws_encoded (s rest : pystr) :
  skip_ws (encode_basestring s ++ rest) = encode_basestring s ++ rest.
Proof. rewrite encode_basestring_cons. apply skip_ws_nonws. reflexivity. Qed.

(** One member of an object. *)
Lemma parse_pairs_step (fuel : nat) (k v more : pystr) (acc : record) :
  parse_pairs (S fuel)
    (encode_basestring k ++ [58; SPACE] ++ encode_basestring v ++ more) acc
  = match skip_ws more with
    | c :: s6 =>
        if c =? 125 then Some (dict_set k v acc, s6)
        else if c =? 44 then
          parse_pairs fuel (skip_ws s6) (dict_set k v acc)
        else None
    | [] => None
    end.
Proof.
  rewrite encode_basestring_cons. cbn [parse_pairs].
  rewrite N.eqb_refl. cbn [negb]. rewrite scanstring_escaped.
  cbn [rev app]. rewrite skip_ws_nonws by reflexivity.
  change (58 =? 58) with true. cbn [negb].
  change (skip_ws (SPACE :: encode_basestring v ++ more))
    with (skip_ws (encode_basestring v ++ more)).
  rewrite skip_ws_encoded, encode_basestring_cons.
  rewrite N.eqb_refl. cbn [negb]. rewrite scanstring_escaped.
  reflexivity.
Qed.

(** The members of a record, as the encoder writes them after the first
    key. *)
Lemma parse_pairs_items (lvl lvl' : nat) (d : record) (k v : pystr)
    (acc : record) (fuel : nat) (rest : pystr) :
  (length d < fuel)%nat ->
  parse_pairs fuel
    (encode_basestring k ++ [58; SPACE] ++ encode_basestring v
     ++ concat (iterencode_items lvl false d)
     ++ newline_indent lvl' ++ [125] ++ rest) acc
  = Some (fold_left (fun a kv => dict_set (fst kv) (snd kv) a)
                    ((k, v) :: d) acc, rest).
Proof.
  revert k v acc fuel. induction d as [|[k' v'] d IH];
    intros k v acc fuel Hf.
  - destruct fuel as [|fuel]; [cbn in Hf; lia|].
    rewrite parse_pairs_step. cbn [iterencode_items concat app].
    rewrite skip_ws_newline_indent. cbn [app].
    rewrite skip_ws_nonws by reflexivity. reflexivity.
  - destruct fuel as [|fuel]; [cbn in Hf; lia|].
    rewrite parse_pairs_step. cbn [iterencode_items concat app].
    rewrite <- !app_assoc. cbn [app].
    rewrite skip_ws_nonws by reflexivity.
    change (44 =? 125) with false. change (44 =? 44) with true. cbv iota.
    rewrite skip_ws_newline_indent.
    rewrite <- !app_assoc. rewrite skip_ws_encoded.
    cbn in Hf. exact (IH k' v' (dict_set k v acc) fuel ltac:(lia)).
Qed.

(** A record, as the encoder writes it. *)
Lemma parse_object_dict (lvl : nat) (d : record) (fuel : nat) (rest : pystr) :
  (length d <= fuel)%nat ->
  parse_object fuel (concat (iterencode_dict lvl d) ++ rest)
  = Some (dict_of_pairs d, rest).
Proof.
  intros Hf. destruct d as [|[k v] d].
  - reflexivity.
  - cbn [iterencode_dict iterencode_items concat app].
    rewrite <- !app_assoc. cbn [app]. unfold parse_object.
    change (123 =? 123) with true. cbn [negb].
    rewrite skip_ws_newline_indent. rewrite <- !app_assoc.
    rewrite skip_ws_encoded. rewrite encode_basestring_cons.
    change (QUOTE =? 125) with false. cbv iota.
    rewrite <- encode_basestring_cons.
    rewrite concat_app. cbn [concat]. rewrite app_nil_r.
    rewrite <- !app_assoc.
    cbn in Hf. exact (parse_pairs_items (S lvl) lvl d k v [] fuel rest Hf).
Qed.

Lemma dict_set_fresh (k v : pystr) (d : record) :
  ~ In k (dict_keys d) -> dict_set k v d = d ++ [(k, v)].
Proof.
  clear_env.
  induction d as [|[k' v'] d IH]; cbn; intros H; [reflexivity|].
  rewrite str_eqb_neq by (intros ->; tauto). rewrite IH by tauto.
  reflexivity.
Qed.

Lemma dict_fold_fresh (d acc : record) :
  List.NoDup (dict_keys (acc ++ d)) ->
  fold_left (fun a kv => dict_set (fst kv) (snd kv) a) d acc = acc ++ d.
Proof.
  clear_env.
  revert acc. induction d as [|[k v] d IH]; intros acc H; cbn.
  - rewrite app_nil_r. reflexivity.
  - assert (Hk : ~ In k (dict_keys acc)).
    { unfold dict_keys in *. rewrite List.map_app in H. cbn in H.
      apply NoDup_remove_2 in H. intros Hin. apply H.
      apply in_or_app. left. exact Hin. }
    rewrite dict_set_fresh by exact Hk. rewrite IH.
    + rewrite <- app_assoc. reflexivity.
    + rewrite <- app_assoc. exact H.
Qed.

(** A dictionary read from its own members is itself. *)
Lemma dict_of_pairs_id (d : record) :
  List.NoDup (dict_keys d) -> dict_of_pairs d = d.
Proof. intros H. unfold dict_of_pairs. apply (dict_fold_fresh d []), H. Qed.

Lemma iterencode_dict_head (lvl : nat) (d : record) :
  exists t, concat (iterencode_dict lvl d) = 123 :: t.
Proof.
  clear_env.
  destruct d as [|[k v] d]; cbn [iterencode_dict concat app];
    eexists; reflexivity.
Qed.

Lemma iterencode_elems_cons (lvl : nat) (buf : pystr) (r : record)
    (rs : list record) :
  concat (iterencode_elems lvl buf (r :: rs))
  = buf ++ concat (iterencode_dict lvl r)
    ++ concat (iterencode_elems lvl ([44] ++ newline_indent lvl) rs).
Proof.
  cbn [iterencode_elems app concat]. rewrite List.concat_app. reflexivity.
Qed.

(** The elements of an index, as the encoder writes them after the
    first one. *)
Lemma parse_elems_elems (rs : list record) (r : record) (acc : list record)
    (fuel : nat) (rest : pystr) :
  (length (r :: rs) + length (concat (r :: rs)) < fuel)%nat ->
  parse_elems fuel
    (concat (iterencode_dict 1 r)
     ++ concat (iterencode_elems 1 ([44] ++ newline_indent 1) rs)
     ++ newline_indent 0 ++ [93] ++ rest) acc
  = Some (rev acc ++ List.map dict_of_pairs (r :: rs), rest).
Proof.
  revert r acc fuel. induction rs as [|r' rs IH]; intros r acc fuel Hf.
  - destruct fuel as [|fuel]; [cbn in Hf; lia|].
    cbn [parse_elems]. rewrite parse_object_dict.
    2:{ cbn [length concat] in Hf. rewrite length_app in Hf. lia. }
    cbn [iterencode_elems concat app].
    rewrite skip_ws_newline_indent. cbn [app].
    rewrite skip_ws_nonws by reflexivity.
    change (93 =? 93) with true. cbv iota. cbn [rev List.map].
    reflexivity.
  - destruct fuel as [|fuel]; [cbn in Hf; lia|].
    cbn [parse_elems]. rewrite parse_object_dict.
    2:{ cbn [length concat] in Hf. rewrite !length_app in Hf. lia. }
    rewrite iterencode_elems_cons. rewrite <- !app_assoc. cbn [app].
    rewrite skip_ws_nonws by reflexivity.
    change (44 =? 93) with false. change (44 =? 44) with true. cbv iota.
    rewrite skip_ws_newline_indent.
    destruct (iterencode_dict_head 1 r') as (t & Et).
    rewrite Et. cbn [app]. rewrite skip_ws_nonws by reflexivity.
    change (123 :: t ++ ?x) with ((123 :: t) ++ x). rewrite <- Et.
    rewrite IH.
    + cbn [rev List.map]. rewrite <- !app_assoc. reflexivity.
    + cbn [length concat] in *. rewrite !length_app in *. lia.
Qed.

Lemma length_iterencode_items (lvl : nat) (first : bool) (d : record) :
  (length d <= length (concat (iterencode_items lvl first d)))%nat.
Proof.
  revert first. induction d as [|[k v] d IH]; intros first; [cbn; lia|].
  cbn [iterencode_items]. rewrite !List.concat_app. cbn [concat].
  rewrite !length_app. cbn [length]. specialize (IH false). lia.
Qed.

Lemma length_iterencode_dict (lvl : nat) (d : record) :
  (S (length d) <= length (concat (iterencode_dict lvl d)))%nat.
Proof.
  destruct d as [|kv d]; [cbn; lia|].
  cbn [iterencode_dict]. rewrite List.concat_app. cbn [concat length].
  rewrite !List.concat_app, !length_app.
  pose proof (length_iterencode_items (S lvl) true (kv :: d)) as H.
  cbn [length] in *. lia.
Qed.

Lemma length_iterencode_elems (lvl : nat) (buf : pystr) (rs : list record) :
  (length rs + length (concat rs)
   <= length (concat (iterencode_elems lvl buf rs)))%nat.
Proof.
  revert buf. induction rs as [|r rs IH]; intros buf; [cbn; lia|].
  rewrite iterencode_elems_cons. cbn [concat length].
  rewrite !length_app.
  pose proof (length_iterencode_dict lvl r).
  specialize (IH ([44] ++ newline_indent lvl)). lia.
Qed.

Lemma json_loads_text (s : pystr) (r : record) (rs : list record) :
  s = [91] ++ newline_indent 1 ++ concat (iterencode_dict 1 r)
      ++ concat (iterencode_elems 1 ([44] ++ newline_indent 1) rs)
      ++ newline_indent 0 ++ [93] ->
  (length (r :: rs) + length (concat (r :: rs)) < S (length s))%nat ->
  json_loads s = Some (List.map dict_of_pairs (r :: rs)).
Proof.
  intros Hs Hf. unfold json_loads. remember (S (length s)) as fuel.
  clear Heqfuel. subst s. cbn [app].
  rewrite skip_ws_nonws by reflexivity.
  change (91 =? 91) with true. cbn [negb].
  rewrite skip_ws_newline_indent.
  destruct (iterencode_dict_head 1 r) as (t & Et).
  rewrite Et. cbn [app]. rewrite skip_ws_nonws by reflexivity.
  change (123 =? 93) with false. cbv iota.
  change (123 :: t ++ ?x) with ((123 :: t) ++ x). rewrite <- Et.
  pose proof (parse_elems_elems rs r [] fuel [] Hf) as H.
  cbn [app rev] in H. rewrite H. reflexivity.
Qed.

(** Reading the JSON text of an index gives its records back. *)
Lemma json_loads_dumps (rs : list record) :
  Forall (fun r => List.NoDup (dict_keys r)) rs ->
  json_loads (json_dumps rs) = Some rs.
Proof.
  intros Hnd. destruct rs as [|r rs]; [reflexivity|].
  assert (Hs : json_dumps (r :: rs)
               = [91] ++ newline_indent 1 ++ concat (iterencode_dict 1 r)
                 ++ concat (iterencode_elems 1 ([44] ++ newline_indent 1) rs)
                 ++ newline_indent 0 ++ [93]).
  { unfold json_dumps, iterencode. rewrite List.concat_app.
    rewrite iterencode_elems_cons. cbn [concat].
    rewrite <- !app_assoc. rewrite app_nil_r. reflexivity. }
  rewrite (json_loads_text _ r rs Hs).
  - f_equal. clear Hs. induction Hnd as [|r0 rs0 H0 _ IH]; [reflexivity|].
    cbn [List.map]. rewrite dict_of_pairs_id by exact H0. f_equal. exact IH.
  - rewrite Hs. rewrite !length_app.
    pose proof (length_iterencode_dict 1 r).
    pose proof (length_iterencode_elems 1 ([44] ++ newline_indent 1) rs).
    cbn [length concat] in *. rewrite length_app. lia.
Qed.

(** The JSON text of encodable records is encodable. *)
Lemma scalar_ascii (c : N) : c < 128 -> is_scalar c = true.
Proof.
  intros H. unfold is_scalar. apply orb_true_iff. left.
  apply N.ltb_lt. lia.
Qed.

Lemma json_escape_char_ascii_or_same (c : N) :
  forallb (fun x => (x <? 128) || (x =? c)) (json_escape_char c) = true.
Proof.
  destruct (N.lt_ge_cases c 32) as [Hlt|Hge].
  - rewrite <- (N2Nat.id c). set (n := N.to_nat c).
    assert (Hn : (n < 32)%nat) by lia. clearbody n. clear Hlt.
    do 32 (destruct n as [|n]; [reflexivity|]). lia.
  - unfold json_escape_char.
    destruct (c =? QUOTE); [reflexivity|].
    destruct (c =? BACKSLASH); [reflexivity|].
    destruct (N.eqb_spec c 8); [lia|]. destruct (N.eqb_spec c 12); [lia|].
    destruct (N.eqb_spec c 10); [lia|]. destruct (N.eqb_spec c 13); [lia|].
    destruct (N.eqb_spec c 9); [lia|]. destruct (N.ltb_spec c 32); [lia|].
    cbn [forallb]. rewrite N.eqb_refl, orb_true_r. reflexivity.
Qed.

Lemma encodable_app (a b : pystr) :
  encodable a -> encodable b -> encodable (a ++ b).
Proof. intros Ha Hb. apply Forall_app. split; assumption. Qed.

Lemma encodable_encode_basestring (s : pystr) :
  encodable s -> encodable (encode_basestring s).
Proof.
  intros H. unfold encode_basestring. apply encodable_app;
    [repeat constructor|]. apply encodable_app; [|repeat constructor].
  induction H as [|c s Hc _ IH]; cbn [flat_map]; [constructor|].
  apply encodable_app; [|exact IH].
  apply List.Forall_forall. intros x Hx.
  pose proof (json_escape_char_ascii_or_same c) as Hf.
  rewrite forallb_forall in Hf. specialize (Hf x Hx).
  apply orb_true_iff in Hf as [Hf|Hf].
  - apply scalar_ascii. apply N.ltb_lt. exact Hf.
  - apply N.eqb_eq in Hf. subst x. exact Hc.
Qed.

Lemma encodable_newline_indent (lvl : nat) : encodable (newline_indent lvl).
Proof.
  unfold newline_indent. constructor; [reflexivity|].
  induction (2 * lvl)%nat; cbn; constructor; [reflexivity|assumption].
Qed.

Ltac enc_tac :=
  repeat first
    [ assumption
    | apply encodable_encode_basestring
    | apply encodable_newline_indent
    | apply encodable_app
    | apply List.Forall_nil
    | apply List.Forall_cons; [reflexivity|] ].

Lemma encodable_items (lvl : nat) (first : bool) (d : record) :
  Forall (fun kv => encodable (fst kv) /\ encodable (snd kv)) d ->
  encodable (concat (iterencode_items lvl first d)).
Proof.
  intros H. revert first. induction H as [|[k v] d [Hk Hv] _ IH];
    intros first; [constructor|].
  cbn [iterencode_items]. rewrite !List.concat_app. cbn [concat fst snd] in *.
  specialize (IH false). destruct first; cbn [concat]; enc_tac.
Qed.

Lemma encodable_dict (lvl : nat) (d : record) :
  Forall (fun kv => encodable (fst kv) /\ encodable (snd kv)) d ->
  encodable (concat (iterencode_dict lvl d)).
Proof.
  intros H. destruct d as [|kv d]; [cbn; enc_tac|].
  cbn [iterencode_dict]. rewrite !List.concat_app. cbn [concat].
  pose proof (encodable_items (S lvl) true (kv :: d) H). enc_tac.
Qed.

Lemma encodable_elems (lvl : nat) (buf : pystr) (rs : list record) :
  encodable buf -> Forall record_ok rs ->
  encodable (concat (iterencode_elems lvl buf rs)).
Proof.
  intros Hb H. revert buf Hb. induction H as [|r rs [_ Hr] _ IH];
    intros buf Hb; [constructor|].
  rewrite iterencode_elems_cons.
  pose proof (encodable_dict lvl r Hr).
  assert (encodable ([44] ++ newline_indent lvl)) as Hs by enc_tac.
  specialize (IH _ Hs). enc_tac.
Qed.

Lemma encodable_json_dumps (rs : list record) :
  Forall record_ok rs -> encodable (json_dumps rs).
Proof.
  intros H. unfold json_dumps, iterencode.
  destruct rs as [|r rs]; [cbn; enc_tac|].
  rewrite List.concat_app. cbn [concat].
  assert (encodable ([91] ++ newline_indent 1)) as Hs by enc_tac.
  pose proof (encodable_elems 1 _ (r :: rs) Hs H). enc_tac.
Qed.

(** C3. Writing records with [_save_json] on a writable path and reading
    the file back as UTF-8 JSON gives the same records in the same
    order; the file is the UTF-8 encoding of the JSON text, in which a
    non-ASCII character stands for itself, unescaped.  The records are
    dictionaries (distinct keys) of text that UTF-8 can encode. *)
Theorem save_index_roundtrip (out rel : path) (data : list record)
    (w : World) :
  writable (fs w) (path_join out rel) ->
  Forall record_ok data ->
  exists bytes,
    _save_json out data rel w
    = (inr (path_join out rel),
       with_fs w (fs_written (fs w) (path_join out rel) bytes)) /\
    files (fs_written (fs w) (path_join out rel) bytes)
      !! path_join out rel = Some bytes /\
    utf8_encode (json_dumps data) = Some bytes /\
    utf8_decode bytes = Some (json_dumps data) /\
    json_load_bytes bytes = Some data /\
    (forall c, 128 <= c -> json_escape_char c = [c]) /\
    (forall s, Forall (fun c => 128 <= c) s ->
               encode_basestring s = [QUOTE] ++ s ++ [QUOTE]).
Proof.
  intros Hw Hd.
  destruct (utf8_encode_scalar _ (encodable_json_dumps data Hd))
    as (bytes & He).
  exists bytes. split; [apply _save_json_ok; assumption|].
  split; [cbn; apply lookup_insert_eq|]. split; [exact He|].
  pose proof (utf8_decode_encode _ _ He) as Hdec.
  split; [exact Hdec|]. split.
  - unfold json_load_bytes. rewrite Hdec. apply json_loads_dumps.
    eapply List.Forall_impl; [|exact Hd]. intros r [Hn _]. exact Hn.
  - assert (Hc : forall c, 128 <= c -> json_escape_char c = [c]).
    { intros c Hc. unfold json_escape_char, QUOTE, BACKSLASH.
      destruct (N.eqb_spec c 34); [lia|]. destruct (N.eqb_spec c 92); [lia|].
      destruct (N.eqb_spec c 8); [lia|]. destruct (N.eqb_spec c 12); [lia|].
      destruct (N.eqb_spec c 10); [lia|]. destruct (N.eqb_spec c 13); [lia|].
      destruct (N.eqb_spec c 9); [lia|]. destruct (N.ltb_spec c 32); [lia|].
      reflexivity. }
    split; [exact Hc|]. intros s Hs. unfold encode_basestring. do 2 f_equal.
    induction Hs as [|c s H _ IH]; [reflexivity|].
    cbn [flat_map]. rewrite Hc by exact H. rewrite IH. reflexivity.
Qed.

Lemma filter_length_Permutation {A} (f : A -> bool) (l l' : list A) :
  Permutation l l' ->
  length (List.filter f l) = length (List.filter f l').
Proof.
  induction 1 as [|x l l' _ IH|x y l|l l' l'' _ IH1 _ IH2]; cbn.
  - reflexivity.
  - destruct (f x); cbn; congruence.
  - destruct (f x), (f y); reflexivity.
  - congruence.
Qed.

(** C6. When the parliament loop ends normally, the index holds exactly
    one record per listing card whose text contains the constituency,
    in the order of those cards, each describing its card; the number of
    records does not depend on the order of the cards; and when no card
    contains the constituency, the run (listing fetched, index path
    writable) ends normally and the index file is the empty JSON
    array. *)
Theorem parliament_one_record_per_matching_card (out : path)
    (cons : pystr) :
  (forall cards idx w w',
     for_loop (parliament_card cons) cards [] w = (inr idx, w') ->
     Forall2 (record_of_card cons)
             (List.filter (card_matches cons) cards) idx /\
     length idx = length (List.filter (card_matches cons) cards)) /\
  (forall cards cards',
     Permutation cards cards' ->
     length (List.filter (card_matches cons) cards)
     = length (List.filter (card_matches cons) cards')) /\
  (forall w resp w1 idx w2,
     safe_request (PARLIAMENT_BASE ++ lit "/ar/members") w = (inr resp, w1) ->
     for_loop (parliament_card cons) (select_views_rows (text resp)) [] w1
     = (inr idx, w2) ->
     ParliamentScraper_run out cons w
     = bind (_save_json out idx (Path (lit "parliament/members.json")))
            (fun _ => log INFO (lit "MP profiles saved: %d")
                        [LInt (Z.of_nat (length idx))]) w2) /\
  (forall w resp w1,
     safe_request (PARLIAMENT_BASE ++ lit "/ar/members") w = (inr resp, w1) ->
     forallb (fun c => negb (card_matches cons c))
             (select_views_rows (text resp)) = true ->
     writable (fs w1)
              (path_join out (Path (lit "parliament/members.json"))) ->
     exists w2,
       ParliamentScraper_run out cons w = (inr tt, w2) /\
       files (fs w2) !! path_join out (Path (lit "parliament/members.json"))
       = Some [x5b; x5d] /\
       json_load_bytes [x5b; x5d] = Some []).
Proof.
  split; [|split; [|split]].
  - intros cards idx w w' H.
    apply parliament_loop_success in H as (new & -> & Hn). cbn [app].
    split; [exact Hn|]. symmetry. eapply Forall2_length. exact Hn.
  - intros cards cards'. apply filter_length_Permutation.
  - intros w resp w1 idx w2 Hreq Hloop. unfold ParliamentScraper_run.
    cbv zeta. rewrite (bind_ok _ _ _ _ _ Hreq).
    rewrite (bind_ok _ _ _ _ _ Hloop). reflexivity.
  - intros w resp w1 Hreq Hno Hw. unfold ParliamentScraper_run. cbv zeta.
    rewrite (bind_ok _ _ _ _ _ Hreq).
    rewrite (bind_ok _ _ _ _ _ (parliament_loop_no_match _ _ _ _ Hno)).
    rewrite (bind_ok _ _ _ _ _
               (_save_json_ok out [] _ w1 [x5b; x5d] Hw eq_refl)).
    eexists. split; [reflexivity|]. split; [|reflexivity].
    cbn [fs with_fs fs_written files]. apply lookup_insert_eq.
Qed.

(* ===================================================================== *)
(** * Further properties of the module                                     *)
(* ===================================================================== *)

(** ** [safe_request] *)

(** X1. Whatever the network does, a call of [safe_request] leaves the
    output tree alone, waits nothing, 3, 3 and 6, or 3, 6 and 9 time
    units (18 at most), logs one warning per wait, and has issued one
    GET more than it waited when it returns a response, exactly three
    when it fails. *)
Theorem safe_request_footprint (url : pystr) (w : World) :
  let out := safe_request url w in
  fs (snd out) = fs w /\
  exists waits warnings,
    sleeps (snd out) = sleeps w ++ waits /\
    logs (snd out) = logs w ++ warnings /\
    (waits = [] \/ waits = [3] \/ waits = [3; 6] \/ waits = [3; 6; 9]) /\
    length warnings = length waits /\
    Forall (fun l => level l = WARNING) warnings /\
    match fst out with
    | inr _ => requests (snd out) = requests w ++ repeat url (S (length waits))
    | inl e =>
        e = RuntimeError (exhausted_msg url) /\ waits = [3; 6; 9] /\
        requests (snd out) = requests w ++ repeat url 3
    end.
Proof.
  cbv zeta. split; [apply safe_request_fs|].
  destruct (attempt (length (requests w)) url) as [e0|r0] eqn:H0.
  2:{ rewrite (safe_request_first _ _ _ H0). exists [], [].
      world_simpl. cbn [length repeat].
      rewrite !app_nil_r. repeat split; auto. }
  destruct (attempt (length (requests w) + 1) url) as [e1|r1] eqn:H1.
  2:{ rewrite (safe_request_second _ _ _ _ H0 H1). eexists. eexists.
      world_simpl.
      split; [reflexivity|]. split; [reflexivity|].
      split; [auto|]. split; [reflexivity|].
      split; [repeat constructor|reflexivity]. }
  destruct (attempt (length (requests w) + 2) url) as [e2|r2] eqn:H2.
  2:{ rewrite (safe_request_third _ _ _ _ _ H0 H1 H2). eexists. eexists.
      world_simpl.
      split; [reflexivity|]. split; [reflexivity|].
      split; [auto|]. split; [reflexivity|].
      split; [repeat constructor|reflexivity]. }
  rewrite (safe_request_exhausted _ _ _ _ _ H0 H1 H2). eexists. eexists.
  world_simpl.
  split; [reflexivity|]. split; [reflexivity|].
  split; [auto|]. split; [reflexivity|].
  split; [repeat constructor|]. auto.
Qed.

(** X2. Only the statuses 400 to 599 count as failures: a first answer
    with any other status (a 304, a 204, a 100) is returned at once,
    without wait or warning (the GET is all that happens), while an
    answer with a status from 400 to 599 is a failed attempt, followed
    by a wait. *)
Theorem safe_request_status (url : pystr) (w : World) (r : Response) :
  http_get (length (requests w)) url = inr r ->
  ((status_code r < 400 \/ 600 <= status_code r) ->
   safe_request url w = (inr r, did w [EGet url])) /\
  (400 <= status_code r < 600 ->
   attempt (length (requests w)) url = inl (HTTPError (status_code r)) /\
   exists rest, sleeps (snd (safe_request url w)) = sleeps w ++ 3 :: rest).
Proof.
  intros Hg. split.
  - intros Hs. apply safe_request_first. unfold attempt. rewrite Hg.
    destruct (N.leb_spec 400 (status_code r));
      destruct (N.ltb_spec (status_code r) 600); cbn [andb];
      try reflexivity. lia.
  - intros Hs.
    assert (Ha : attempt (length (requests w)) url
                 = inl (HTTPError (status_code r))).
    { unfold attempt. rewrite Hg.
      destruct (N.leb_spec 400 (status_code r)); [|lia].
      destruct (N.ltb_spec (status_code r) 600); [|lia]. reflexivity. }
    split; [exact Ha|].
    destruct (attempt (length (requests w) + 1) url) as [e1|r1] eqn:H1.
    2:{ rewrite (safe_request_second _ _ _ _ Ha H1). world_simpl.
        exists []. reflexivity. }
    destruct (attempt (length (requests w) + 2) url) as [e2|r2] eqn:H2.
    + rewrite (safe_request_exhausted _ _ _ _ _ Ha H1 H2). world_simpl.
      exists [6; 9]. reflexivity.
    + rewrite (safe_request_third _ _ _ _ _ Ha H1 H2). world_simpl.
      exists [6]. reflexivity.
Qed.

(** ** The content store *)


Lemma not_in_dirs_after_mkdir (p : path) (f : FS) :
  p <> [] ->
  p ∈ (list_to_set (prefixes (parent p)) ∪ dirs f : gset (list (list N)))
  <-> p ∈ dirs f.
Proof.
  intros Hne. rewrite elem_of_union, elem_of_list_to_set, list_elem_of_In.
  split; [|auto]. intros [Hin|Hin]; [|exact Hin].
  destruct (not_in_prefixes_parent p Hne Hin).
Qed.


Lemma _save_binary_inr (out : path) (b : list byte) (rel : path)
    (w w' : World) (p : path) :
  _save_binary out b rel w = (inr p, w') ->
  p = path_join out rel /\
  w' = with_fs w (mkFS (<[p := b]> (files (fs w)))
                       (list_to_set (prefixes (parent p)) ∪ dirs (fs w))
                       (refuses (fs w))).
Proof.
  intros H. rewrite _save_binary_run in H. cbv zeta in H.
  destruct (mkdir_prefixes _ (fs w)) as [[e f1]|f1] eqn:Hm; [discriminate|].
  destruct (open_refused _ _); [discriminate|]. injection H as <- <-.
  apply mkdir_prefixes_inr in Hm as [_ ->]. split; reflexivity.
Qed.

Lemma _save_binary_stored (out : path) (b : list byte) (rel : path)
    (w w' : World) (p : path) :
  _save_binary out b rel w = (inr p, w') ->
  p = path_join out rel /\
  files (fs w') !! p = Some b /\
  (forall q, q <> p -> files (fs w') !! q = files (fs w) !! q).
Proof.
  intros H. apply _save_binary_inr in H as (-> & ->).
  cbn [fs with_fs files]. split; [reflexivity|].
  split; [apply lookup_insert_eq|].
  intros q Hq. apply lookup_insert_ne. congruence.
Qed.

(** X4. After a successful [_save_binary] the returned path is
    [output_dir / rel_path], reading it gives exactly the bytes written,
    every other file is as before, the ancestors of the file are
    directories, and the network, the clock and the log are untouched. *)
Theorem _save_binary_read_back (out : path) (b : list byte) (rel : path)
    (w w' : World) (p : path) :
  _save_binary out b rel w = (inr p, w') ->
  p = path_join out rel /\
  files (fs w') !! p = Some b /\
  (forall q, q <> p -> files (fs w') !! q = files (fs w) !! q) /\
  (forall q, q ∈ dirs (fs w') <->
             In q (prefixes (parent p)) \/ q ∈ dirs (fs w)) /\
  requests w' = requests w /\ sleeps w' = sleeps w /\ logs w' = logs w.
Proof.
  intros H. apply _save_binary_inr in H as (-> & ->).
  cbn [fs with_fs files dirs requests sleeps logs].
  split; [reflexivity|]. split; [apply lookup_insert_eq|].
  split; [intros q Hq; apply lookup_insert_ne; congruence|].
  split; [|auto]. intros q.
  rewrite elem_of_union, elem_of_list_to_set, list_elem_of_In. reflexivity.
Qed.

Lemma fh_write_loop_inr (p : path) (chunks : list pystr) (cur : list byte)
    (w w' : World) :
  files (fs w) !! p = Some cur ->
  for_loop (fun chunk _ => fh_write p chunk) chunks tt w = (inr tt, w') ->
  exists bytes,
    utf8_encode (concat chunks) = Some bytes /\
    w' = with_fs w (mkFS (<[p := cur ++ bytes]> (files (fs w)))
                         (dirs (fs w)) (refuses (fs w))).
Proof.
  revert cur w. induction chunks as [|ch chunks IH]; intros cur w Hc H.
  - cbn in H. injection H as <-. exists []. split; [reflexivity|].
    rewrite app_nil_r, insert_id by exact Hc.
    destruct w as [? [? ? ?]]. reflexivity.
  - cbn [for_loop] in H. unfold bind, fh_write in H.
    destruct (utf8_encode ch) as [b1|] eqn:E1; [|discriminate].
    unfold append_bytes, bind, get_fs, put_fs in H. cbn in H.
    rewrite Hc in H. cbn in H.
    apply (IH (cur ++ b1)) in H; [|cbn; apply lookup_insert_eq].
    destruct H as (b2 & E2 & ->). exists (b1 ++ b2). split.
    + cbn [concat]. rewrite utf8_encode_app, E1, E2. reflexivity.
    + unfold with_fs. cbn. rewrite insert_insert_eq, app_assoc.
      reflexivity.
Qed.

(** Every normal end of [_save_json]. *)
Lemma _save_json_inr (out : path) (data : list record) (rel : path)
    (w w' : World) (p : path) :
  _save_json out data rel w = (inr p, w') ->
  p = path_join out rel /\
  exists bytes,
    utf8_encode (json_dumps data) = Some bytes /\
    w' = with_fs w (fs_written (fs w) p bytes).
Proof.
  unfold _save_json. cbv zeta. intros H.
  apply bind_inr in H as ([] & w1 & H1 & H).
  apply bind_inr in H as ([] & w2 & H2 & H).
  apply bind_inr in H as ([] & w3 & H3 & H).
  unfold ret in H. injection H as <- <-. split; [reflexivity|].
  rewrite mkdir_parents_run in H1.
  destruct (mkdir_prefixes _ (fs w)) as [[e f1]|f1] eqn:Hm; [discriminate|].
  injection H1 as <-. apply mkdir_prefixes_inr in Hm as [_ ->].
  unfold open_w, bind, get_fs, put_fs, raise in H2.
  cbn [fs with_fs files dirs refuses trace] in H2.
  destruct (open_refused _ _); [discriminate|]. injection H2 as <-.
  unfold json_dump in H3.
  apply (fh_write_loop_inr _ _ []) in H3; [|cbn; apply lookup_insert_eq].
  destruct H3 as (bytes & He & ->). exists bytes. split; [exact He|].
  unfold with_fs, fs_written. cbn. rewrite insert_insert_eq. reflexivity.
Qed.

Lemma _save_json_reads_back (out : path) (data : list record) (rel : path)
    (w w' : World) (p : path) :
  _save_json out data rel w = (inr p, w') ->
  p = path_join out rel /\
  exists bytes,
    w' = with_fs w (fs_written (fs w) p bytes) /\
    files (fs w') !! p = Some bytes /\
    (Forall (fun r => List.NoDup (dict_keys r)) data ->
     json_load_bytes bytes = Some data).
Proof.
  intros H. apply _save_json_inr in H as (-> & bytes & He & ->).
  split; [reflexivity|]. exists bytes. split; [reflexivity|].
  split; [cbn; apply lookup_insert_eq|]. intros Hn.
  unfold json_load_bytes. rewrite (utf8_decode_encode _ _ He).
  apply json_loads_dumps, Hn.
Qed.

Lemma writable_after_write (f : FS) (p : path) (b : list byte) :
  writable f p -> writable (fs_written f p b) p.
Proof.
  intros (Hne & Hf & Hd & Hr). split; [exact Hne|]. split; [|split].
  - apply List.Forall_forall. intros q Hq. split.
    + cbn. rewrite lookup_insert_ne.
      * rewrite List.Forall_forall in Hf. apply Hf, Hq.
      * intros <-. exact (not_in_prefixes_parent p Hne Hq).
    + left. cbn. apply elem_of_union_l, elem_of_list_to_set.
      apply list_elem_of_In. exact Hq.
  - cbn. intros Hin. apply Hd.
    apply (not_in_dirs_after_mkdir p f Hne). exact Hin.
  - exact Hr.
Qed.

Lemma fs_written_twice (f : FS) (p : path) (b1 b2 : list byte) :
  fs_written (fs_written f p b1) p b2 = fs_written f p b2.
Proof.
  unfold fs_written. cbn. rewrite insert_insert_eq. f_equal. set_solver.
Qed.

(** X5. An index is overwritten wholesale: writing a second list of
    records to the path of a first one leaves exactly the tree that
    writing the second list alone gives, and the file reads back as the
    second list; nothing of the first remains. *)
Theorem _save_json_overwrites (out rel : path) (d1 d2 : list record)
    (w : World) :
  writable (fs w) (path_join out rel) ->
  Forall record_ok d1 -> Forall record_ok d2 ->
  exists w1 w2 bytes,
    _save_json out d1 rel w = (inr (path_join out rel), w1) /\
    _save_json out d2 rel w1 = (inr (path_join out rel), w2) /\
    w2 = snd (_save_json out d2 rel w) /\
    files (fs w2) !! path_join out rel = Some bytes /\
    json_load_bytes bytes = Some d2.
Proof.
  intros Hw H1 H2.
  destruct (utf8_encode_scalar _ (encodable_json_dumps d1 H1)) as (b1 & E1).
  destruct (utf8_encode_scalar _ (encodable_json_dumps d2 H2)) as (b2 & E2).
  pose proof (_save_json_ok out d1 rel w b1 Hw E1) as R1.
  pose proof (_save_json_ok out d2 rel w b2 Hw E2) as R2.
  pose proof (_save_json_ok out d2 rel
                (with_fs w (fs_written (fs w) (path_join out rel) b1)) b2
                (writable_after_write _ _ b1 Hw) E2) as R3.
  cbn [fs with_fs] in R3. rewrite fs_written_twice in R3.
  eexists. eexists. exists b2. split; [exact R1|]. split; [exact R3|].
  rewrite R2. cbn [snd fs with_fs].
  split; [reflexivity|]. split; [cbn; apply lookup_insert_eq|].
  unfold json_load_bytes. rewrite (utf8_decode_encode _ _ E2).
  apply json_loads_dumps. eapply List.Forall_impl; [|exact H2].
  intros r [Hn _]. exact Hn.
Qed.

Lemma fh_write_loop_inl (p : path) (chunks : list pystr) (cur : list byte)
    (w w' : World) (e : Exc) :
  files (fs w) !! p = Some cur ->
  for_loop (fun chunk _ => fh_write p chunk) chunks tt w = (inl e, w') ->
  e = UnicodeEncodeError /\
  exists done bad rest part,
    chunks = done ++ bad :: rest /\
    utf8_encode (concat done) = Some part /\
    utf8_encode bad = None /\
    files (fs w') !! p = Some (cur ++ part) /\
    (forall q, q <> p -> files (fs w') !! q = files (fs w) !! q).
Proof.
  revert cur w. induction chunks as [|ch chunks IH]; intros cur w Hc H.
  - discriminate.
  - cbn [for_loop] in H. unfold bind, fh_write in H.
    destruct (utf8_encode ch) as [b1|] eqn:E1.
    + unfold append_bytes, bind, get_fs, put_fs in H. cbn in H.
      rewrite Hc in H. cbn in H.
      apply (IH (cur ++ b1)) in H; [|cbn; apply lookup_insert_eq].
      destruct H as (-> & done & bad & rest & part & -> & Ed & Eb & Hp & Hq).
      split; [reflexivity|].
      exists (ch :: done), bad, rest, (b1 ++ part).
      split; [reflexivity|]. split.
      { cbn [concat]. rewrite utf8_encode_app, E1, Ed. reflexivity. }
      split; [exact Eb|]. split.
      { rewrite Hp, app_assoc. reflexivity. }
      intros q Hne. rewrite (Hq q Hne). cbn.
      apply lookup_insert_ne. congruence.
    + unfold raise in H. injection H as <- <-. split; [reflexivity|].
      exists [], ch, chunks, []. rewrite app_nil_r. auto.
Qed.

Lemma _save_json_inl (out : path) (data : list record) (rel : path)
    (w w' : World) (e : Exc) :
  _save_json out data rel w = (inl e, w') ->
  ((exists q, e = OSError q) /\ files (fs w') = files (fs w)) \/
  (e = UnicodeEncodeError /\
   utf8_encode (json_dumps data) = None /\
   exists done bad rest part,
     iterencode data = done ++ bad :: rest /\
     utf8_encode (concat done) = Some part /\
     utf8_encode bad = None /\
     files (fs w') !! path_join out rel = Some part).
Proof.
  intros H. unfold _save_json in H. cbv zeta in H. unfold bind at 1 in H.
  rewrite mkdir_parents_run in H.
  destruct (mkdir_prefixes _ (fs w)) as [[e1 f1]|f1] eqn:Hm.
  { injection H as <- <-. left.
    apply mkdir_prefixes_inl in Hm as (Hfl & _ & q & -> & _).
    cbn [fs with_fs]. eauto. }
  apply mkdir_prefixes_inr in Hm as [_ ->].
  unfold bind at 1 in H. unfold open_w, bind at 1, get_fs in H.
  cbn [fs with_fs] in H.
  destruct (open_refused _ _).
  { unfold raise in H. injection H as <- <-. left. eauto. }
  unfold put_fs at 1 in H. cbn [trace fs files dirs refuses] in H.
  unfold bind at 1 in H. unfold json_dump in H.
  match type of H with
  | match ?c with _ => _ end = _ => destruct c as [[e2|[]] w2] eqn:Hl
  end; [|discriminate].
  injection H as <- <-. right.
  apply (fh_write_loop_inl _ _ []) in Hl; [|cbn; apply lookup_insert_eq].
  destruct Hl as (-> & done & bad & rest & part & Hc & Ed & Eb & Hp & _).
  split; [reflexivity|]. split.
  + unfold json_dumps. rewrite Hc, List.concat_app. cbn [concat].
    rewrite !utf8_encode_app, Ed, Eb. reflexivity.
  + exists done, bad, rest, part. auto.
Qed.


(** ** [slugify] *)

Lemma slugify_word_or_hyphen (text : pystr) :
  Forall (fun c => is_word c = true \/ c = HYPHEN) (slugify text).
Proof.
  destruct (slugify_shape text) as (Hw & _ & _).
  eapply List.Forall_impl; [|exact Hw]. intros c Hn.
  unfold not_word_or_hyphen in Hn. apply negb_false_iff in Hn.
  apply orb_true_iff in Hn as [Hn|Hn]; [left; exact Hn|].
  right. apply N.eqb_eq. exact Hn.
Qed.

(** X7. Every slug is made of word characters and hyphens only, has no
    two hyphens in a row and no hyphen at either end; its ASCII
    characters are letters, digits, underscores and hyphens, so a slug
    never contains a slash, a dot, a space or a control character. *)
Theorem slugify_safe_characters (text : pystr) :
  Forall (fun c => is_word c = true \/ c = HYPHEN) (slugify text) /\
  no_hyphen_run (slugify text) /\
  no_edge_hyphen (slugify text) /\
  (isalnum_on_ascii ->
   Forall (fun c => c < 128 ->
                    ascii_isalnum c = true \/ c = 95 \/ c = HYPHEN)
          (slugify text) /\
   ~ In SLASH (slugify text) /\ ~ In 46 (slugify text) /\
   ~ In SPACE (slugify text) /\ ~ In 0 (slugify text)).
Proof.
  destruct (slugify_shape text) as (Hw & Hr & He).
  pose proof (slugify_word_or_hyphen text) as Hc.
  split; [exact Hc|]. split; [exact Hr|]. split; [exact He|].
  intros Ha.
  assert (Hs : Forall (fun c => c < 128 ->
                         ascii_isalnum c = true \/ c = 95 \/ c = HYPHEN)
                 (slugify text)).
  { eapply List.Forall_impl; [|exact Hc]. intros c [Hi| ->] Hlt; [|auto].
    unfold is_word in Hi. apply orb_true_iff in Hi as [Hi|Hi].
    - left. rewrite <- (Ha c Hlt). exact Hi.
    - right. left. apply N.eqb_eq. exact Hi. }
  split; [exact Hs|]. rewrite List.Forall_forall in Hs.
  repeat split; intros Hin;
    destruct (Hs _ Hin eq_refl) as [H|[H|H]]; discriminate.
Qed.

Lemma ascii_lower_char_range (c : N) :
  c < 128 ->
  ascii_lower_char c < 128 /\
  ((65 <=? ascii_lower_char c) && (ascii_lower_char c <=? 90)) = false.
Proof.
  intros Hc. unfold ascii_lower_char.
  destruct ((65 <=? c) && (c <=? 90)) eqn:E.
  - apply andb_prop in E as [E1 E2]. apply N.leb_le in E1, E2.
    split; [lia|]. apply andb_false_iff. right. apply N.leb_gt. lia.
  - split; [exact Hc|exact E].
Qed.

(** X8. For ASCII text, the slug is ASCII: it holds only the characters
    [a-z], [0-9], [_] and [-]. *)
Theorem slugify_ascii (text : pystr) :
  isalnum_on_ascii -> lower_on_ascii ->
  forallb is_ascii text = true ->
  forallb is_slug_char (slugify text) = true.
Proof.
  intros Ha Hl Ht.
  pose proof (slugify_word_or_hyphen text) as Hc.
  assert (Hp : Forall (fun c =>
                  c < 128 /\ ((65 <=? c) && (c <=? 90)) = false)
                 (slugify text)).
  { apply slugify_chars; [split; reflexivity|].
    rewrite (Hl text Ht). unfold ascii_lower.
    apply List.Forall_forall. intros c Hin. apply in_map_iff in Hin.
    destruct Hin as (c0 & <- & Hin0). apply ascii_lower_char_range.
    rewrite forallb_forall in Ht. apply N.ltb_lt. exact (Ht c0 Hin0). }
  apply forallb_forall. intros c Hin.
  rewrite List.Forall_forall in Hc, Hp.
  destruct (Hp c Hin) as [Hlt Hup]. unfold is_slug_char.
  destruct (Hc c Hin) as [Hw| ->]; [|reflexivity].
  unfold is_word in Hw. apply orb_true_iff in Hw as [Hw|Hw].
  - rewrite (Ha c Hlt) in Hw. unfold ascii_isalnum in Hw.
    rewrite Hup, orb_false_r in Hw.
    apply orb_true_iff in Hw as [Hw|Hw]; rewrite Hw;
      rewrite ?orb_true_r; reflexivity.
  - rewrite Hw. rewrite orb_true_r. reflexivity.
Qed.

Lemma lstrip_all (ch : N) (s : pystr) :
  Forall (fun c => c = ch) s -> lstrip ch s = [].
Proof.
  induction 1 as [|c s -> _ IH]; [reflexivity|].
  cbn. rewrite N.eqb_refl. exact IH.
Qed.

(** X9. Text without any word character (empty text, punctuation,
    blanks) has the empty slug. *)
Theorem slugify_no_word_is_empty (text : pystr) :
  Forall (fun c => is_word c = false) (py_lower text) ->
  slugify text = [].
Proof.
  intros H. unfold slugify, re_sub_plus.
  assert (H1 : Forall (fun c => c = HYPHEN)
                 (re_sub_runs not_word_or_hyphen [HYPHEN] false
                    (py_lower text))).
  { apply re_sub_runs_Forall; [repeat constructor|].
    eapply List.Forall_impl; [|exact H]. intros c Hw Hn.
    unfold not_word_or_hyphen in Hn. rewrite Hw in Hn.
    apply negb_false_iff in Hn. apply N.eqb_eq. exact Hn. }
  assert (H2 : Forall (fun c => c = HYPHEN)
                 (re_sub_runs is_hyphen [HYPHEN] false
                    (re_sub_runs not_word_or_hyphen [HYPHEN] false
                       (py_lower text)))).
  { apply re_sub_runs_Forall; [repeat constructor|].
    eapply List.Forall_impl; [|exact H1]. auto. }
  unfold strip. rewrite (lstrip_all _ _ H2). reflexivity.
Qed.

(** ** The name of the elections index *)

Lemma lit_String (a : ascii) (s : string) :
  lit (String a s) = N_of_ascii a :: lit s.
Proof. reflexivity. Qed.

Lemma string_of_uint_chars (d : Decimal.uint) :
  forallb ascii_isdecimal (lit (DecimalString.NilEmpty.string_of_uint d))
  = true.
Proof.
  induction d; cbn [DecimalString.NilEmpty.string_of_uint];
    [reflexivity|..]; rewrite lit_String; cbn [forallb]; rewrite IHd;
    reflexivity.
Qed.

(** [str(n)] is made of digits, after a minus sign for a negative. *)
Lemma str_of_int_chars (z : Z) :
  forallb (fun c => ascii_isdecimal c || (c =? HYPHEN)) (str_of_int z) = true.
Proof.
  unfold str_of_int.
  assert (H : forall d,
             forallb (fun c => ascii_isdecimal c || (c =? HYPHEN))
               (lit (DecimalString.NilZero.string_of_uint d)) = true).
  { intros d. apply forallb_forall. intros c Hc.
    assert (Hd : forallb ascii_isdecimal
                   (lit (DecimalString.NilZero.string_of_uint d)) = true).
    { destruct d; try apply string_of_uint_chars. reflexivity. }
    rewrite forallb_forall in Hd. rewrite (Hd c Hc). reflexivity. }
  destruct (Z.to_int z) as [d|d];
    cbn [DecimalString.NilZero.string_of_int].
  - apply H.
  - rewrite lit_String. cbn [forallb]. rewrite H. reflexivity.
Qed.

(** X10. Whatever the province text and the year, the elections index is
    a single path component: the file is created directly in the output
    directory, and no province text (with slashes, dots or blanks) can
    move it elsewhere. *)
Theorem elections_index_in_output_dir (out : path) (year : Z)
    (province : pystr) :
  isalnum_on_ascii ->
  elections_index year province
  = [lit "elections_" ++ str_of_int year ++ lit "_" ++ slugify province
     ++ lit ".json"] /\
  parent (path_join out (elections_index year province)) = out /\
  ~ In SLASH (lit "elections_" ++ str_of_int year ++ lit "_"
              ++ slugify province ++ lit ".json").
Proof.
  intros Ha.
  assert (Hs : forallb (fun c => negb (c =? SLASH))
                 (lit "elections_" ++ str_of_int year ++ lit "_"
                  ++ slugify province ++ lit ".json") = true).
  { rewrite !forallb_app. rewrite !andb_true_iff.
    split; [reflexivity|]. split.
    { pose proof (str_of_int_chars year) as Hy.
      rewrite forallb_forall in Hy. apply forallb_forall. intros c Hc.
      specialize (Hy c Hc). apply negb_true_iff, N.eqb_neq. intros ->.
      discriminate. }
    split; [reflexivity|]. split; [|reflexivity].
    apply forallb_forall. intros c Hc. apply negb_true_iff, N.eqb_neq.
    intros ->. pose proof (slugify_word_or_hyphen province) as Hw.
    rewrite List.Forall_forall in Hw. destruct (Hw _ Hc) as [Hi|Hi];
      [|discriminate].
    unfold is_word in Hi. rewrite (Ha SLASH eq_refl) in Hi. discriminate. }
  assert (He : elections_index year province
               = [lit "elections_" ++ str_of_int year ++ lit "_"
                  ++ slugify province ++ lit ".json"]).
  { unfold elections_index, Path. rewrite split_slash_no_slash by exact Hs.
    reflexivity. }
  split; [exact He|]. split.
  - rewrite He. unfold parent, path_join. apply removelast_last.
  - intros Hin. rewrite forallb_forall in Hs. specialize (Hs _ Hin).
    rewrite N.eqb_refl in Hs. discriminate.
Qed.

(** ** [ElectionsScraper.run] *)

Lemma dict_keys_set_indep (k v v' : pystr) (d d' : record) :
  dict_keys d = dict_keys d' ->
  dict_keys (dict_set k v d) = dict_keys (dict_set k v' d').
Proof.
  revert d'. induction d as [|[k1 v1] d IH]; intros [|[k1' v1'] d'] H;
    cbn in H; try discriminate; [reflexivity|].
  injection H as <- H. cbn. destruct (str_eqb k k1); cbn.
  - congruence.
  - f_equal. apply IH, H.
Qed.

Lemma dict_zip_keys_indep (headers cells cells' : list pystr)
    (acc acc' : record) :
  length cells = length cells' ->
  dict_keys acc = dict_keys acc' ->
  dict_keys (fold_left (fun d kv => dict_set (fst kv) (snd kv) d)
               (combine headers cells) acc)
  = dict_keys (fold_left (fun d kv => dict_set (fst kv) (snd kv) d)
                 (combine headers cells') acc').
Proof.
  revert cells cells' acc acc'. induction headers as [|h hs IH];
    intros cells cells' acc acc' Hl Ha; [exact Ha|].
  destruct cells as [|c cs], cells' as [|c' cs']; cbn in Hl;
    try discriminate; [exact Ha|].
  cbn. apply IH; [lia|]. apply dict_keys_set_indep, Ha.
Qed.

(** X11. The records of one table share one schema: any two of them
    have the same keys in the same order, without repetition, and
    [source_url] is among them.  (Records of different tables of the
    page, which go to the same index, need not.) *)
Theorem elections_table_schema (url : pystr) (tbl : Table) (r1 r2 : record) :
  In r1 (table_records url tbl) -> In r2 (table_records url tbl) ->
  dict_keys r1 = dict_keys r2 /\
  List.NoDup (dict_keys r1) /\
  In (lit "source_url") (dict_keys r1).
Proof.
  unfold table_records. intros H1 H2.
  apply in_map_iff in H1 as (c1 & <- & H1).
  apply in_map_iff in H2 as (c2 & <- & H2).
  apply filter_In in H1 as [_ H1]. apply filter_In in H2 as [_ H2].
  unfold row_matches in H1, H2. apply Nat.eqb_eq in H1, H2.
  unfold row_item, dict_of_pairs. split; [|split].
  - apply dict_keys_set_indep. apply dict_zip_keys_indep; congruence.
  - apply dict_set_NoDup, dict_fold_NoDup. constructor.
  - apply dict_keys_set. left. reflexivity.
Qed.

Lemma net_same_refl (w : World) : net_same w w.
Proof. repeat split. Qed.

Lemma net_same_bind {A B} (c : M A) (k : A -> M B) :
  (forall w, net_same w (snd (c w))) ->
  (forall a w, net_same w (snd (k a w))) ->
  forall w, net_same w (snd (bind c k w)).
Proof.
  intros Hc Hk w. unfold bind. specialize (Hc w).
  destruct (c w) as [[e|a] w1]; cbn [snd] in *; [exact Hc|].
  specialize (Hk a w1). unfold net_same in *. congruence.
Qed.

Lemma net_same_for_loop {X S} (body : X -> S -> M S) :
  (forall x acc w, net_same w (snd (body x acc w))) ->
  forall xs acc w, net_same w (snd (for_loop body xs acc w)).
Proof.
  intros Hb xs. induction xs as [|x xs IH]; intros acc w.
  - apply net_same_refl.
  - cbn [for_loop]. apply net_same_bind; [apply Hb|]. intros a w1. apply IH.
Qed.

Lemma mkdir_parents_net (p : path) (w : World) :
  net_same w (snd (mkdir_parents p w)).
Proof.
  rewrite mkdir_parents_run.
  destruct (mkdir_prefixes _ _) as [[e f1]|f1]; reflexivity.
Qed.

Lemma open_w_net (p : path) (w : World) : net_same w (snd (open_w p w)).
Proof.
  unfold open_w, bind, get_fs. cbn.
  destruct (open_refused (fs w) p); reflexivity.
Qed.

Lemma fh_write_net (p : path) (ch : pystr) (w : World) :
  net_same w (snd (fh_write p ch w)).
Proof.
  unfold fh_write. destruct (utf8_encode ch); repeat split.
Qed.

(** [_save_json] leaves the network, the clock and the log alone. *)
Lemma _save_json_net (out : path) (data : list record) (rel : path)
    (w : World) :
  net_same w (snd (_save_json out data rel w)).
Proof.
  unfold _save_json. cbv zeta.
  apply net_same_bind; [apply mkdir_parents_net|]. intros _ w1.
  apply net_same_bind; [apply open_w_net|]. intros _ w2.
  apply net_same_bind; [|intros; apply net_same_refl].
  unfold json_dump. apply net_same_for_loop. intros ch [] w3.
  apply fh_write_net.
Qed.

(** Every course of [ElectionsScraper.run]. *)
Lemma ElectionsScraper_run_cases (out : path) (year : Z) (province : pystr)
    (w : World) :
  ElectionsScraper_run out year province w =
  match http_get (length (requests w)) (elections_url year province) with
  | inl e => (inl e, elections_requested year province w)
  | inr r =>
      match render_find_tables r with
      | inl e => (inl e, elections_rendered year province w)
      | inr [] =>
          (inl (RuntimeError NO_TABLE_MSG),
           elections_rendered year province w)
      | inr tables =>
          bind (_save_json out
                  (election_results (elections_url year province) tables)
                  (elections_index year province))
               (fun _ =>
                  log INFO (lit "Saved %d result rows")
                    [LInt (Z.of_nat
                             (length (election_results
                                        (elections_url year province)
                                        tables)))])
               (elections_rendered year province w)
      end
  end.
Proof.
  unfold ElectionsScraper_run.
  unfold bind at 1. unfold log at 1, emit at 1. cbv beta iota zeta.
  unfold bind at 1. unfold session_get.
  rewrite requests_did. cbn [gets_of flat_map]. rewrite app_nil_r.
  unfold elections_rendered, elections_requested. rewrite !did_did.
  cbn [app].
  destruct (http_get (length (requests w)) (elections_url year province))
    as [e|r]; [reflexivity|]. cbv beta iota.
  unfold bind at 1. unfold html_render_find, bind at 1, emit at 1.
  cbv beta iota. rewrite did_did. cbn [app].
  destruct (render_find_tables r) as [e|[|t ts]]; [reflexivity..|].
  unfold ret at 1. cbv beta iota.
  unfold bind at 1. rewrite elections_tables_run. reflexivity.
Qed.

(** X12. [ElectionsScraper.run] issues exactly one GET, for the results
    page, and never retries it or calls [time.sleep].  When the GET
    raises, the run ends with that error.  When it returns, the next
    thing the run does is to render the page once in the browser (a
    reload, a wait of 2 seconds, a timeout of 60); when rendering raises,
    or when the rendered page has no table (then with the [RuntimeError]
    "No table found ..."), the run ends with that error.  In these three
    cases nothing has been written. *)
Theorem ElectionsScraper_run_single_request (out : path) (year : Z)
    (province : pystr) (w : World) :
  let url := elections_url year province in
  let res := ElectionsScraper_run out year province w in
  requests (snd res) = requests w ++ [url] /\
  sleeps (snd res) = sleeps w /\
  (forall e, http_get (length (requests w)) url = inl e ->
             res = (inl e, elections_requested year province w)) /\
  (forall r, http_get (length (requests w)) url = inr r ->
             exists tail,
               trace (snd res)
               = trace w
                 ++ [ELog (mkLog INFO
                             (lit "Fetching election results for province = %s")
                             [LStr province]);
                     EGet url; ERender url 2 60] ++ tail) /\
  (forall r e, http_get (length (requests w)) url = inr r ->
               render_find_tables r = inl e ->
               res = (inl e, elections_rendered year province w)) /\
  (forall r, http_get (length (requests w)) url = inr r ->
             render_find_tables r = inr [] ->
             res = (inl (RuntimeError NO_TABLE_MSG),
                    elections_rendered year province w)) /\
  fs (elections_rendered year province w) = fs w /\
  fs (elections_requested year province w) = fs w.
Proof.
  cbv zeta. rewrite ElectionsScraper_run_cases.
  assert (Hrq : requests (elections_rendered year province w)
                = requests w ++ [elections_url year province])
    by (unfold elections_rendered, elections_requested;
        rewrite !requests_did, <- app_assoc; reflexivity).
  assert (Hsl : sleeps (elections_rendered year province w) = sleeps w)
    by (unfold elections_rendered, elections_requested;
        rewrite !sleeps_did, <- app_assoc; apply app_nil_r).
  assert (Htr : trace (elections_rendered year province w)
                = trace w
                  ++ [ELog (mkLog INFO
                              (lit "Fetching election results for province = %s")
                              [LStr province]);
                      EGet (elections_url year province);
                      ERender (elections_url year province) 2 60])
    by (unfold elections_rendered, elections_requested, did;
        cbn [trace]; rewrite <- app_assoc; reflexivity).
  destruct (http_get (length (requests w)) (elections_url year province))
    as [e|r] eqn:Hg.
  { cbn [snd].
    split; [unfold elections_requested; rewrite requests_did; reflexivity|].
    split; [unfold elections_requested; rewrite sleeps_did;
            apply app_nil_r|].
    split; [intros e0 H; injection H as <-; reflexivity|].
    repeat split; intros; discriminate. }
  assert (Hend : forall x : Exc + unit,
            requests (snd (x, elections_rendered year province w))
            = requests w ++ [elections_url year province] /\
            sleeps (snd (x, elections_rendered year province w)) = sleeps w /\
            (forall e : Exc, @inr Exc Response r = inl e ->
               (x, elections_rendered year province w)
               = (inl e, elections_requested year province w)) /\
            (forall r0 : Response, @inr Exc Response r = inr r0 ->
               exists tail,
                 trace (snd (x, elections_rendered year province w))
                 = trace w
                   ++ [ELog (mkLog INFO
                               (lit "Fetching election results for province = %s")
                               [LStr province]);
                       EGet (elections_url year province);
                       ERender (elections_url year province) 2 60] ++ tail)).
  { intros x. cbn [snd]. split; [exact Hrq|]. split; [exact Hsl|].
    split; [intros; discriminate|]. intros r0 _. exists [].
    rewrite app_nil_r. exact Htr. }
  destruct (render_find_tables r) as [e|tables] eqn:Hr.
  { destruct (Hend (inl e)) as (E1 & E2 & E3 & E4).
    split; [exact E1|]. split; [exact E2|]. split; [exact E3|].
    split; [exact E4|]. split.
    - intros r0 e0 H H2. injection H as <-. rewrite Hr in H2.
      injection H2 as <-. reflexivity.
    - split; [|split; reflexivity].
      intros r0 H H2. injection H as <-. rewrite Hr in H2. discriminate. }
  destruct tables as [|t ts].
  { destruct (Hend (inl (RuntimeError NO_TABLE_MSG))) as (E1 & E2 & E3 & E4).
    split; [exact E1|]. split; [exact E2|]. split; [exact E3|].
    split; [exact E4|]. split.
    - intros r0 e0 H H2. injection H as <-. rewrite Hr in H2. discriminate.
    - split; [|split; reflexivity]. intros r0 H _. reflexivity. }
  unfold bind.
  match goal with
  | |- context [_save_json out ?d ?p ?w1] =>
      pose proof (_save_json_net out d p w1) as R;
      destruct (_save_json out d p w1) as [[e|p1] w2]
  end; unfold net_same in R; cbn [fst snd] in *.
  - split; [unfold requests; rewrite R; exact Hrq|].
    split; [unfold sleeps; rewrite R; exact Hsl|].
    split; [intros; discriminate|]. split.
    { intros r0 _. exists []. rewrite app_nil_r, R. exact Htr. }
    split.
    + intros r0 e0 H H2. injection H as <-. rewrite Hr in H2. discriminate.
    + split; [|split; reflexivity].
      intros r0 H H2. injection H as <-. rewrite Hr in H2. discriminate.
  - unfold log, emit. cbn [snd].
    split; [rewrite requests_did; unfold requests at 1; rewrite R;
            fold (requests (elections_rendered year province w));
            rewrite Hrq; apply app_nil_r|].
    split; [rewrite sleeps_did; unfold sleeps at 1; rewrite R;
            fold (sleeps (elections_rendered year province w));
            rewrite Hsl; apply app_nil_r|].
    split; [intros; discriminate|]. split.
    { intros r0 _. eexists. unfold did. cbn [trace]. rewrite R, Htr.
      rewrite <- app_assoc. reflexivity. }
    split.
    + intros r0 e0 H H2. injection H as <-. rewrite Hr in H2. discriminate.
    + split; [|split; reflexivity].
      intros r0 H H2. injection H as <-. rewrite Hr in H2. discriminate.
Qed.

Lemma row_item_NoDup (url : pystr) (headers cells : list pystr) :
  List.NoDup (dict_keys (row_item url headers cells)).
Proof.
  unfold row_item, dict_of_pairs.
  apply dict_set_NoDup, dict_fold_NoDup. constructor.
Qed.

Lemma election_results_NoDup (url : pystr) (tables : list Table) :
  Forall (fun r => List.NoDup (dict_keys r)) (election_results url tables).
Proof.
  apply List.Forall_forall. intros r Hr. unfold election_results in Hr.
  apply in_flat_map in Hr as (tbl & _ & Hr). unfold table_records in Hr.
  apply in_map_iff in Hr as (cells & <- & _). apply row_item_NoDup.
Qed.

(** X13. When [ElectionsScraper.run] ends normally, the page was fetched
    and had tables, and the index file, read back as UTF-8 JSON, is
    exactly the list of the records of the tables (one per row with as
    many cells as headers, table after table); the last log line reports
    their number. *)
Theorem ElectionsScraper_run_index_reads_back (out : path) (year : Z)
    (province : pystr) (w w' : World) :
  ElectionsScraper_run out year province w = (inr tt, w') ->
  exists r tables bytes,
    http_get (length (requests w)) (elections_url year province) = inr r /\
    render_find_tables r = inr tables /\ tables <> [] /\
    files (fs w') !! path_join out (elections_index year province)
    = Some bytes /\
    json_load_bytes bytes
    = Some (election_results (elections_url year province) tables) /\
    last (logs w')
    = Some (mkLog INFO (lit "Saved %d result rows")
              [LInt (Z.of_nat
                       (length (election_results
                                  (elections_url year province) tables)))]).
Proof.
  rewrite ElectionsScraper_run_cases. intros H.
  destruct (http_get (length (requests w)) (elections_url year province))
    as [e|r] eqn:Hg; [discriminate|].
  destruct (render_find_tables r) as [e|tables] eqn:Hr; [discriminate|].
  destruct tables as [|t ts]; [discriminate|].
  apply bind_inr in H as (p & w2 & Hs & Hl).
  apply _save_json_reads_back in Hs as (-> & bytes & _ & Hf & Hj).
  unfold log, emit in Hl. injection Hl as <-.
  exists r, (t :: ts), bytes. split; [reflexivity|]. split; [exact Hr|].
  split; [discriminate|]. split; [exact Hf|].
  split; [apply Hj, election_results_NoDup|].
  rewrite logs_did. apply last_snoc.
Qed.

(** ** Download loops *)

Lemma singleton_inj {A : Type} (x y : A) : [x] = [y] -> x = y.
Proof using Type. intros H. injection H as H. exact H. Qed.

Lemma stored_name_inj (dir : path) (b b' : list byte) :
  stored_name dir b = stored_name dir b' -> sha1 b = sha1 b'.
Proof.
  unfold stored_name, path_join. rewrite !Path_digest_name. intros H.
  apply app_inv_head in H. apply singleton_inj in H.
  apply app_inv_tail in H. exact H.
Qed.

Lemma stored_ok_after_store (out dir : path) (f f' : FS) (b : list byte)
    (r : record) :
  files f' !! path_join out (stored_name dir b) = Some b ->
  (forall q, q <> path_join out (stored_name dir b) ->
             files f' !! q = files f !! q) ->
  stored_ok out dir f r -> stored_ok out dir f' r.
Proof.
  intros Hnew Hother (b0 & b0' & Hs & Hf & Hl & Hd).
  destruct (decide (path_join out (stored_name dir b0)
                    = path_join out (stored_name dir b))) as [E|E].
  - exists b0, b. split; [exact Hs|]. split; [exact Hf|].
    rewrite E. split; [exact Hnew|]. symmetry. apply (stored_name_inj dir).
    unfold path_join in E. apply app_inv_head in E. exact E.
  - exists b0, b0'. split; [exact Hs|]. split; [exact Hf|].
    rewrite (Hother _ E). auto.
Qed.

(** The loop of a download sub-extraction that ends normally: one record
    per link, in order, every record naming a stored document. *)
Lemma download_loop_strong (out dir : path) (geturl : Tag -> M pystr)
    (mk : Tag -> pystr -> list byte -> record)
    (linked : Tag -> record -> Prop)
    (body : Tag -> list record -> M (list record)) :
  download_step out dir geturl mk linked body ->
  forall links idx w idx' w',
    for_loop body links idx w = (inr idx', w') ->
    Forall (stored_ok out dir (fs w)) idx ->
    Forall (fun r => List.NoDup (dict_keys r)) idx ->
    exists new,
      idx' = idx ++ new /\ Forall2 linked links new /\
      Forall (stored_ok out dir (fs w')) idx' /\
      Forall (fun r => List.NoDup (dict_keys r)) idx' /\
      (forall q, (forall b, q <> path_join out (stored_name dir b)) ->
                 files (fs w') !! q = files (fs w) !! q).
Proof.
  intros (Hu & Hlink & Hsha & Hfile & Hnd & Hb) links.
  induction links as [|a links IH]; intros idx w idx' w' H Hok Hk.
  - cbn in H. injection H as <- <-. exists []. rewrite app_nil_r.
    split; [reflexivity|]. split; [constructor|]. auto.
  - cbn [for_loop] in H. apply bind_inr in H as (idx1 & w1 & H1 & H2).
    rewrite Hb in H1. apply bind_inr in H1 as (u & w0 & Hg & H1).
    pose proof (Hu a w) as Hw0. rewrite Hg in Hw0. cbn in Hw0. subst w0.
    apply bind_inr in H1 as (resp & wr & Hr & H1).
    pose proof (safe_request_fs u w) as Hfs. rewrite Hr in Hfs. cbn in Hfs.
    apply bind_inr in H1 as (p & ws & Hs & H1).
    unfold ret in H1. injection H1 as <- <-.
    apply _save_binary_stored in Hs as (-> & Hnew & Hother).
    rewrite Hfs in Hother.
    assert (Hok1 : Forall (stored_ok out dir (fs ws))
                     (idx ++ [mk a u (content resp)])).
    { apply Forall_app. split.
      - eapply List.Forall_impl; [|exact Hok]. intros r.
        apply (stored_ok_after_store out dir (fs w) (fs ws) (content resp));
          assumption.
      - constructor; [|constructor].
        exists (content resp), (content resp). auto. }
    assert (Hk1 : Forall (fun r => List.NoDup (dict_keys r))
                    (idx ++ [mk a u (content resp)])).
    { apply Forall_app. split; [exact Hk|]. constructor; [apply Hnd|].
      constructor. }
    destruct (IH _ _ _ _ H2 Hok1 Hk1) as (new & -> & Hl & Ho & Hn & Hq).
    exists (mk a u (content resp) :: new). rewrite <- app_assoc.
    split; [reflexivity|]. split.
    { constructor; [|exact Hl]. apply (Hlink a u (content resp) w).
      rewrite Hg. reflexivity. }
    rewrite <- app_assoc in Ho, Hn. split; [exact Ho|]. split; [exact Hn|].
    intros q Hq'. rewrite (Hq q Hq'). apply Hother, Hq'.
Qed.

(** The generic form of the property of normal ends. *)
Lemma sub_extraction_normal_end (url : pystr) (sel : pystr -> list Tag)
    (geturl : Tag -> M pystr) (mk : Tag -> pystr -> list byte -> record)
    (linked : Tag -> record -> Prop)
    (body : Tag -> list record -> M (list record))
    (out dir index_rel : path) (tail : list record -> M unit) :
  download_step out dir geturl mk linked body ->
  (forall idx w, fs (snd (tail idx w)) = fs w) ->
  length index_rel <> S (length dir) ->
  normal_end_reads_back
    (sub_extraction url sel body out index_rel tail)
    url sel linked out dir index_rel.
Proof.
  intros Hstep Htail Hlen w w' H.
  unfold sub_extraction in H.
  apply bind_inr in H as (resp & w1 & Hreq & H).
  apply bind_inr in H as (idx & w2 & Hloop & H).
  apply bind_inr in H as (p & w3 & Hsave & H).
  pose proof (Htail idx w3) as Ht. rewrite H in Ht. cbn in Ht.
  pose proof (safe_request_fs url w) as Hfs. rewrite Hreq in Hfs.
  cbn [snd] in Hfs.
  destruct (download_loop_strong out dir geturl mk linked body
              Hstep _ _ _ _ _ Hloop)
    as (new & -> & Hl & Ho & Hn & Hq); [constructor|constructor|].
  cbn [app] in *.
  apply _save_json_reads_back in Hsave as (-> & bytes & Hw & Hf & Hj).
  rewrite Hw in Hf, Ht.
  exists resp, w1, new. split; [exact Hreq|]. split; [exact Hl|].
  rewrite Ht. split; [exists bytes; split; [exact Hf|exact (Hj Hn)]|].
  split.
  - eapply List.Forall_impl; [|exact Ho].
    intros r (b & b' & Hs & Hfl & Hlk & Hd). exists b, b'.
    split; [exact Hs|]. split; [exact Hfl|]. split; [|exact Hd].
    cbn [fs with_fs fs_written files].
    rewrite lookup_insert_ne; [exact Hlk|].
    intros E. apply (f_equal (@length _)) in E. unfold path_join in E.
    rewrite !length_app, stored_name_length in E. lia.
  - intros q Hq1 Hq2. cbn [fs with_fs fs_written files].
    rewrite lookup_insert_ne by congruence.
    rewrite (Hq q Hq2), Hfs. reflexivity.
Qed.


Lemma resolve_href_linked (a : Tag) (u : pystr) (w : World) (r : record) :
  fst (resolve_href a w) = inr u ->
  dict_get (lit "source_url") r = Some u -> commune_linked a r.
Proof.
  intros H Hr. destruct (tag_attr a) as [h|] eqn:E.
  - rewrite (resolve_href_some _ _ _ E) in H. injection H as <-.
    exists h. auto.
  - rewrite (resolve_href_none _ _ E) in H. discriminate.
Qed.

Lemma subscript_linked (a : Tag) (u : pystr) (w : World) (r : record) :
  fst (subscript (lit "href") (Some a) w) = inr u ->
  dict_get (lit "source_url") r = Some u -> region_linked a r.
Proof.
  unfold subscript. intros H Hr. destruct (tag_attr a) as [h|] eqn:E.
  - injection H as <-. exists h. auto.
  - discriminate.
Qed.

Ltac literal_keys :=
  intros; clear_env; cbn [dict_keys List.map map fst];
  repeat (constructor; [cbn; intuition discriminate|]); constructor.

Lemma minutes_step (out : path) :
  download_step out (Path (lit "commune/minutes")) resolve_href
    (fun a u b =>
       [(lit "title", tag_text a); (lit "source_url", u);
        (lit "sha1", sha1 b);
        (lit "file",
         path_str (stored_name (Path (lit "commune/minutes")) b))])
    commune_linked (minutes_link out).
Proof.
  split; [apply resolve_href_world|]. split.
  { intros a u b w H. apply (resolve_href_linked a u w); [exact H|].
    reflexivity. }
  split; [reflexivity|]. split; [reflexivity|].
  split; [literal_keys|reflexivity].
Qed.

Lemma budgets_step (out : path) :
  download_step out (Path (lit "commune/budgets")) resolve_href
    (fun a u b =>
       [(lit "year", budget_year u); (lit "source_url", u);
        (lit "sha1", sha1 b);
        (lit "file",
         path_str (stored_name (Path (lit "commune/budgets")) b))])
    commune_linked (budgets_link out).
Proof.
  split; [apply resolve_href_world|]. split.
  { intros a u b w H. apply (resolve_href_linked a u w); [exact H|].
    reflexivity. }
  split; [reflexivity|]. split; [reflexivity|].
  split; [literal_keys|reflexivity].
Qed.

Lemma sessions_step (out : path) :
  download_step out (Path (lit "region/sessions"))
    (fun a => subscript (lit "href") (Some a))
    (fun a u b =>
       [(lit "title", tag_text a); (lit "source_url", u);
        (lit "sha1", sha1 b);
        (lit "file",
         path_str (stored_name (Path (lit "region/sessions")) b))])
    region_linked (sessions_link out).
Proof.
  split; [intros a w; apply subscript_world|]. split.
  { intros a u b w H. apply (subscript_linked a u w); [exact H|].
    reflexivity. }
  split; [reflexivity|]. split; [reflexivity|].
  split; [literal_keys|reflexivity].
Qed.

Lemma region_budgets_step (out : path) :
  download_step out (Path (lit "region/budgets"))
    (fun a => subscript (lit "href") (Some a))
    (fun a u b =>
       [(lit "source_url", u); (lit "sha1", sha1 b);
        (lit "file",
         path_str (stored_name (Path (lit "region/budgets")) b))])
    region_linked (region_budgets_link out).
Proof.
  split; [intros a w; apply subscript_world|]. split.
  { intros a u b w H. apply (subscript_linked a u w); [exact H|].
    reflexivity. }
  split; [reflexivity|]. split; [reflexivity|].
  split; [literal_keys|reflexivity].
Qed.

Lemma minutes_normal_end (out : path) :
  normal_end_reads_back (_scrape_minutes out)
    (_url MINUTES_SLUG) select_pdf_links commune_linked out
    (Path (lit "commune/minutes")) (Path (lit "commune/minutes_index.json")).
Proof.
  apply (sub_extraction_normal_end _ _ _ _ _ _ _ _ _ (fun _ => ret tt)
           (minutes_step out)); [reflexivity|vm_compute; discriminate].
Qed.

Lemma budgets_normal_end (out : path) :
  normal_end_reads_back (_scrape_budgets out)
    (_url BUDGETS_SLUG) select_pdf_links commune_linked out
    (Path (lit "commune/budgets")) (Path (lit "commune/budgets_index.json")).
Proof.
  apply (sub_extraction_normal_end _ _ _ _ _ _ _ _ _
           (fun idx => log INFO (lit "Budgets: %d")
                         [LInt (Z.of_nat (length idx))])
           (budgets_step out)); [reflexivity|vm_compute; discriminate].
Qed.

Lemma sessions_normal_end (out : path) :
  normal_end_reads_back (region_scrape_sessions out)
    (REGION_BASE ++
     lit "/category/%D8%AF%D9%88%D8%B1%D8%A7%D8%AA-%D8%A7%D9%84%D9%85%D8%AC%D9%84%D8%B3")
    select_article_pdf_links region_linked out
    (Path (lit "region/sessions")) (Path (lit "region/sessions_index.json")).
Proof.
  apply (sub_extraction_normal_end _ _ _ _ _ _ _ _ _
           (fun idx => log INFO (lit "Regional sessions: %d")
                         [LInt (Z.of_nat (length idx))])
           (sessions_step out)); [reflexivity|vm_compute; discriminate].
Qed.

Lemma region_budgets_normal_end (out : path) :
  normal_end_reads_back (region_scrape_budgets out)
    (REGION_BASE ++
     lit "/category/%D9%85%D9%8A%D8%B2%D8%A7%D9%86%D9%8A%D8%A7%D8%AA")
    select_article_pdf_links region_linked out
    (Path (lit "region/budgets")) (Path (lit "region/budgets_index.json")).
Proof.
  apply (sub_extraction_normal_end _ _ _ _ _ _ _ _ _
           (fun idx => log INFO (lit "Regional budgets: %d")
                         [LInt (Z.of_nat (length idx))])
           (region_budgets_step out)); [reflexivity|vm_compute; discriminate].
Qed.





(** X14. A download sub-extraction (commune minutes and budgets, regional
    sessions and budgets) that ends normally has written an index that
    reads back as one record per link of the listing page, in the order
    of the links and with the link's address as [source_url]; every
    record's [file] is the path of its [sha1] under the documents
    directory, and the file stored there has that digest.  Every file
    other than the index and the documents of that directory is as it
    was before the step. *)
Theorem download_index_reads_back (out : path) :
  normal_end_reads_back (_scrape_minutes out)
    (_url MINUTES_SLUG) select_pdf_links commune_linked out
    (Path (lit "commune/minutes")) (Path (lit "commune/minutes_index.json"))
  /\
  normal_end_reads_back (_scrape_budgets out)
    (_url BUDGETS_SLUG) select_pdf_links commune_linked out
    (Path (lit "commune/budgets")) (Path (lit "commune/budgets_index.json"))
  /\
  normal_end_reads_back (region_scrape_sessions out)
    (REGION_BASE ++
     lit "/category/%D8%AF%D9%88%D8%B1%D8%A7%D8%AA-%D8%A7%D9%84%D9%85%D8%AC%D9%84%D8%B3")
    select_article_pdf_links region_linked out
    (Path (lit "region/sessions")) (Path (lit "region/sessions_index.json"))
  /\
  normal_end_reads_back (region_scrape_budgets out)
    (REGION_BASE ++
     lit "/category/%D9%85%D9%8A%D8%B2%D8%A7%D9%86%D9%8A%D8%A7%D8%AA")
    select_article_pdf_links region_linked out
    (Path (lit "region/budgets")) (Path (lit "region/budgets_index.json")).
Proof.
  split; [apply minutes_normal_end|].
  split; [apply budgets_normal_end|].
  split; [apply sessions_normal_end|apply region_budgets_normal_end].
Qed.


(** ** The commune roster *)

Lemma roster_card_err (url : pystr) (c : RosterCard) (idx : list record)
    (w : World) (e : Exc) :
  roster_error c = Some e -> roster_card url c idx w = (inl e, w).
Proof.
  unfold roster_error, roster_card, bind, get_text, subscript, raise, ret.
  destruct (rc_h3 c) as [n|]; [|intros [= <-]; reflexivity].
  destruct (rc_img c) as [img|]; [|intros [= <-]; reflexivity].
  destruct (tag_attr img) as [s|]; [discriminate|].
  intros [= <-]. reflexivity.
Qed.

Lemma roster_card_ok (url : pystr) (c : RosterCard) (idx : list record)
    (w : World) :
  roster_error c = None ->
  exists r, roster_card url c idx w = (inr (idx ++ [r]), w) /\
            roster_member url c r.
Proof.
  unfold roster_error, roster_card, roster_member, bind, get_text,
    subscript, raise, ret.
  destruct (rc_h3 c) as [n|]; [|discriminate].
  destruct (rc_img c) as [img|]; [|discriminate].
  destruct (tag_attr img) as [s|] eqn:E; [|discriminate].
  intros _. eexists. split; [reflexivity|]. exists n, img, s. auto.
Qed.

Lemma roster_loop_inr (url : pystr) (cards : list RosterCard)
    (idx idx' : list record) (w w' : World) :
  for_loop (roster_card url) cards idx w = (inr idx', w') ->
  w' = w /\
  exists new, idx' = idx ++ new /\ Forall2 (roster_member url) cards new.
Proof.
  revert idx. induction cards as [|c cards IH]; intros idx H.
  - cbn in H. injection H as <- <-. split; [reflexivity|]. exists [].
    rewrite app_nil_r. split; [reflexivity|constructor].
  - cbn [for_loop] in H. apply bind_inr in H as (idx1 & w1 & H1 & H2).
    destruct (roster_error c) as [e|] eqn:E.
    { rewrite (roster_card_err _ _ _ _ _ E) in H1. discriminate. }
    destruct (roster_card_ok url c idx w E) as (r & Hr & Hm).
    rewrite Hr in H1. injection H1 as <- <-.
    apply IH in H2 as (-> & new & -> & Hn). split; [reflexivity|].
    exists (r :: new). rewrite <- app_assoc. split; [reflexivity|].
    constructor; assumption.
Qed.

Lemma roster_loop_ok (url : pystr) (cards : list RosterCard)
    (idx : list record) (w : World) :
  Forall (fun c => roster_error c = None) cards ->
  exists new, for_loop (roster_card url) cards idx w = (inr (idx ++ new), w).
Proof.
  intros H. revert idx.
  induction H as [|c cards Hc _ IH]; intros idx.
  - exists []. rewrite app_nil_r. reflexivity.
  - destruct (roster_card_ok url c idx w Hc) as (r & Hr & _).
    destruct (IH (idx ++ [r])) as (new & Hn). exists (r :: new).
    cbn [for_loop]. rewrite (bind_ok _ _ _ _ _ Hr), Hn, <- app_assoc.
    reflexivity.
Qed.

Lemma roster_member_NoDup (url : pystr) (c : RosterCard) (r : record) :
  roster_member url c r -> List.NoDup (dict_keys r).
Proof. intros (n & img & s & _ & _ & _ & ->). literal_keys. Qed.

(** X15. A roster card without [h3], without [img] or whose [img] has no
    [src] aborts the run: after the cards before it were read, the
    roster step fails with [AttributeError], [TypeError] or
    [KeyError("src")], and so does the whole commune run, in the state
    the fetch of the roster page left: no file is written, and neither
    the minutes nor the budgets are requested. *)
Theorem roster_malformed_card_aborts_commune (out : path) (w w1 : World)
    (resp : Response) (good rest : list RosterCard) (c : RosterCard)
    (e : Exc) :
  safe_request (_url ROSTER_SLUG) w = (inr resp, w1) ->
  select_roster (text resp) = good ++ c :: rest ->
  Forall (fun c => roster_error c = None) good ->
  roster_error c = Some e ->
  _scrape_roster out w = (inl e, w1) /\
  CommuneScraper_run out w = (inl e, w1) /\
  fs w1 = fs w /\
  (e = AttributeError \/ e = TypeError \/ e = KeyError (lit "src")).
Proof.
  intros Hreq Hsel Hgood Hc.
  assert (H : _scrape_roster out w = (inl e, w1)).
  { unfold _scrape_roster. cbv zeta. rewrite (bind_ok _ _ _ _ _ Hreq).
    apply bind_err. rewrite Hsel, for_loop_app.
    destruct (roster_loop_ok (_url ROSTER_SLUG) good [] w1 Hgood)
      as (new & Hn).
    rewrite (bind_ok _ _ _ _ _ Hn). cbn [for_loop]. apply bind_err.
    apply roster_card_err, Hc. }
  split; [exact H|]. split.
  { unfold CommuneScraper_run. apply bind_err, H. }
  split.
  { pose proof (safe_request_fs (_url ROSTER_SLUG) w) as Hf.
    rewrite Hreq in Hf. exact Hf. }
  unfold roster_error in Hc. destruct (rc_h3 c); [|injection Hc; auto].
  destruct (rc_img c) as [img|]; [|injection Hc; auto].
  destruct (tag_attr img); [discriminate|injection Hc; auto].
Qed.

Lemma _scrape_roster_normal_end (out : path) (w w' : World) :
  _scrape_roster out w = (inr tt, w') ->
  exists resp w1 members,
    safe_request (_url ROSTER_SLUG) w = (inr resp, w1) /\
    Forall2 (roster_member (_url ROSTER_SLUG))
            (select_roster (text resp)) members /\
    index_reads_back (fs w') out (Path (lit "commune/roster.json")) members /\
    last (logs w')
    = Some (mkLog INFO (lit "Roster: %d members")
              [LInt (Z.of_nat (length (select_roster (text resp))))]) /\
    (forall q, q <> path_join out (Path (lit "commune/roster.json")) ->
               files (fs w') !! q = files (fs w) !! q).
Proof.
  unfold _scrape_roster. cbv zeta. intros H.
  apply bind_inr in H as (resp & w1 & Hreq & H).
  apply bind_inr in H as (members & w2 & Hloop & H).
  apply bind_inr in H as (p & w3 & Hsave & H).
  pose proof (safe_request_fs (_url ROSTER_SLUG) w) as Hfs.
  rewrite Hreq in Hfs. cbn [snd] in Hfs.
  apply roster_loop_inr in Hloop as (-> & new & -> & Hn). cbn [app] in *.
  apply _save_json_reads_back in Hsave as (-> & bytes & -> & Hf & Hj).
  unfold log, emit in H. injection H as <-.
  exists resp, w1, new. split; [exact Hreq|]. split; [exact Hn|].
  split.
  { exists bytes. split; [exact Hf|]. apply Hj. clear -Hn.
    induction Hn as [|c r cs rs Hm _ IH]; constructor.
    - exact (roster_member_NoDup _ _ _ Hm).
    - exact IH. }
  split.
  { rewrite logs_did. cbn [logs_of flat_map app]. rewrite last_snoc.
    rewrite (Forall2_length _ _ _ Hn). reflexivity. }
  intros q Hq. cbn [fs did with_fs fs_written files].
  rewrite lookup_insert_ne by congruence. rewrite Hfs. reflexivity.
Qed.

(** X16. When the roster step ends normally, the index file
    [commune/roster.json], read back as UTF-8 JSON, holds one record per
    card of the roster page, in the order of the cards: the card's name,
    its position or the empty string when it has none, the address of
    its picture and the address of the page; the last log line reports
    the number of cards. *)
Theorem _scrape_roster_index_reads_back (out : path) (w w' : World) :
  _scrape_roster out w = (inr tt, w') ->
  exists resp w1 members bytes,
    safe_request (_url ROSTER_SLUG) w = (inr resp, w1) /\
    Forall2 (roster_member (_url ROSTER_SLUG))
            (select_roster (text resp)) members /\
    files (fs w') !! path_join out (Path (lit "commune/roster.json"))
    = Some bytes /\
    json_load_bytes bytes = Some members /\
    last (logs w')
    = Some (mkLog INFO (lit "Roster: %d members")
              [LInt (Z.of_nat (length (select_roster (text resp))))]).
Proof.
  intros H.
  apply _scrape_roster_normal_end in H
    as (resp & w1 & members & Hreq & Hn & (bytes & Hf & Hj) & Hl & _).
  exists resp, w1, members, bytes. auto.
Qed.


(** ** The parliament run *)

Lemma safe_request_inl (url : pystr) (w w' : World) (e : Exc) :
  safe_request url w = (inl e, w') -> e = RuntimeError (exhausted_msg url).
Proof.
  destruct (attempt (length (requests w)) url) as [e0|r0] eqn:H0.
  2:{ rewrite (safe_request_first _ _ _ H0). discriminate. }
  destruct (attempt (length (requests w) + 1) url) as [e1|r1] eqn:H1.
  2:{ rewrite (safe_request_second _ _ _ _ H0 H1). discriminate. }
  destruct (attempt (length (requests w) + 2) url) as [e2|r2] eqn:H2.
  2:{ rewrite (safe_request_third _ _ _ _ _ H0 H1 H2). discriminate. }
  rewrite (safe_request_exhausted _ _ _ _ _ H0 H1 H2). intros [= <- _].
  reflexivity.
Qed.

Lemma parliament_card_outcome (cons : pystr) (c : Card) (idx : list record)
    (w : World) :
  fs (snd (parliament_card cons c idx w)) = fs w /\
  match fst (parliament_card cons c idx w) with
  | inl e => fetch_error e
  | inr idx' =>
      if card_matches cons c
      then exists r, idx' = idx ++ [r] /\ profile_of_card cons c r
      else idx' = idx
  end.
Proof.
  unfold parliament_card, card_matches.
  destruct (contains cons (card_text c)); cbn [negb].
  2:{ split; reflexivity. }
  unfold bind, subscript, get_text, raise, ret, fetch_error.
  destruct (card_a c) as [link|] eqn:Ea; [|split; [reflexivity|cbn; auto]].
  destruct (tag_attr link) as [h|] eqn:Eh; [|split; [reflexivity|cbn; auto]].
  cbn [option_map].
  pose proof (safe_request_fs (PARLIAMENT_BASE ++ h) w) as Hf.
  destruct (safe_request (PARLIAMENT_BASE ++ h) w) as [[e|resp] w1] eqn:Hr;
    cbn [fst snd] in *.
  - split; [exact Hf|]. left. eexists. apply (safe_request_inl _ _ _ _ Hr).
  - split; [exact Hf|]. eexists. split; [reflexivity|].
    split.
    + split; [reflexivity|]. exists link, h. auto.
    + eexists. split; reflexivity.
Qed.

Lemma parliament_loop_outcome (cons : pystr) (cards : list Card)
    (idx : list record) (w : World) :
  fs (snd (for_loop (parliament_card cons) cards idx w)) = fs w /\
  match fst (for_loop (parliament_card cons) cards idx w) with
  | inl e => fetch_error e
  | inr idx' =>
      exists new,
        idx' = idx ++ new /\
        Forall2 (profile_of_card cons)
                (List.filter (card_matches cons) cards) new
  end.
Proof.
  revert idx w. induction cards as [|c cards IH]; intros idx w.
  - cbn. split; [reflexivity|]. exists []. rewrite app_nil_r.
    split; [reflexivity|constructor].
  - cbn [for_loop List.filter]. unfold bind.
    destruct (parliament_card_outcome cons c idx w) as [Hf Ho].
    destruct (parliament_card cons c idx w) as [[e|idx1] w1];
      cbn [fst snd] in *.
    { split; assumption. }
    destruct (IH idx1 w1) as [Hf' Ho']. rewrite Hf', Hf.
    split; [reflexivity|].
    destruct (for_loop (parliament_card cons) cards idx1 w1) as [[e|idx2] w2];
      cbn [fst snd] in *; [exact Ho'|].
    destruct Ho' as (new & -> & Hn).
    destruct (card_matches cons c).
    + destruct Ho as (r & -> & Hr). exists (r :: new).
      rewrite <- app_assoc. split; [reflexivity|]. constructor; assumption.
    + subst idx1. exists new. auto.
Qed.

Lemma profile_of_card_NoDup (cons : pystr) (c : Card) (r : record) :
  profile_of_card cons c r -> List.NoDup (dict_keys r).
Proof. intros (_ & party & _ & ->). literal_keys. Qed.

(** X17. When [ParliamentScraper.run] ends normally, the index file
    [parliament/members.json], read back as UTF-8 JSON, holds one record
    per card of the members page whose text contains the constituency,
    in the order of the cards, with the keys [name], [party],
    [constituency] and [profile_url]; the last log line reports their
    number. *)
Theorem ParliamentScraper_run_index_reads_back (out : path) (cons : pystr)
    (w w' : World) :
  ParliamentScraper_run out cons w = (inr tt, w') ->
  exists resp w1 idx bytes,
    safe_request (PARLIAMENT_BASE ++ lit "/ar/members") w = (inr resp, w1) /\
    Forall2 (profile_of_card cons)
            (List.filter (card_matches cons) (select_views_rows (text resp)))
            idx /\
    files (fs w') !! path_join out (Path (lit "parliament/members.json"))
    = Some bytes /\
    json_load_bytes bytes = Some idx /\
    last (logs w')
    = Some (mkLog INFO (lit "MP profiles saved: %d")
              [LInt (Z.of_nat (length idx))]).
Proof.
  unfold ParliamentScraper_run. cbv zeta. intros H.
  apply bind_inr in H as (resp & w1 & Hreq & H).
  apply bind_inr in H as (idx & w2 & Hloop & H).
  apply bind_inr in H as (p & w3 & Hsave & H).
  destruct (parliament_loop_outcome cons (select_views_rows (text resp))
              [] w1) as [_ Ho].
  rewrite Hloop in Ho. cbn [fst app] in Ho. destruct Ho as (new & -> & Hn).
  apply _save_json_reads_back in Hsave as (-> & bytes & -> & Hf & Hj).
  unfold log, emit in H. injection H as <-.
  exists resp, w1, new, bytes. split; [exact Hreq|]. split; [exact Hn|].
  split; [exact Hf|]. split.
  { apply Hj. clear -Hn. induction Hn as [|c r cs rs Hm _ IH]; constructor.
    - exact (profile_of_card_NoDup _ _ _ Hm).
    - exact IH. }
  rewrite logs_did. apply last_snoc.
Qed.

(** X18. A parliament run that fails either failed while reading the
    site (the retries of a URL were exhausted, a matching card had no
    link, or its link no [href]) and then left the output tree exactly
    as it was, or failed while writing the index, with [OSError] or
    [UnicodeEncodeError]. *)
Theorem ParliamentScraper_run_failures (out : path) (cons : pystr)
    (w w' : World) (e : Exc) :
  ParliamentScraper_run out cons w = (inl e, w') ->
  (fetch_error e /\ fs w' = fs w) \/
  (((exists q, e = OSError q) \/ e = UnicodeEncodeError) /\
   exists resp w1 idx w2,
     safe_request (PARLIAMENT_BASE ++ lit "/ar/members") w = (inr resp, w1) /\
     for_loop (parliament_card cons) (select_views_rows (text resp)) [] w1
     = (inr idx, w2) /\
     _save_json out idx (Path (lit "parliament/members.json")) w2
     = (inl e, w')).
Proof.
  unfold ParliamentScraper_run. cbv zeta. intros H.
  unfold bind at 1 in H.
  pose proof (safe_request_fs (PARLIAMENT_BASE ++ lit "/ar/members") w) as Hf.
  destruct (safe_request (PARLIAMENT_BASE ++ lit "/ar/members") w)
    as [[e0|resp] w1] eqn:Hreq; cbn [snd] in Hf.
  { injection H as <- <-. left. split; [|exact Hf]. left. eexists.
    apply (safe_request_inl _ _ _ _ Hreq). }
  unfold bind at 1 in H.
  destruct (parliament_loop_outcome cons (select_views_rows (text resp))
              [] w1) as [Hf1 Ho].
  destruct (for_loop (parliament_card cons) (select_views_rows (text resp))
              [] w1) as [[e1|idx] w2] eqn:Hloop; cbn [fst snd] in Hf1, Ho.
  { injection H as <- <-. left. split; [exact Ho|].
    rewrite Hf1. exact Hf. }
  unfold bind at 1 in H.
  destruct (_save_json out idx (Path (lit "parliament/members.json")) w2)
    as [[e2|p] w3] eqn:Hsave.
  2:{ unfold log, emit in H. discriminate. }
  injection H as <- <-. right. split.
  2:{ exists resp, w1, idx, w2. split; [reflexivity|].
      split; [exact Hloop|exact Hsave]. }
  apply _save_json_inl in Hsave as [[Hq _]|[Hu _]]; [left|right]; assumption.
Qed.


(** ** Whole runs *)

Lemma index_reads_back_frame (f f' : FS) (out rel : path)
    (idx : list record) :
  files f' !! path_join out rel = files f !! path_join out rel ->
  index_reads_back f out rel idx -> index_reads_back f' out rel idx.
Proof. intros E (bytes & Hf & Hj). exists bytes. rewrite E. auto. Qed.

Lemma stored_ok_frame (out dir : path) (f f' : FS) (idx : list record) :
  (forall b, files f' !! path_join out (stored_name dir b)
             = files f !! path_join out (stored_name dir b)) ->
  Forall (stored_ok out dir f) idx -> Forall (stored_ok out dir f') idx.
Proof.
  intros E. apply List.Forall_impl.
  intros r (b & b' & Hs & Hf & Hl & Hd). exists b, b'. rewrite E. auto.
Qed.

Lemma stored_name_dir (d1 d2 : path) (b1 b2 : list byte) :
  stored_name d1 b1 = stored_name d2 b2 -> d1 = d2.
Proof.
  unfold stored_name, path_join. rewrite !Path_digest_name. intros H.
  apply app_inj_tail in H as [H _]. exact H.
Qed.

Lemma index_not_stored (out rel dir : path) (b : list byte) :
  length rel <> S (length dir) ->
  path_join out rel <> path_join out (stored_name dir b).
Proof.
  intros Hlen E. unfold path_join in E. apply app_inv_head in E.
  apply (f_equal (@length _)) in E. rewrite stored_name_length in E. lia.
Qed.

Lemma stored_not_stored (out d1 d2 : path) (b1 b2 : list byte) :
  d1 <> d2 ->
  path_join out (stored_name d1 b1) <> path_join out (stored_name d2 b2).
Proof.
  intros Hd E. unfold path_join in E. apply app_inv_head in E.
  apply stored_name_dir in E. contradiction.
Qed.

Lemma index_not_index (out r1 r2 : path) :
  r1 <> r2 -> path_join out r1 <> path_join out r2.
Proof.
  intros Hd E. unfold path_join in E. apply app_inv_head in E.
  contradiction.
Qed.

Ltac closed_paths := vm_compute; discriminate.

(** X19. A commune run that ends normally ran the roster, the minutes
    and the budgets steps in this order, each to a normal end, and at
    the end all three index files read back as the records their steps
    collected: no step overwrites the index or the documents of an
    earlier one, and every minutes and budgets record still names a
    stored document with its digest. *)
Theorem CommuneScraper_run_normal_end (out : path) (w w' : World) :
  CommuneScraper_run out w = (inr tt, w') ->
  exists w1 w2 members minutes budgets,
    _scrape_roster out w = (inr tt, w1) /\
    _scrape_minutes out w1 = (inr tt, w2) /\
    _scrape_budgets out w2 = (inr tt, w') /\
    index_reads_back (fs w1) out (Path (lit "commune/roster.json")) members /\
    index_reads_back (fs w') out (Path (lit "commune/roster.json")) members /\
    index_reads_back (fs w2) out (Path (lit "commune/minutes_index.json"))
      minutes /\
    index_reads_back (fs w') out (Path (lit "commune/minutes_index.json"))
      minutes /\
    index_reads_back (fs w') out (Path (lit "commune/budgets_index.json"))
      budgets /\
    Forall (stored_ok out (Path (lit "commune/minutes")) (fs w')) minutes /\
    Forall (stored_ok out (Path (lit "commune/budgets")) (fs w')) budgets.
Proof.
  unfold CommuneScraper_run. intros H.
  apply bind_inr in H as ([] & w1 & H1 & H).
  apply bind_inr in H as ([] & w2 & H2 & H3).
  destruct (_scrape_roster_normal_end _ _ _ H1)
    as (_ & _ & members & _ & _ & Hr & _ & _).
  destruct (minutes_normal_end out _ _ H2)
    as (_ & _ & minutes & _ & _ & Hm & Hsm & Fm).
  destruct (budgets_normal_end out _ _ H3)
    as (_ & _ & budgets & _ & _ & Hb & Hsb & Fb).
  exists w1, w2, members, minutes, budgets.
  split; [exact H1|]. split; [exact H2|]. split; [exact H3|].
  split; [exact Hr|]. split.
  { apply (index_reads_back_frame (fs w1)); [|exact Hr].
    rewrite Fb, Fm; [reflexivity| | | |].
    - apply index_not_index. closed_paths.
    - intros b. apply index_not_stored. closed_paths.
    - apply index_not_index. closed_paths.
    - intros b. apply index_not_stored. closed_paths. }
  split; [exact Hm|]. split.
  { apply (index_reads_back_frame (fs w2)); [|exact Hm]. apply Fb.
    - apply index_not_index. closed_paths.
    - intros b. apply index_not_stored. closed_paths. }
  split; [exact Hb|]. split; [|exact Hsb].
  apply (stored_ok_frame _ _ (fs w2)); [|exact Hsm]. intros b. apply Fb.
  - intros E. symmetry in E. revert E. apply index_not_stored. closed_paths.
  - intros b'. apply stored_not_stored. closed_paths.
Qed.

(** X20. A regional run that ends normally ran the sessions and then the
    budgets step, each to a normal end, and at the end both index files
    read back as the records their steps collected, every record still
    naming a stored document with its digest: the budgets step touches
    neither the sessions index nor the sessions documents. *)
Theorem RegionScraper_run_normal_end (out : path) (w w' : World) :
  RegionScraper_run out w = (inr tt, w') ->
  exists w1 sessions budgets,
    region_scrape_sessions out w = (inr tt, w1) /\
    region_scrape_budgets out w1 = (inr tt, w') /\
    index_reads_back (fs w1) out (Path (lit "region/sessions_index.json"))
      sessions /\
    index_reads_back (fs w') out (Path (lit "region/sessions_index.json"))
      sessions /\
    index_reads_back (fs w') out (Path (lit "region/budgets_index.json"))
      budgets /\
    Forall (stored_ok out (Path (lit "region/sessions")) (fs w')) sessions /\
    Forall (stored_ok out (Path (lit "region/budgets")) (fs w')) budgets.
Proof.
  unfold RegionScraper_run. intros H.
  apply bind_inr in H as ([] & w1 & H1 & H2).
  destruct (sessions_normal_end out _ _ H1)
    as (_ & _ & sessions & _ & _ & Hs & Hss & Fs).
  destruct (region_budgets_normal_end out _ _ H2)
    as (_ & _ & budgets & _ & _ & Hb & Hsb & Fb).
  exists w1, sessions, budgets.
  split; [exact H1|]. split; [exact H2|]. split; [exact Hs|]. split.
  { apply (index_reads_back_frame (fs w1)); [|exact Hs]. apply Fb.
    - apply index_not_index. closed_paths.
    - intros b. apply index_not_stored. closed_paths. }
  split; [exact Hb|]. split; [|exact Hsb].
  apply (stored_ok_frame _ _ (fs w1)); [|exact Hss]. intros b. apply Fb.
  - intros E. symmetry in E. revert E. apply index_not_stored. closed_paths.
  - intros b'. apply stored_not_stored. closed_paths.
Qed.


(** ** The constituency test *)

Lemma startswith_spec (p s : pystr) :
  startswith p s = true <-> exists b, s = p ++ b.
Proof using Type.
  revert s. induction p as [|a p IH]; intros s.
  - split; [intros _; exists s; reflexivity|reflexivity].
  - destruct s as [|c s]; cbn [startswith].
    + split; [discriminate|]. intros (b & Hb). discriminate.
    + rewrite andb_true_iff, N.eqb_eq, IH. split.
      * intros (-> & b & ->). exists b. reflexivity.
      * intros (b & Hb). injection Hb as -> ->. split; [reflexivity|].
        exists b. reflexivity.
Qed.

Lemma contains_spec (p s : pystr) :
  contains p s = true <-> exists a b, s = a ++ p ++ b.
Proof using Type.
  induction s as [|c s IH].
  - cbn [contains]. rewrite orb_false_r, startswith_spec. split.
    + intros (b & Hb). exists [], b. exact Hb.
    + intros (a & b & Hab). destruct a as [|x a]; [|discriminate].
      exists b. exact Hab.
  - cbn [contains]. rewrite orb_true_iff, startswith_spec, IH. split.
    + intros [(b & Hb)|(a & b & Hab)].
      * exists [], b. exact Hb.
      * exists (c :: a), b. rewrite Hab. reflexivity.
    + intros (a & b & Hab). destruct a as [|x a].
      * left. exists b. exact Hab.
      * right. injection Hab as -> ->. exists a, b. reflexivity.
Qed.

(** X21. The parliament loop keeps a card exactly when the constituency
    occurs in the card's text as a contiguous run of code points; so a
    text shorter than the constituency is never kept, and the empty
    constituency keeps every card of the page. *)
Theorem parliament_keeps_substring_matches (cons : pystr) :
  (forall c, card_matches cons c = true <->
             exists a b, card_text c = a ++ cons ++ b) /\
  (forall c, (length (card_text c) < length cons)%nat ->
             card_matches cons c = false) /\
  (forall cards, List.filter (card_matches []) cards = cards).
Proof.
  split; [|split].
  - intros c. apply contains_spec.
  - intros c Hlen. destruct (card_matches cons c) eqn:E; [|reflexivity].
    apply contains_spec in E as (a & b & E). rewrite E in Hlen.
    rewrite !length_app in Hlen. lia.
  - intros cards. induction cards as [|c cards IH]; [reflexivity|].
    cbn [List.filter].
    replace (card_matches [] c) with true; [rewrite IH; reflexivity|].
    symmetry. apply contains_spec. exists [], (card_text c). reflexivity.
Qed.

End Scrapers.

(* ===================================================================== *)
(** * The model at work                                                    *)
(* ===================================================================== *)

(** ** The ASCII tables satisfy what the statements assume *)

Lemma ascii_lower_char_fixed (c : N) :
  ascii_lower_char (ascii_lower_char c) = ascii_lower_char c.
Proof.
  unfold ascii_lower_char.
  destruct ((65 <=? c) && (c <=? 90)) eqn:E.
  - apply andb_prop in E as [E1 E2]. apply N.leb_le in E1, E2.
    destruct (N.leb_spec 65 (c + 32)); destruct (N.leb_spec (c + 32) 90);
      cbn [andb]; try reflexivity. lia.
  - rewrite E. reflexivity.
Qed.

Lemma ascii_lower_stable : lower_stable ascii_lower.
Proof.
  unfold lower_stable, lower_fixed, ascii_lower. split; [|split].
  - intros s. induction s as [|c s IH]; cbn; constructor; [|exact IH].
    cbn. rewrite ascii_lower_char_fixed. reflexivity.
  - intros t H. induction H as [|c t Hc _ IH]; [reflexivity|].
    cbn in *. injection Hc as Hc. rewrite Hc, IH. reflexivity.
  - reflexivity.
Qed.

Lemma sample_isalnum_on_ascii : isalnum_on_ascii sample_isalnum.
Proof.
  intros c Hc. unfold sample_isalnum, sample_isdecimal.
  destruct (N.leb_spec 0x660 c); [lia|].
  destruct (N.leb_spec 0xE0 c); [lia|].
  destruct (N.leb_spec 0x620 c); [lia|].
  cbn [andb]. unfold ascii_isalnum.
  destruct (ascii_isdecimal c), ((65 <=? c) && (c <=? 90)),
    ((97 <=? c) && (c <=? 122)); reflexivity.
Qed.

Lemma ascii_isdecimal_on_ascii : isdecimal_on_ascii ascii_isdecimal.
Proof. intros c _. reflexivity. Qed.

Lemma ascii_isalnum_on_ascii : isalnum_on_ascii ascii_isalnum.
Proof. intros c _. reflexivity. Qed.

Lemma ascii_lower_on_ascii : lower_on_ascii ascii_lower.
Proof. intros s _. reflexivity. Qed.

(** In the empty volume, which refuses nothing, every file can be
    written. *)
Lemma empty_world_writable (p : path) :
  p <> [] -> writable (fs empty_world) p.
Proof.
  intros Hp. split; [exact Hp|]. split; [|split].
  - apply List.Forall_forall. intros q _. split.
    + apply lookup_empty.
    + right. reflexivity.
  - apply not_elem_of_empty.
  - reflexivity.
Qed.

(** ** Runs on concrete inputs *)

(** A run whose result is known is that result and the world it left. *)
Lemma run_eta {A} (x : (Exc + A) * World) (a : A) :
  fst x = inr a -> x = (inr a, snd x).
Proof. destruct x as [r w]. cbn. intros ->. reflexivity. Qed.

Lemma run_eta_err {A} (x : (Exc + A) * World) (e : Exc) :
  fst x = inl e -> x = (inl e, snd x).
Proof. destruct x as [r w]. cbn. intros ->. reflexivity. Qed.

(** Evaluate the run [x]; when it ends normally with the value [a],
    continue with [a] and the equation [x = (inr a, snd x)]. *)
Ltac run_then x k :=
  let v := eval vm_compute in (fst x) in
  match v with
  | inr ?a =>
      let Hr := fresh "Hr" in
      assert (Hr : x = (inr a, snd x))
        by (apply run_eta; vm_compute; reflexivity);
      k a Hr
  end.

(** The same for a run that ends with an exception. *)
Ltac run_fails x k :=
  let v := eval vm_compute in (fst x) in
  match v with
  | inl ?e =>
      let Hr := fresh "Hr" in
      assert (Hr : x = (inl e, snd x))
        by (apply run_eta_err; vm_compute; reflexivity);
      k e Hr
  end.

(** Two connection errors, then an answer: the answer is returned after
    a GET, a warning and a wait of 3, a GET, a warning and a wait of 6,
    and the GET that succeeds. *)
Lemma safe_request_bounded_retries_witness :
  fst (safe_request (flaky_get 2) (lit "u") empty_world)
  = inr (mkResponse 200 (lit "u") (text_bytes (lit "u"))) /\
  (exists errs,
     length errs = 2%nat /\
     trace (snd (safe_request (flaky_get 2) (lit "u") empty_world))
     = failed_rounds (lit "u") errs 0 ++ [EGet (lit "u")]) /\
  sleeps (snd (safe_request (flaky_get 2) (lit "u") empty_world)) = [3; 6] /\
  requests (snd (safe_request (flaky_get 2) (lit "u") empty_world))
  = [lit "u"; lit "u"; lit "u"].
Proof.
  destruct (safe_request_bounded_retries (flaky_get 2) (lit "u") empty_world)
    as (_ & _ & H & _).
  destruct (H 2%nat (mkResponse 200 (lit "u") (text_bytes (lit "u"))))
    as (H1 & (errs & Hl & _ & Ht) & H3 & H4).
  - lia.
  - intros i Hi. destruct i as [|[|i]];
      [eexists; reflexivity|eexists; reflexivity|lia].
  - reflexivity.
  - split; [exact H1|]. split; [exists errs; split; [exact Hl|exact Ht]|].
    split; [exact H3|exact H4].
Defined.

(** A server that is down: three waits, 3, 6 and 9, then the error. *)
Lemma safe_request_waits_after_last_failure_witness :
  fst (safe_request down_get (lit "u") empty_world)
  = inl (RuntimeError (exhausted_msg (lit "u"))) /\
  sleeps (snd (safe_request down_get (lit "u") empty_world)) = [3; 6; 9] /\
  requests (snd (safe_request down_get (lit "u") empty_world))
  = [lit "u"; lit "u"; lit "u"].
Proof.
  apply (safe_request_waits_after_last_failure down_get (lit "u") empty_world).
  intros i Hi. eexists. reflexivity.
Defined.

(** A table of two columns whose middle row is ragged: the ragged row is
    left out and the row after it is kept; the run hands the two records
    to the index. *)
Lemma elections_one_record_per_matching_row_witness :
  table_records (lit "u")
    (mkTable [lit "commune"; lit "votes"]
       ([[lit "Guelmim"; lit "120"]] ++ [lit "ragged"]
        :: [[lit "Asrir"; lit "75"]]))
  = table_records (lit "u")
      (mkTable [lit "commune"; lit "votes"] [[lit "Guelmim"; lit "120"]])
    ++ table_records (lit "u")
         (mkTable [lit "commune"; lit "votes"] [[lit "Asrir"; lit "75"]]) /\
  dict_get (lit "votes")
    (row_item (lit "u") [lit "commune"; lit "votes"]
       [lit "Guelmim"; lit "120"])
  = Some (lit "120") /\
  ElectionsScraper_run echo_get ascii_isalnum ascii_lower sample_tables
    data_root 2021 (lit "Guelmim") empty_world
  = bind
      (_save_json data_root
         (election_results (elections_url 2021 (lit "Guelmim"))
            [mkTable [lit "commune"; lit "votes"]
               [[lit "Guelmim"; lit "120"]; [lit "ragged"];
                [lit "Asrir"; lit "75"]]])
         (elections_index ascii_isalnum ascii_lower 2021 (lit "Guelmim")))
      (fun _ => log INFO (lit "Saved %d result rows") [LInt 2])
      (mkWorld
         [ELog (mkLog INFO
                  (lit "Fetching election results for province = %s")
                  [LStr (lit "Guelmim")]);
          EGet (elections_url 2021 (lit "Guelmim"));
          ERender (elections_url 2021 (lit "Guelmim")) 2 60] empty_fs).
Proof.
  split; [|split].
  - destruct (elections_one_record_per_matching_row echo_get ascii_isalnum
                ascii_lower sample_tables (lit "u"))
      as (_ & _ & _ & _ & _ & _ & H & _).
    apply H. vm_compute. lia.
  - destruct (elections_one_record_per_matching_row echo_get ascii_isalnum
                ascii_lower sample_tables (lit "u"))
      as (_ & _ & _ & _ & _ & H & _).
    apply (H _ _ 1%nat); [reflexivity|reflexivity| |].
    + vm_compute. intros H0. exact H0.
    + vm_compute. discriminate.
  - destruct (elections_one_record_per_matching_row echo_get ascii_isalnum
                ascii_lower sample_tables
                (elections_url 2021 (lit "Guelmim")))
      as (_ & _ & _ & _ & _ & _ & _ & H).
    apply (H data_root 2021%Z (lit "Guelmim") empty_world
             (mkResponse 200 (elections_url 2021 (lit "Guelmim"))
                (text_bytes (elections_url 2021 (lit "Guelmim"))))).
    + reflexivity.
    + reflexivity.
    + reflexivity.
    + discriminate.
Defined.

(** Records with Latin-1 and Arabic text, a tab and a quote, written to
    an empty tree and read back. *)
Lemma save_index_roundtrip_witness :
  exists bytes,
    fst (_save_json data_root sample_records [lit "index.json"] empty_world)
    = inr [lit "data"; lit "index.json"] /\
    files (fs (snd (_save_json data_root sample_records [lit "index.json"]
                      empty_world)))
      !! [lit "data"; lit "index.json"] = Some bytes /\
    json_load_bytes bytes = Some sample_records.
Proof.
  destruct (save_index_roundtrip data_root [lit "index.json"] sample_records
              empty_world) as (bytes & H1 & H2 & _ & _ & H3 & _).
  - apply empty_world_writable. discriminate.
  - repeat constructor; vm_compute; intuition discriminate.
  - exists bytes. rewrite H1. cbn [fst snd fs with_fs].
    split; [reflexivity|]. split; [exact H2|exact H3].
Defined.

(** The payload [abc] stored twice under its digest: the second store
    returns the path of the first and leaves the world as it was. *)
Lemma content_addressed_store_idempotent_witness :
  exists p w1,
    _save_binary data_root (list_byte_of_string "abc")
      (stored_name [lit "commune"; lit "minutes"] (list_byte_of_string "abc"))
      empty_world = (inr p, w1) /\
    p = [lit "data"; lit "commune"; lit "minutes";
         lit "a9993e364706816aba3e25717850c26c9cd0d89d.pdf"] /\
    _save_binary data_root (list_byte_of_string "abc")
      (stored_name [lit "commune"; lit "minutes"] (list_byte_of_string "abc"))
      w1 = (inr p, w1) /\
    files (fs w1) !! p = Some (list_byte_of_string "abc").
Proof.
  eexists. eexists.
  assert (H0 : _save_binary data_root (list_byte_of_string "abc")
                 (stored_name [lit "commune"; lit "minutes"]
                    (list_byte_of_string "abc")) empty_world
               = (inr [lit "data"; lit "commune"; lit "minutes";
                       lit "a9993e364706816aba3e25717850c26c9cd0d89d.pdf"],
                  snd (_save_binary data_root (list_byte_of_string "abc")
                         (stored_name [lit "commune"; lit "minutes"]
                            (list_byte_of_string "abc")) empty_world)))
    by (apply run_eta; vm_compute; reflexivity).
  split; [exact H0|]. split; [reflexivity|].
  edestruct (content_addressed_store_idempotent data_root
               [lit "commune"; lit "minutes"]
               (list_byte_of_string "abc") (list_byte_of_string "abc")
               empty_world) as (_ & _ & _ & H); [reflexivity|].
  destruct (H H0) as (H1 & H2 & _). split; [exact H1|exact H2].
Defined.

(** The link of the scenario gives the year 2019; in a run over two
    links, the records carry the years of their URLs. *)
Lemma budgets_year_field_witness :
  budget_year ascii_isdecimal
    (commune_pdf_url (lit "/ar/budget-2019-final.pdf")) = lit "2019" /\
  exists idx w',
    for_loop (budgets_link echo_get ascii_isdecimal data_root)
      [mkTag (Some (lit "/ar/budget-2019-final.pdf")) (lit "b");
       mkTag (Some (lit "/ar/budget.pdf")) (lit "c")] [] empty_world
    = (inr idx, w') /\
    List.map (dict_get (lit "year")) idx
    = [Some (lit "2019"); Some (lit "unknown")] /\
    exists new,
      idx = [] ++ new /\
      Forall2
        (fun a r =>
           exists h, tag_attr a = Some h /\
             dict_get (lit "source_url") r = Some (commune_pdf_url h) /\
             dict_get (lit "year") r
             = Some (budget_year ascii_isdecimal (commune_pdf_url h)))
        [mkTag (Some (lit "/ar/budget-2019-final.pdf")) (lit "b");
         mkTag (Some (lit "/ar/budget.pdf")) (lit "c")] new.
Proof.
  destruct (budgets_year_field echo_get ascii_isdecimal data_root)
    as (H1 & _ & H3).
  split; [exact (proj2 (H3 ascii_isdecimal_on_ascii))|].
  run_then
    (for_loop (budgets_link echo_get ascii_isdecimal data_root)
       [mkTag (Some (lit "/ar/budget-2019-final.pdf")) (lit "b");
        mkTag (Some (lit "/ar/budget.pdf")) (lit "c")] [] empty_world)
    ltac:(fun idx Hr =>
            exists idx; eexists; split; [exact Hr|];
            split; [vm_compute; reflexivity|];
            exact (H1 _ _ _ _ _ Hr)).
Defined.

(** Three cards of which one names the constituency give one record, in
    either order of the cards; with a constituency no card names, the
    run ends normally and the index is the empty array. *)
Lemma parliament_one_record_per_matching_card_witness :
  (exists idx w',
     for_loop (parliament_card echo_get no_party (lit "Guelmim"))
       (three_cards []) [] empty_world = (inr idx, w') /\
     length idx = 1%nat) /\
  (exists idx w',
     for_loop (parliament_card echo_get no_party (lit "Guelmim"))
       (rev (three_cards [])) [] empty_world = (inr idx, w') /\
     length idx = 1%nat) /\
  (exists w2,
     ParliamentScraper_run echo_get three_cards no_party data_root
       (lit "Dakhla") empty_world = (inr tt, w2) /\
     files (fs w2) !! path_join data_root (Path (lit "parliament/members.json"))
     = Some [x5b; x5d]).
Proof.
  destruct (parliament_one_record_per_matching_card echo_get three_cards
              no_party data_root (lit "Guelmim")) as (H1 & _ & _ & _).
  destruct (parliament_one_record_per_matching_card echo_get three_cards
              no_party data_root (lit "Dakhla")) as (_ & _ & _ & H4).
  split; [|split].
  - run_then
      (for_loop (parliament_card echo_get no_party (lit "Guelmim"))
         (three_cards []) [] empty_world)
      ltac:(fun idx Hr =>
              exists idx; eexists; split; [exact Hr|];
              exact (proj2 (H1 _ _ _ _ Hr))).
  - run_then
      (for_loop (parliament_card echo_get no_party (lit "Guelmim"))
         (rev (three_cards [])) [] empty_world)
      ltac:(fun idx Hr =>
              exists idx; eexists; split; [exact Hr|];
              exact (proj2 (H1 _ _ _ _ Hr))).
  - run_then
      (safe_request echo_get (PARLIAMENT_BASE ++ lit "/ar/members")
         empty_world)
      ltac:(fun resp Hr =>
              destruct (H4 _ _ _ Hr) as (w2 & Hrun & Hf & _);
              [ reflexivity
              | apply (empty_world_writable
                         (path_join data_root
                            (Path (lit "parliament/members.json"))));
                discriminate
              | exists w2; split; [exact Hrun|exact Hf] ]).
Defined.


(** The province name [Laâyoune] keeps its [â]. *)
Lemma slugify_keeps_non_ascii_letters_witness :
  slugify sample_isalnum ascii_lower (ulit "Laâyoune") = ulit "laâyoune" /\
  forallb is_ascii (slugify sample_isalnum ascii_lower (ulit "Laâyoune"))
  = false.
Proof.
  apply (slugify_keeps_non_ascii_letters sample_isalnum ascii_lower).
  - exact sample_isalnum_on_ascii.
  - reflexivity.
  - reflexivity.
Defined.

(** Slugging a slug again changes nothing. *)
Lemma slugify_idempotent_witness :
  slugify ascii_isalnum ascii_lower (lit "  Guelmim -- Oued Noun! ")
  = lit "guelmim-oued-noun" /\
  slugify ascii_isalnum ascii_lower
    (slugify ascii_isalnum ascii_lower (lit "  Guelmim -- Oued Noun! "))
  = slugify ascii_isalnum ascii_lower (lit "  Guelmim -- Oued Noun! ").
Proof.
  split; [reflexivity|].
  apply (slugify_idempotent ascii_isalnum ascii_lower). 
  exact ascii_lower_stable.
Defined.

(** ** Runs for the further properties *)

(** A 304 is returned at once; a 503 is followed by a wait of 3. *)
Lemma safe_request_status_witness :
  safe_request not_modified_get (lit "u") empty_world
  = (inr (mkResponse 304 [] []), mkWorld [EGet (lit "u")] empty_fs) /\
  attempt down_get 0 (lit "u") = inl (HTTPError 503).
Proof.
  split.
  - destruct (safe_request_status not_modified_get (lit "u") empty_world
                (mkResponse 304 [] [])) as [H _]; [reflexivity|].
    apply H. left. reflexivity.
  - destruct (safe_request_status down_get (lit "u") empty_world
                (mkResponse 503 [] [])) as [_ H]; [reflexivity|].
    apply H. split; [discriminate|reflexivity].
Defined.


(** The stored bytes are read back at the returned path. *)
Lemma _save_binary_read_back_witness :
  files (fs (snd (_save_binary data_root [x61; x62]
                    [lit "docs"; lit "a.bin"] empty_world)))
    !! [lit "data"; lit "docs"; lit "a.bin"] = Some [x61; x62].
Proof.
  run_then
    (_save_binary data_root [x61; x62] [lit "docs"; lit "a.bin"] empty_world)
    ltac:(fun p Hr =>
            destruct (_save_binary_read_back _ _ _ _ _ _ Hr)
              as (_ & Hf & _); exact Hf).
Defined.

(** The sample records overwritten by the empty list: the file reads
    back as the empty list. *)
Lemma _save_json_overwrites_witness :
  exists w1 w2 bytes,
    _save_json data_root sample_records [lit "index.json"] empty_world
    = (inr (path_join data_root [lit "index.json"]), w1) /\
    _save_json data_root [] [lit "index.json"] w1
    = (inr (path_join data_root [lit "index.json"]), w2) /\
    files (fs w2) !! path_join data_root [lit "index.json"] = Some bytes /\
    json_load_bytes bytes = Some [].
Proof.
  destruct (_save_json_overwrites data_root [lit "index.json"]
              sample_records [] empty_world)
    as (w1 & w2 & bytes & H1 & H2 & _ & H3 & H4).
  - apply empty_world_writable. discriminate.
  - repeat constructor; vm_compute; intuition discriminate.
  - constructor.
  - exists w1, w2, bytes. auto.
Defined.


(** A province with slashes and dots: the slug has none of them. *)
Lemma slugify_safe_characters_witness :
  ~ In SLASH (slugify sample_isalnum ascii_lower (lit "../../etc/passwd")) /\
  ~ In 46 (slugify sample_isalnum ascii_lower (lit "../../etc/passwd")).
Proof.
  destruct (slugify_safe_characters sample_isalnum ascii_lower
              (lit "../../etc/passwd")) as (_ & _ & _ & H).
  destruct (H sample_isalnum_on_ascii) as (_ & H1 & H2 & _).
  split; [exact H1|exact H2].
Defined.

(** An ASCII text gives a slug of lower-case letters, digits, underscores
    and hyphens. *)
Lemma slugify_ascii_witness :
  forallb is_slug_char (slugify ascii_isalnum ascii_lower (lit "Sidi Ifni!"))
  = true.
Proof.
  apply (slugify_ascii ascii_isalnum ascii_lower (lit "Sidi Ifni!")).
  - exact ascii_isalnum_on_ascii.
  - exact ascii_lower_on_ascii.
  - reflexivity.
Defined.

(** Punctuation only: the slug is empty. *)
Lemma slugify_no_word_is_empty_witness :
  slugify sample_isalnum ascii_lower (lit "?! ...") = [].
Proof.
  apply (slugify_no_word_is_empty sample_isalnum ascii_lower (lit "?! ...")).
  repeat constructor.
Defined.

(** A province that looks like a path: the index stays in the output
    directory. *)
Lemma elections_index_in_output_dir_witness :
  parent (path_join data_root
            (elections_index sample_isalnum ascii_lower 2021
               (lit "../../etc/passwd")))
  = data_root.
Proof.
  destruct (elections_index_in_output_dir sample_isalnum ascii_lower
              data_root 2021 (lit "../../etc/passwd")
              sample_isalnum_on_ascii) as (_ & H & _).
  exact H.
Defined.

(** Two rows of one table have the same keys. *)
Lemma elections_table_schema_witness :
  dict_keys (row_item (lit "u") [lit "commune"; lit "votes"]
               [lit "Guelmim"; lit "120"])
  = dict_keys (row_item (lit "u") [lit "commune"; lit "votes"]
                 [lit "Asrir"; lit "75"]).
Proof.
  destruct (elections_table_schema (lit "u")
              (mkTable [lit "commune"; lit "votes"]
                 [[lit "Guelmim"; lit "120"]; [lit "ragged"];
                  [lit "Asrir"; lit "75"]])
              (row_item (lit "u") [lit "commune"; lit "votes"]
                 [lit "Guelmim"; lit "120"])
              (row_item (lit "u") [lit "commune"; lit "votes"]
                 [lit "Asrir"; lit "75"])) as (H & _).
  - left. reflexivity.
  - right. left. reflexivity.
  - exact H.
Defined.

(** A page without tables: one request, one rendering, then the
    error. *)
Lemma ElectionsScraper_run_single_request_witness :
  ElectionsScraper_run echo_get ascii_isalnum ascii_lower no_tables
    data_root 2021 (lit "Guelmim") empty_world
  = (inl (RuntimeError NO_TABLE_MSG),
     elections_rendered 2021 (lit "Guelmim") empty_world).
Proof.
  destruct (ElectionsScraper_run_single_request echo_get ascii_isalnum
              ascii_lower no_tables data_root 2021 (lit "Guelmim")
              empty_world) as (_ & _ & _ & _ & _ & H & _).
  apply (H (mkResponse 200 (elections_url 2021 (lit "Guelmim"))
              (text_bytes (elections_url 2021 (lit "Guelmim")))));
    reflexivity.
Defined.

(** The run over the sample page: the index reads back as the records of
    its table. *)
Lemma ElectionsScraper_run_index_reads_back_witness :
  exists r tables bytes,
    sample_tables r = inr tables /\
    files (fs (snd (ElectionsScraper_run echo_get ascii_isalnum ascii_lower
                      sample_tables data_root 2021 (lit "Guelmim")
                      empty_world)))
      !! path_join data_root
           (elections_index ascii_isalnum ascii_lower 2021 (lit "Guelmim"))
    = Some bytes /\
    json_load_bytes bytes
    = Some (election_results (elections_url 2021 (lit "Guelmim")) tables).
Proof.
  run_then
    (ElectionsScraper_run echo_get ascii_isalnum ascii_lower sample_tables
       data_root 2021 (lit "Guelmim") empty_world)
    ltac:(fun a Hr =>
            destruct (ElectionsScraper_run_index_reads_back _ _ _ _ _ _ _ _ _
                        Hr)
              as (r & tables & bytes & _ & Ht & _ & Hf & Hj & _);
            exists r, tables, bytes; split; [exact Ht|];
            split; [exact Hf|exact Hj]).
Defined.

(** The minutes of a page with two links: the index reads back as two
    records, each naming a stored document. *)
Lemma download_index_reads_back_witness :
  exists idx,
    length idx = 2%nat /\
    index_reads_back
      (fs (snd (_scrape_minutes echo_get two_pdf_links data_root
                  empty_world)))
      data_root (Path (lit "commune/minutes_index.json")) idx /\
    Forall
      (stored_ok data_root (Path (lit "commune/minutes"))
         (fs (snd (_scrape_minutes echo_get two_pdf_links data_root
                     empty_world))))
      idx.
Proof.
  destruct (download_index_reads_back echo_get ascii_isdecimal two_pdf_links
              no_links data_root) as (H & _).
  run_then (_scrape_minutes echo_get two_pdf_links data_root empty_world)
    ltac:(fun a Hr =>
            destruct (H _ _ Hr) as (resp & w1 & idx & _ & Hl & Hi & Hs & _);
            exists idx; split;
            [symmetry; exact (Forall2_length _ _ _ Hl)|];
            split; [exact Hi|exact Hs]).
Defined.

(** The second card has no picture: the commune run stops with
    [TypeError] right after the roster page was fetched. *)
Lemma roster_malformed_card_aborts_commune_witness :
  CommuneScraper_run echo_get ascii_isdecimal broken_roster two_pdf_links
    data_root empty_world
  = (inl TypeError,
     snd (safe_request echo_get (_url ROSTER_SLUG) empty_world)).
Proof.
  run_then (safe_request echo_get (_url ROSTER_SLUG) empty_world)
    ltac:(fun resp Hr =>
            destruct (roster_malformed_card_aborts_commune echo_get
                        ascii_isdecimal broken_roster two_pdf_links
                        data_root empty_world _ resp
                        [mkRosterCard (Some (lit "Ali")) None
                           (Some (mkTag (Some (lit "/img/ali.png")) []))]
                        [mkRosterCard (Some (lit "Omar")) None
                           (Some (mkTag (Some (lit "/img/omar.png")) []))]
                        (mkRosterCard (Some (lit "Sara")) None None)
                        TypeError Hr)
              as (_ & H & _);
            [reflexivity|repeat constructor|reflexivity|exact H]).
Defined.

(** A roster of two members: the index reads back as two records. *)
Lemma _scrape_roster_index_reads_back_witness :
  exists members bytes,
    length members = 2%nat /\
    files (fs (snd (_scrape_roster echo_get two_roster_cards data_root
                      empty_world)))
      !! path_join data_root (Path (lit "commune/roster.json")) = Some bytes /\
    json_load_bytes bytes = Some members.
Proof.
  run_then (_scrape_roster echo_get two_roster_cards data_root empty_world)
    ltac:(fun a Hr =>
            destruct (_scrape_roster_index_reads_back _ _ _ _ _ Hr)
              as (resp & w1 & members & bytes & _ & Hn & Hf & Hj & _);
            exists members, bytes; split;
            [symmetry; exact (Forall2_length _ _ _ Hn)|];
            split; [exact Hf|exact Hj]).
Defined.

(** Three cards of which one names the constituency: the index reads
    back as one record. *)
Lemma ParliamentScraper_run_index_reads_back_witness :
  exists idx bytes,
    length idx = 1%nat /\
    files (fs (snd (ParliamentScraper_run echo_get three_cards no_party
                      data_root (lit "Guelmim") empty_world)))
      !! path_join data_root (Path (lit "parliament/members.json"))
    = Some bytes /\
    json_load_bytes bytes = Some idx.
Proof.
  run_then
    (ParliamentScraper_run echo_get three_cards no_party data_root
       (lit "Guelmim") empty_world)
    ltac:(fun a Hr =>
            destruct (ParliamentScraper_run_index_reads_back _ _ _ _ _ _ _ Hr)
              as (resp & w1 & idx & bytes & _ & Hn & Hf & Hj & _);
            exists idx, bytes; split;
            [symmetry; exact (Forall2_length _ _ _ Hn)|];
            split; [exact Hf|exact Hj]).
Defined.

(** The site is down: the run fails and the output tree is untouched. *)
Lemma ParliamentScraper_run_failures_witness :
  fst (ParliamentScraper_run down_get three_cards no_party data_root
         (lit "Guelmim") empty_world)
  = inl (RuntimeError (exhausted_msg (PARLIAMENT_BASE ++ lit "/ar/members")))
  /\
  fs (snd (ParliamentScraper_run down_get three_cards no_party data_root
             (lit "Guelmim") empty_world))
  = fs empty_world.
Proof.
  run_fails
    (ParliamentScraper_run down_get three_cards no_party data_root
       (lit "Guelmim") empty_world)
    ltac:(fun e Hr =>
            destruct (ParliamentScraper_run_failures _ _ _ _ _ _ _ _ Hr)
              as [[_ Hf]|[[(q & Hq)|Hu] _]];
            [|discriminate Hq|discriminate Hu];
            split; [rewrite Hr; reflexivity|exact Hf]).
Defined.

(** A commune run over a roster of two and pages of two links: the three
    indexes read back at the end. *)
Lemma CommuneScraper_run_normal_end_witness :
  exists members minutes budgets,
    index_reads_back
      (fs (snd (CommuneScraper_run echo_get ascii_isdecimal two_roster_cards
                  two_pdf_links data_root empty_world)))
      data_root (Path (lit "commune/roster.json")) members /\
    index_reads_back
      (fs (snd (CommuneScraper_run echo_get ascii_isdecimal two_roster_cards
                  two_pdf_links data_root empty_world)))
      data_root (Path (lit "commune/minutes_index.json")) minutes /\
    index_reads_back
      (fs (snd (CommuneScraper_run echo_get ascii_isdecimal two_roster_cards
                  two_pdf_links data_root empty_world)))
      data_root (Path (lit "commune/budgets_index.json")) budgets.
Proof.
  run_then
    (CommuneScraper_run echo_get ascii_isdecimal two_roster_cards
       two_pdf_links data_root empty_world)
    ltac:(fun a Hr =>
            destruct (CommuneScraper_run_normal_end _ _ _ _ _ _ _ Hr)
              as (w1 & w2 & members & minutes & budgets & _ & _ & _ & _
                  & H1 & _ & H2 & H3 & _);
            exists members, minutes, budgets; split; [exact H1|];
            split; [exact H2|exact H3]).
Defined.

(** A regional run over pages of two links: both indexes read back at
    the end. *)
Lemma RegionScraper_run_normal_end_witness :
  exists sessions budgets,
    index_reads_back
      (fs (snd (RegionScraper_run echo_get two_pdf_links data_root
                  empty_world)))
      data_root (Path (lit "region/sessions_index.json")) sessions /\
    index_reads_back
      (fs (snd (RegionScraper_run echo_get two_pdf_links data_root
                  empty_world)))
      data_root (Path (lit "region/budgets_index.json")) budgets.
Proof.
  run_then (RegionScraper_run echo_get two_pdf_links data_root empty_world)
    ltac:(fun a Hr =>
            destruct (RegionScraper_run_normal_end _ _ _ _ _ Hr)
              as (w1 & sessions & budgets & _ & _ & _ & H1 & H2 & _);
            exists sessions, budgets; split; [exact H1|exact H2]).
Defined.

(** A card that names the constituency is kept; a text shorter than the
    constituency is not. *)
Lemma parliament_keeps_substring_matches_witness :
  card_matches (lit "Guelmim") (mkCard (lit "Sara - Guelmim") None) = true /\
  card_matches (lit "Guelmim") (mkCard (lit "Sara") None) = false.
Proof.
  destruct (parliament_keeps_substring_matches (lit "Guelmim"))
    as (H1 & H2 & _).
  split.
  - apply H1. exists (lit "Sara - "), []. reflexivity.
  - apply H2. vm_compute. lia.
Defined.
